(** * Market timing versus monthly savings plan: the back-testing library

    A shallow embedding of [library_functions.py] and the properties of
    its natural-language specification.

    Conventions of the embedding.
    - A pandas float cell is a [num]: [Some q] is the finite value [q]
      (an exact rational, so rounding is not modelled) and [None] is NaN.
      Infinities are not represented: a quotient by zero is [None].
    - A DataFrame is the list of its rows, in index order.  Every frame
      the planner works on carries a fresh [RangeIndex] (it comes out of
      [merge] or [reset_index]), so a row label is the row's position.
    - A Python exception is a [Raise] result. *)

From Stdlib Require Import QArith Qcanon.
From stdpp Require Import base list strings numbers sorting gmap.

#[local] Set Warnings "-clear-no-such-hyp".

Local Open Scope Qc_scope.

(** ** Numbers *)

Abbreviation num := (option Qc).

Definition num_sub (a b : num) : num :=
  match a, b with Some x, Some y => Some (x - y) | _, _ => None end.
Definition num_mul (a b : num) : num :=
  match a, b with Some x, Some y => Some (x * y) | _, _ => None end.
Definition num_div (a b : num) : num :=
  match a, b with
  | Some x, Some y => if decide (y = 0) then None else Some (x / y)
  | _, _ => None
  end.

(** The value of a cell as a fraction in lowest terms. *)
Definition num_Q (a : num) : option Q := option_map this a.

(** [a >= q] on a cell: a comparison with NaN is false. *)
Definition num_ge (a : num) (q : Qc) : bool :=
  match a with Some x => bool_decide (q ≤ x) | None => false end.

(** [Series.fillna(0)]. *)
Definition fillna0 (a : num) : num :=
  match a with Some x => Some x | None => Some 0 end.

Definition Qcmin (x y : Qc) : Qc := if bool_decide (x ≤ y) then x else y.


(** [Series.sum()]: NaN cells are skipped. *)
Definition col_sum (l : list num) : Qc :=
  fold_right (fun a s => default 0 a + s) 0 l.

(** [Series.cumsum()] of a column without NaN. *)
Fixpoint cumsum_from (acc : Qc) (l : list Qc) : list Qc :=
  match l with
  | [] => []
  | x :: l' => (acc + x) :: cumsum_from (acc + x) l'
  end.
Definition cumsum (l : list Qc) : list Qc := cumsum_from 0 l.

(** ** Exceptions *)

Inductive exn :=
| AssertionError (msg : string)
| AttributeError (name : string)
| IndexError
| ValueError
| OverflowError.

Inductive result (A : Type) :=
| Ok (a : A)
| Raise (e : exn).
Arguments Ok {A} a.
Arguments Raise {A} e.

Global Instance result_ret : MRet result := fun A a => Ok a.
Global Instance result_bind : MBind result := fun A B k r =>
  match r with Ok a => k a | Raise e => Raise e end.

Definition is_ok {A} (r : result A) : bool :=
  match r with Ok _ => true | Raise _ => false end.
Definition is_assertion_error {A} (r : result A) : bool :=
  match r with Raise (AssertionError _) => true | _ => false end.

(** [assert c], re-raised with a message added (the message of the
    source also quotes the offending value). *)
Definition py_assert (c : bool) (msg : string) : result unit :=
  if c then Ok () else Raise (AssertionError msg).

(** ** Dates and the horizon (get_horizon_start_end) *)

(** A [datetime.datetime]; the time of day plays no role in a shift by
    whole years and is left out. *)
Record datetime := mk_datetime { dt_year : Z; dt_month : Z; dt_day : Z }.

Definition is_leap (y : Z) : bool :=
  ((y mod 4 =? 0) && negb (y mod 100 =? 0) || (y mod 400 =? 0))%Z.

Definition days_in_month (y m : Z) : Z :=
  if (m =? 2)%Z then (if is_leap y then 29 else 28)%Z
  else if ((m =? 4) || (m =? 6) || (m =? 9) || (m =? 11))%Z then 30%Z
  else 31%Z.

(** A year that [datetime.replace] can take as a C [int]. *)
Definition c_int (z : Z) : bool :=
  ((-2147483648 <=? z) && (z <=? 2147483647))%Z.

(** [d + relativedelta(years=n)] as dateutil computes it: the year is
    shifted, the day is clamped to the length of the month in the new
    year (29 February becomes 28 February), and [datetime.replace]
    raises [ValueError] outside the years 1..9999, or [OverflowError]
    when the year does not even fit a C [int]. *)
Definition add_years (d : datetime) (n : Z) : result datetime :=
  let y := (dt_year d + n)%Z in
  let day := Z.min (days_in_month y (dt_month d)) (dt_day d) in
  if ((1 <=? y) && (y <=? 9999))%Z
  then Ok (mk_datetime y (dt_month d) day)
  else if c_int y then Raise ValueError else Raise OverflowError.

(** The function prints the two dates when [verbose == 1]; the printed
    line is returned next to the result. *)
Definition get_horizon_start_end (start_date : datetime)
    (year_start horizon_length : Z) (verbose : Z)
  : result (list (datetime * datetime) * (datetime * datetime)) :=
  horizon_start ← add_years start_date year_start;
  horizon_end ← add_years horizon_start horizon_length;
  let out := if (verbose =? 1)%Z then [(horizon_start, horizon_end)] else [] in
  Ok (out, (horizon_start, horizon_end)).

Definition datetime_le (a b : datetime) : bool :=
  ((dt_year a <? dt_year b)
   || ((dt_year a =? dt_year b)
       && ((dt_month a <? dt_month b)
           || ((dt_month a =? dt_month b) && (dt_day a <=? dt_day b)))))%Z.

Global Instance datetime_eq_dec : EqDecision datetime.
Proof. solve_decision. Defined.

(** ** The data model *)

(** A row of the price frame: the [Date] index, the [year] and [month]
    columns the caller has added, and the prices. *)
Record DailyRecord := mk_daily {
  Date : datetime;
  year : Z;
  month : Z;
  Open : Qc;
  High : Qc;
  AdjClose : Qc
}.

(** A row once [compute_moving_max] has run. *)
Record AnnotatedRecord := mk_annotated {
  daily :> DailyRecord;
  moving_max : num
}.

(** A row once [compute_percent_drop] has run. *)
Record DropRecord := mk_drop {
  annotated :> AnnotatedRecord;
  percent_drop : num
}.

(** A row once [assign_available_capital] has run. *)
Record CapitalizedRecord := mk_capitalized {
  dropped :> DropRecord;
  capital : num
}.

(** A row of the plan while the two legs run. *)
Record PlanRow := mk_plan_row {
  capitalized :> CapitalizedRecord;
  buy : bool;
  investment_percent : num;
  investment_amount : num;
  cash : num
}.

(** A row of the finished plan. *)
Record PlanRecord := mk_plan_record {
  plan_row :> PlanRow;
  share_amount : num
}.

(** ** compute_moving_max *)







(** ** compute_percent_drop *)

(** The price frame handed to [create_investment_plan]: with or without
    the [moving_max] column. *)
Inductive PriceFrame :=
| Unannotated (rows : list DailyRecord)
| Annotated (rows : list AnnotatedRecord).

Definition percent_drop_of (r : AnnotatedRecord) : num :=
  num_sub (Some 1) (num_div (Some (AdjClose r)) (moving_max r)).

(** [df.moving_max] on a frame without that column is an
    [AttributeError]. *)
Definition compute_percent_drop (df : PriceFrame) : result (list DropRecord) :=
  match df with
  | Unannotated _ => Raise (AttributeError "moving_max")
  | Annotated rows => Ok ((fun r => mk_drop r (percent_drop_of r)) <$> rows)
  end.

(** ** groupby and merge *)

(** [df.groupby(['year', 'month']).Date.first()]: the [Date] of the first
    row of every (year, month) group.  pandas lists the groups by key;
    here they come in order of appearance, which the merges below
    cannot tell apart. *)
Fixpoint first_dates (seen : list (Z * Z)) (df : list DailyRecord)
  : list datetime :=
  match df with
  | [] => []
  | r :: df' =>
      if decide ((year r, month r) ∈ seen) then first_dates seen df'
      else Date r :: first_dates ((year r, month r) :: seen) df'
  end.

Definition groupby_first_date (df : list DailyRecord) : list datetime :=
  first_dates [] df.

(** [df.merge(right, how='left', on='Date')] for a right frame whose
    other columns are constant: a left row comes out once per right row
    with its [Date], filled by [hit], and once, filled by [miss] (NaN,
    then [fillna]), when there is none. *)
Definition merge_left {A B} (date : A → datetime) (hit miss : A → B)
    (right : list datetime) (df : list A) : list B :=
  df ≫= (fun r =>
    match length (filter (fun d => d = date r) right) with
    | O => [miss r]
    | k => replicate k (hit r)
    end).

(** [Series.cumsum()]: a NaN cell stays NaN and is skipped by the
    running sum. *)
Fixpoint num_cumsum_from (acc : Qc) (l : list num) : list num :=
  match l with
  | [] => []
  | Some x :: l' => Some (acc + x) :: num_cumsum_from (acc + x) l'
  | None :: l' => None :: num_cumsum_from acc l'
  end.
Definition num_cumsum (l : list num) : list num := num_cumsum_from 0 l.

(** [Series.fillna(method='ffill')]. *)
Fixpoint ffill_from (last : num) (l : list num) : list num :=
  match l with
  | [] => []
  | Some x :: l' => Some x :: ffill_from (Some x) l'
  | None :: l' => last :: ffill_from last l'
  end.
Definition ffill (l : list num) : list num := ffill_from None l.

(** ** assign_available_capital *)

Definition assign_available_capital (df : list DropRecord)
    (monthly_savings : Qc) : list CapitalizedRecord :=
  let money_input :=
    groupby_first_date ((fun r : DropRecord => (r : DailyRecord)) <$> df) in
  let merged :=
    merge_left (fun r : DropRecord => Date r)
      (fun r => (r, Some monthly_savings)) (fun r => (r, None))
      money_input df in
  zip_with mk_capitalized merged.*1 (ffill (num_cumsum merged.*2)).

(** ** create_monthly_investment_plan *)

(** The price columns of a capitalized frame. *)
Definition dailies (df : list CapitalizedRecord) : list DailyRecord :=
  (fun r : CapitalizedRecord => (r : DailyRecord)) <$> df.

(** [df[df.capital.notnull()].capital.iloc[0]]. *)
Fixpoint first_capital (df : list CapitalizedRecord) : result Qc :=
  match df with
  | [] => Raise IndexError
  | r :: df' =>
      match capital r with Some c => Ok c | None => first_capital df' end
  end.

(** A row with its [cash] cell replaced. *)
Definition with_cash (r : PlanRow) (c : num) : PlanRow :=
  mk_plan_row r (buy r) (investment_percent r) (investment_amount r) c.

(** [df['cash'] = df.capital - df.investment_amount.cumsum()]. *)
Definition assign_cash (df : list PlanRow) : list PlanRow :=
  zip_with (fun (r : PlanRow) c => with_cash r (num_sub (capital r) c))
    df (num_cumsum (investment_amount <$> df)).

Definition create_monthly_investment_plan (df : list CapitalizedRecord)
    (perc_monthly_invest : Qc) : result (list PlanRow) :=
  _ ← py_assert
        (bool_decide (0 ≤ perc_monthly_invest)
         && bool_decide (perc_monthly_invest ≤ 1))
        "perc_monthly_invest must be within [0, 1]";
  let buying_time := groupby_first_date (dailies df) in
  c0 ← first_capital df;
  let amount := c0 * perc_monthly_invest in
  (* the merge and its fillna; the cash column is assigned right after *)
  let merged :=
    merge_left (fun r : CapitalizedRecord => Date r)
      (fun r =>
         mk_plan_row r (bool_decide (0 < perc_monthly_invest))
           (Some perc_monthly_invest) (Some amount) None)
      (fun r => mk_plan_row r false (Some 0) (Some 0) None)
      buying_time df in
  Ok (assign_cash merged).

(** ** create_drop_threshold_investment_plan *)

(** A Python number passed for [waiting_days] or [drop_multiplier]. *)
Inductive pynumber :=
| PyInt (z : Z)
| PyFloat (q : Qc).

(** [x >= 1 and type(x) == int]. *)
Definition positive_int (x : pynumber) : option Z :=
  match x with
  | PyInt z => if (1 <=? z)%Z then Some z else None
  | PyFloat _ => None
  end.

Definition assert_positive_int (x : pynumber) (msg : string) : result Z :=
  match positive_int x with
  | Some z => Ok z
  | None => Raise (AssertionError msg)
  end.

(** Positions of the rows of [df[df.percent_drop >= perc_drop_threshold]]. *)
Definition trigger_rows (df : list PlanRow) (perc_drop_threshold : Qc)
  : list nat :=
  filter
    (fun i => (fun r : PlanRow => num_ge (percent_drop r) perc_drop_threshold)
                <$> df !! i = Some true)
    (seq 0 (length df)).

(** What the loop body does with a trigger row. *)
Inductive decision := Ineligible | Suppressed | Execute.

Definition decide_trigger (mode : string) (waiting_days : Z) (df : list PlanRow)
    (last_buy : Z) (row_idx : nat) : decision :=
  if bool_decide (waiting_days ≤ Z.of_nat row_idx - last_buy)%Z
     && bool_decide (row_idx ≠ pred (length df))
  then
    if bool_decide (mode = "hybrid_strategy")
       && bool_decide (buy <$> df !! S row_idx = Some true)
    then Suppressed
    else Execute
  else Ineligible.

(** [df.loc[next_row_idx:, 'cash'] = df.loc[next_row_idx:].cash - amount]. *)
Definition subtract_cash_from (next_row_idx : nat) (amount : num)
    (df : list PlanRow) : list PlanRow :=
  take next_row_idx df
  ++ ((fun r : PlanRow => with_cash r (num_sub (cash r) amount))
        <$> drop next_row_idx df).

(** The four assignments of an executed buy.  The loop calls it with
    [row_idx] a row of the frame other than the last, so both rows
    exist; the last branch is never taken. *)
Definition execute_buy (drop_multiplier : Z) (df : list PlanRow)
    (row_idx : nat) : list PlanRow :=
  let next_row_idx := S row_idx in
  match (df !! row_idx : option PlanRow),
        (df !! next_row_idx : option PlanRow) with
  | Some trigger, Some next =>
      let percent :=
        Qcmin 1 <$> num_mul (percent_drop trigger)
                      (Some (Qc_of_Z drop_multiplier)) in
      let amount := num_mul (cash next) percent in
      subtract_cash_from next_row_idx amount
        (<[next_row_idx := mk_plan_row next true percent amount (cash next)]> df)
  | _, _ => df
  end.

Definition drop_step (mode : string) (waiting_days drop_multiplier : Z)
    (st : list PlanRow * Z) (row_idx : nat) : list PlanRow * Z :=
  match decide_trigger mode waiting_days st.1 st.2 row_idx with
  | Execute => (execute_buy drop_multiplier st.1 row_idx, Z.of_nat row_idx)
  | Suppressed | Ineligible => st
  end.

Definition drop_loop (mode : string) (waiting_days drop_multiplier : Z)
    (triggers : list nat) (st : list PlanRow * Z) : list PlanRow * Z :=
  fold_left (drop_step mode waiting_days drop_multiplier) triggers st.

Definition create_drop_threshold_investment_plan (df : list PlanRow)
    (mode : string) (perc_drop_threshold : Qc)
    (waiting_days drop_multiplier : pynumber) : result (list PlanRow) :=
  _ ← py_assert
        (bool_decide (0 ≤ perc_drop_threshold)
         && bool_decide (perc_drop_threshold ≤ 1))
        "perc_drop_threshold must be within [0, 1.0]";
  w ← assert_positive_int waiting_days "waiting_days must be an int";
  m ← assert_positive_int drop_multiplier "drop_multiplier must be an int";
  (* last_idx = df.index[-1] *)
  _ ← (if decide (df = []) then Raise IndexError else Ok ());
  Ok (drop_loop mode w m (trigger_rows df perc_drop_threshold) (df, (- w)%Z)).1.

(** ** determine_buy_and_investment_amount *)

Definition modes : list string :=
  ["monthly_invest_strategy"; "markettiming_strategy"; "hybrid_strategy"].

(** The two [fillna(0)] and the [share_amount] column. *)
Definition finalize (r : PlanRow) : PlanRecord :=
  let r' :=
    mk_plan_row r (buy r) (fillna0 (investment_percent r))
      (fillna0 (investment_amount r)) (cash r) in
  mk_plan_record r' (num_div (investment_amount r') (Some (Open r))).

Definition effective_percent (mode : string) (perc_monthly_invest : Qc) : Qc :=
  if decide (mode = "monthly_invest_strategy") then 1
  else if decide (mode = "markettiming_strategy") then 0
  else perc_monthly_invest.

Definition determine_buy_and_investment_amount (df : list CapitalizedRecord)
    (mode : string) (perc_monthly_invest perc_drop_threshold : Qc)
    (waiting_days drop_multiplier : pynumber) : result (list PlanRecord) :=
  _ ← py_assert (bool_decide (mode ∈ modes)) "mode must be one of the values";
  let perc_monthly_invest := effective_percent mode perc_monthly_invest in
  let legs : result (list PlanRow) :=
    if decide (perc_monthly_invest = 1)
    then create_monthly_investment_plan df perc_monthly_invest
    else
      df ← create_monthly_investment_plan df perc_monthly_invest;
      create_drop_threshold_investment_plan df mode perc_drop_threshold
        waiting_days drop_multiplier in
  df ← legs;
  Ok (finalize <$> (df : list PlanRow)).

(** ** create_investment_plan *)

Definition in_horizon (horizon_start horizon_end : datetime) (d : datetime)
  : bool :=
  datetime_le horizon_start d && datetime_le d horizon_end.

(** [df.loc[horizon_start:horizon_end].reset_index()] on a frame indexed
    by increasing dates: both ends are included.  On an index that does
    not increase pandas cuts by position between the two labels, or
    raises a [KeyError] when one is absent; the properties that depend
    on the rows selected are stated for frames that are [date_ordered]. *)
Definition loc_slice (horizon_start horizon_end : datetime) (df : PriceFrame)
  : PriceFrame :=
  match df with
  | Unannotated rows =>
      Unannotated
        (filter (fun r : DailyRecord =>
                   in_horizon horizon_start horizon_end (Date r)) rows)
  | Annotated rows =>
      Annotated
        (filter (fun r : AnnotatedRecord =>
                   in_horizon horizon_start horizon_end (Date r)) rows)
  end.

Definition create_investment_plan (df : PriceFrame) (start_date : datetime)
    (year_start horizon_length : Z) (mode : string) (monthly_savings : Qc)
    (verbose : Z) (perc_monthly_invest perc_drop_threshold : Qc)
    (waiting_days drop_multiplier : pynumber)
  : result (list (datetime * datetime) * list PlanRecord) :=
  h ← get_horizon_start_end start_date year_start horizon_length verbose;
  let df_horizon := loc_slice h.2.1 h.2.2 df in
  df_horizon ← compute_percent_drop df_horizon;
  let investment_plan := assign_available_capital df_horizon monthly_savings in
  investment_plan ←
    determine_buy_and_investment_amount investment_plan mode
      perc_monthly_invest perc_drop_threshold waiting_days drop_multiplier;
  Ok (h.1, investment_plan).

(** ** compute_roi *)

(** The group keys of [groupby('year')], which pandas sorts. *)
Definition year_keys (plan : list PlanRecord) : list Z :=
  merge_sort Z.le (remove_dups ((fun r : PlanRecord => year r) <$> plan)).

(** [investment_plan.groupby('year').<col>.sum()], as the list of its
    values in key order. *)
Definition groupby_year_sum (col : PlanRecord → num) (plan : list PlanRecord)
  : list Qc :=
  (fun y =>
     col_sum (col <$> filter (fun r : PlanRecord => year r = y) plan))
    <$> year_keys plan.

(** [investment_plan.groupby('year').Open.tail(1).values]: the last row
    of every group, in the order of the rows. *)
Fixpoint groupby_year_tail (plan : list PlanRecord) : list PlanRecord :=
  match plan with
  | [] => []
  | r :: plan' =>
      if decide (year r ∈ (fun r : PlanRecord => year r) <$> plan')
      then groupby_year_tail plan'
      else r :: groupby_year_tail plan'
  end.

(** The four results are Series indexed by year; each is returned as
    the list of its (year, value) items.  A Series times an array is
    taken position by position. *)
Definition compute_roi (plan : list PlanRecord)
  : list (Z * Qc) * list (Z * Qc) * list (Z * Qc) * list (Z * num) :=
  let keys := year_keys plan in
  let portfolio_per_year :=
    zip_with Qcmult (cumsum (groupby_year_sum share_amount plan))
      ((fun r : PlanRecord => Open r) <$> groupby_year_tail plan) in
  let amount_invested_per_year :=
    cumsum (groupby_year_sum investment_amount plan) in
  let win_per_year :=
    zip_with Qcminus portfolio_per_year amount_invested_per_year in
  let roi_per_year :=
    zip_with (fun w a => num_div (Some w) (Some a))
      win_per_year amount_invested_per_year in
  (zip keys portfolio_per_year, zip keys amount_invested_per_year,
   zip keys win_per_year, zip keys roi_per_year).

(** ** get_start_and_end_of_history *)

(** The dictionary maps an index to the date string of its first
    quote.  The parser, [datetime.datetime.strptime] with the format
    ['%Y-%m-%d'], is a parameter. *)
Definition get_start_and_end_of_history
    (strptime : string → result datetime) (etf_idx : string)
    (etf_idx_dict : gmap string string) : result (datetime * datetime) :=
  start_date ←
    match etf_idx_dict !! etf_idx with
    | Some s => strptime s
    | None => Ok (mk_datetime 1920 1 1)
    end;
  Ok (start_date, mk_datetime 2020 1 1).

(** ** get_new_xticks_per_year *)

(** [df.groupby('year').Date.first()]: the [Date] of the first row of
    every year, the years in increasing order. *)
Definition groupby_year_first_date (df : list DailyRecord) : list datetime :=
  omap (fun y => Date <$> head (filter (fun r : DailyRecord => year r = y) df))
    (merge_sort Z.le (remove_dups (year <$> df))).

(** The ticks: the first of January before the first year, the first
    date of every year, and the first of January of the two years after
    the last.  [years[0]] on a frame without rows is an [IndexError].
    The years are those of pandas timestamps, so that the formatted
    year always has four digits. *)
Definition get_new_xticks_per_year (df : list DailyRecord)
  : result (list datetime) :=
  let firsts := groupby_year_first_date df in
  let years := dt_year <$> firsts in
  match head years, last years with
  | Some y0, Some yl =>
      Ok ([mk_datetime (y0 - 1) 1 1] ++ firsts
          ++ [mk_datetime (yl + 1) 1 1] ++ [mk_datetime (yl + 2) 1 1])
  | _, _ => Raise IndexError
  end.

(** ** Specification-side notions *)

(** Row [i] opens its (year, month) group: no earlier row has the same
    year and month. *)
Definition first_of_month (df : list DailyRecord) (i : nat) : Prop :=
  ∃ r, df !! i = Some r
       ∧ ∀ j r', (j < i)%nat → df !! j = Some r' →
                 (year r', month r') ≠ (year r, month r).

(** The years of a plan, row by row. *)
Definition years (plan : list PlanRecord) : list Z :=
  (fun r : PlanRecord => year r) <$> plan.

(** Shares bought in the years up to [y]. *)
Definition shares_held_through (plan : list PlanRecord) (y : Z) : Qc :=
  col_sum (share_amount
             <$> filter (fun r : PlanRecord => (year r ≤ y)%Z) plan).

(** Amount invested in the years up to [y]. *)
Definition invested_through (plan : list PlanRecord) (y : Z) : Qc :=
  col_sum ((fun r : PlanRecord => investment_amount r)
             <$> filter (fun r : PlanRecord => (year r ≤ y)%Z) plan).

(** The open price of the last record of year [y]. *)
Definition last_open_of_year (plan : list PlanRecord) (y : Z) : Qc :=
  default 0
    ((fun r : PlanRecord => Open r)
       <$> last (filter (fun r : PlanRecord => year r = y) plan)).

Definition portfolio_value (plan : list PlanRecord) (y : Z) : Qc :=
  shares_held_through plan y * last_open_of_year plan y.

(** The amount invested on the rows up to row [t], the missing cells
    counting for nothing. *)
Definition invested_up_to (amounts : list num) (t : nat) : Qc :=
  col_sum (take (S t) amounts).

(** The accounting identity on a frame: the cash of every row is its
    capital less the amounts invested so far, undefined where the
    capital is. *)
Definition accounted (df : list PlanRow) : Prop :=
  ∀ t (r : PlanRow), df !! t = Some r →
    cash r
    = num_sub (capital r)
        (Some (invested_up_to (investment_amount <$> df) t)).

(** The trigger rows on which the loop executes a buy, in the order of
    the run: the rows whose turn takes the [Execute] branch. *)
Fixpoint executed_triggers (mode : string) (waiting_days drop_multiplier : Z)
    (triggers : list nat) (st : list PlanRow * Z) : list nat :=
  match triggers with
  | [] => []
  | row_idx :: triggers' =>
      let rest :=
        executed_triggers mode waiting_days drop_multiplier triggers'
          (drop_step mode waiting_days drop_multiplier st row_idx) in
      match decide_trigger mode waiting_days st.1 st.2 row_idx with
      | Execute => row_idx :: rest
      | Suppressed | Ineligible => rest
      end
  end.

(** Every index of the list is at least [w] after the one before it,
    the first one after [last]. *)
Fixpoint spaced (w last : Z) (l : list nat) : Prop :=
  match l with
  | [] => True
  | i :: l' => (w ≤ Z.of_nat i - last)%Z ∧ spaced w (Z.of_nat i) l'
  end.

(** The [Date] index of a price frame. *)
Definition frame_dates (df : PriceFrame) : list datetime :=
  match df with
  | Unannotated rows => Date <$> rows
  | Annotated rows => Date <$> (daily <$> rows)
  end.

(** The index increases with the rows (equal dates allowed): the order
    in which the data reader delivers a price frame, and the frames on
    which a label slice of pandas selects by date. *)
Definition date_ordered (dates : list datetime) : Prop :=
  StronglySorted (fun a b => datetime_le a b) dates.

(** The amount on row [t] of a frame, NaN where the frame has no such
    row. *)
Definition amount_at (df : list PlanRow) (t : nat) : num :=
  df !! t ≫= investment_amount.

(** A cash value less the amounts of a list, taken off one after the
    other. *)
Definition less_all (c : num) (amounts : list num) : num :=
  fold_left num_sub amounts c.

(** ** Notions used in the proofs *)

(** The percentage and the amount of a buy triggered by [trigger] and
    executed on [next]. *)
Definition buy_percent (m : Z) (trigger : PlanRow) : num :=
  Qcmin 1 <$> num_mul (percent_drop trigger) (Some (Qc_of_Z m)).
Definition buy_amount (m : Z) (trigger next : PlanRow) : num :=
  num_mul (cash next) (buy_percent m trigger).

(** What the two legs write on a row, the cash apart. *)
Definition leg_cells (r : PlanRow) : bool * num * num :=
  (buy r, investment_percent r, investment_amount r).

(** The row the monthly leg makes of an input row, before the cash is
    assigned, when the buying dates are [buying_time]. *)
Definition monthly_row (perc_monthly_invest c0 : Qc)
    (buying_time : list datetime) (r : CapitalizedRecord) : PlanRow :=
  if decide (Date r ∈ buying_time)
  then mk_plan_row r (bool_decide (0 < perc_monthly_invest))
         (Some perc_monthly_invest) (Some (c0 * perc_monthly_invest)) None
  else mk_plan_row r false (Some 0) (Some 0) None.

(** What the drawdown loop maintains: the accounting identity, and that
    a row after the last execution row carries no amount unless it is a
    buy that the hybrid rule protects. *)
Definition loop_inv (mode : string) (st : list PlanRow * Z) : Prop :=
  accounted st.1
  ∧ ∀ t (r : PlanRow), st.1 !! t = Some r → (st.2 + 1 < Z.of_nat t)%Z →
      investment_amount r = Some 0
      ∨ (mode = "hybrid_strategy" ∧ buy r = true).

(** The sum of a column of finite numbers. *)
Definition Qc_sum (l : list Qc) : Qc := foldr Qcplus 0 l.

(** The cells of a finished row, as fractions in lowest terms. *)
Definition shown (r : PlanRecord)
  : bool * option Q * option Q * option Q :=
  (buy r, num_Q (investment_amount r), num_Q (share_amount r),
   num_Q (cash r)).

(** The price columns of a frame with the percent drop. *)
Definition drop_dailies (df : list DropRecord) : list DailyRecord :=
  (fun r : DropRecord => (r : DailyRecord)) <$> df.

(** The [capital] column right after the merge of
    [assign_available_capital], when no date occurs twice: the savings
    on the first row of a month, NaN elsewhere. *)
Definition capital_input (monthly_savings : Qc) (df : list DropRecord)
  : list num :=
  (fun r : DropRecord =>
     if decide (Date r ∈ groupby_first_date (drop_dailies df))
     then Some monthly_savings else None) <$> df.

(** The invested share of a row is a number between 0 and 1. *)
Definition percent_ok (r : PlanRow) : Prop :=
  ∃ q, investment_percent r = Some q ∧ 0 ≤ q ∧ q ≤ 1.

(** A frame on which the drawdown leg can run without overdrawing: the
    amount and the cash of every row are numbers that are not negative,
    and the cash never falls from a row to a later one. *)
Definition funded (df : list PlanRow) : Prop :=
  (∀ j (r : PlanRow), df !! j = Some r →
     ∃ c a, cash r = Some c ∧ investment_amount r = Some a ∧ 0 ≤ c ∧ 0 ≤ a)
  ∧ ∀ j1 j2 (r1 r2 : PlanRow) c1 c2,
      (j1 ≤ j2)%nat → df !! j1 = Some r1 → df !! j2 = Some r2 →
      cash r1 = Some c1 → cash r2 = Some c2 → c1 ≤ c2.

(** What the drawdown loop maintains on a funded frame [df]: no amount
    and no cash is negative, no cash exceeds the cash the row had in
    [df], and behind the last trigger row the cash still never falls. *)
Definition overdraw_inv (df : list PlanRow) (st : list PlanRow * Z) : Prop :=
  (∀ j (r : PlanRow), st.1 !! j = Some r →
     ∃ (r0 : PlanRow) c0 c a,
       df !! j = Some r0 ∧ cash r0 = Some c0
       ∧ cash r = Some c ∧ investment_amount r = Some a
       ∧ 0 ≤ a ∧ 0 ≤ c ∧ c ≤ c0)
  ∧ ∀ j1 j2 (r1 r2 : PlanRow) c1 c2,
      (st.2 < Z.of_nat j1)%Z → (j1 ≤ j2)%nat →
      st.1 !! j1 = Some r1 → st.1 !! j2 = Some r2 →
      cash r1 = Some c1 → cash r2 = Some c2 → c1 ≤ c2.

(** What the drawdown loop has made of the frame [df] once the buys of
    the trigger rows [ex] are executed: the rows after them carry the
    buys, every cash is the cash of [df] less the amounts bought up to
    its row, and the other cells are those of [df]. *)
Definition buys_accounted (m : Z) (df pl : list PlanRow) (ex : list nat)
  : Prop :=
  length pl = length df
  ∧ capitalized <$> pl = capitalized <$> df
  ∧ (∀ t, (∀ i, i ∈ ex → t ≠ S i) →
       leg_cells <$> pl !! t = leg_cells <$> df !! t)
  ∧ (∀ t (r0 r : PlanRow), df !! t = Some r0 → pl !! t = Some r →
       cash r
       = less_all (cash r0)
           ((fun j => amount_at pl (S j))
              <$> filter (fun j => (S j ≤ t)%nat) ex))
  ∧ ∀ i (trigger next : PlanRow),
      i ∈ ex → df !! i = Some trigger → df !! S i = Some next →
      let percent :=
        Qcmin 1 <$> num_mul (percent_drop trigger) (Some (Qc_of_Z m)) in
      let cash_before :=
        less_all (cash next)
          ((fun j => amount_at pl (S j))
             <$> filter (fun j => (S j ≤ i)%nat) ex) in
      ∃ r : PlanRow,
        pl !! S i = Some r
        ∧ buy r = true
        ∧ investment_percent r = percent
        ∧ investment_amount r = num_mul cash_before percent
        ∧ cash r = num_sub cash_before (num_mul cash_before percent).

(** ** Sample data *)

Definition daily_at (y m d : Z) (open high adj_close : Z) : DailyRecord :=
  mk_daily (mk_datetime y m d) y m
    (Qc_of_Z open) (Qc_of_Z high) (Qc_of_Z adj_close).

Definition drop_at (r : DailyRecord) (pd : num) : DropRecord :=
  mk_drop (mk_annotated r None) pd.

(** A row of a plan on which no leg has bought yet. *)
Definition idle_row (r : DailyRecord) (pd capital : num) : PlanRow :=
  mk_plan_row (mk_capitalized (drop_at r pd) capital)
    false (Some 0) (Some 0) capital.

(** Three trading days of January 2000 with opens 100, 101 and 102. *)
Definition three_days : list DropRecord :=
  [ drop_at (daily_at 2000 1 3 100 100 100) (Some 0);
    drop_at (daily_at 2000 1 4 101 101 101) (Some 0);
    drop_at (daily_at 2000 1 5 102 102 102) (Some 0) ].

(** Three trading days of January 2000, each with a drop of one half. *)
Definition falling_days : list DropRecord :=
  [ drop_at (daily_at 2000 1 3 100 100 50) (Some (Q2Qc (1 # 2)));
    drop_at (daily_at 2000 1 4 50 50 25) (Some (Q2Qc (1 # 2)));
    drop_at (daily_at 2000 1 5 25 25 12) (Some (Q2Qc (1 # 2))) ].

(** Three days whose capital arrives on the third only, with a drop of
    one half on the first. *)
Definition capital_arrives_late : list CapitalizedRecord :=
  [ mk_capitalized
      (drop_at (daily_at 2000 1 3 100 100 50) (Some (Q2Qc (1 # 2)))) None;
    mk_capitalized (drop_at (daily_at 2000 1 4 101 101 101) (Some 0)) None;
    mk_capitalized (drop_at (daily_at 2000 1 5 102 102 102) (Some 0))
      (Some (Qc_of_Z 100)) ].

(** Two days, a drop of one half on the first, 100 in cash. *)
Definition two_idle_days : list PlanRow :=
  [ idle_row (daily_at 2000 1 3 100 100 50) (Some (Q2Qc (1 # 2)))
      (Some (Qc_of_Z 100));
    idle_row (daily_at 2000 1 4 50 50 50) (Some 0) (Some (Qc_of_Z 100)) ].

(** The last day of January, with a drop of one half, and the first day
    of February, on which the monthly leg has bought for 90 out of 200. *)
Definition month_turn : list PlanRow :=
  [ idle_row (daily_at 2000 1 31 100 100 50) (Some (Q2Qc (1 # 2)))
      (Some (Qc_of_Z 100));
    mk_plan_row
      (mk_capitalized (drop_at (daily_at 2000 2 1 50 50 50) (Some 0))
         (Some (Qc_of_Z 200)))
      true (Some (Q2Qc (9 # 10))) (Some (Qc_of_Z 90)) (Some (Qc_of_Z 110)) ].

(** Five days, each with a drop of one half, 100 in cash. *)
Definition five_drops : list PlanRow :=
  (fun d =>
     idle_row (daily_at 2000 1 d 100 100 50) (Some (Q2Qc (1 # 2)))
       (Some (Qc_of_Z 100)))
    <$> [3; 4; 5; 6; 7]%Z.

(** Five days with 100 in cash: a drop of one percent on the first,
    of one half on the others. *)
Definition drops_after_calm : list PlanRow :=
  idle_row (daily_at 2000 1 3 100 100 99) (Some (Q2Qc (1 # 100)))
    (Some (Qc_of_Z 100))
  :: ((fun d =>
         idle_row (daily_at 2000 1 d 100 100 50) (Some (Q2Qc (1 # 2)))
           (Some (Qc_of_Z 100)))
        <$> [4; 5; 6; 7]%Z).

(** A plan of one year: 1000 invested at an open of 10, then a last
    record of the year with an open of 12. *)
Definition year_of_1000_invested : list PlanRecord :=
  [ mk_plan_record
      (mk_plan_row
         (mk_capitalized (drop_at (daily_at 2000 1 3 10 10 10) (Some 0))
            (Some (Qc_of_Z 1000)))
         true (Some 1) (Some (Qc_of_Z 1000)) (Some 0))
      (Some (Qc_of_Z 100));
    mk_plan_record
      (mk_plan_row
         (mk_capitalized (drop_at (daily_at 2000 12 29 12 12 12) (Some 0))
            (Some (Qc_of_Z 1000)))
         false (Some 0) (Some 0) (Some 0))
      (Some 0) ].

(** The last two trading days of January 2000 and the first of
    February. *)
Definition turn_of_month : list DropRecord :=
  [ drop_at (daily_at 2000 1 28 100 100 100) (Some 0);
    drop_at (daily_at 2000 1 31 100 100 100) (Some 0);
    drop_at (daily_at 2000 2 1 100 100 100) (Some 0) ].

(** ** Properties of the horizon *)

Lemma add_years_ok d n :
  is_ok (add_years d n) = true ↔ (1 ≤ dt_year d + n ≤ 9999)%Z.
Proof.
  unfold add_years.
  destruct (1 <=? dt_year d + n)%Z eqn:H1, (dt_year d + n <=? 9999)%Z eqn:H2;
    simpl; try destruct (c_int _); simpl; split; try done; lia.
Qed.

Lemma add_years_eq d n :
  (1 ≤ dt_year d + n ≤ 9999)%Z →
  add_years d n =
  Ok (mk_datetime (dt_year d + n) (dt_month d)
        (Z.min (days_in_month (dt_year d + n) (dt_month d)) (dt_day d))).
Proof.
  intros [H1 H2]. unfold add_years.
  apply Z.leb_le in H1, H2. by rewrite H1, H2.
Qed.

(** C7, as the claim states it, fails: a negative year offset is
    accepted and the horizon simply starts before the series. *)
Lemma negative_year_offset_is_accepted :
  (-1 < 0)%Z
  ∧ get_horizon_start_end (mk_datetime 2000 1 3) (-1) 20 0
    = Ok ([], (mk_datetime 1999 1 3, mk_datetime 2019 1 3)).
Proof. split; [lia | reflexivity]. Qed.

(** C7, amended: [get_horizon_start_end] checks neither the sign of its
    arguments nor the end of the series.  It returns exactly when both
    shifted years lie in the calendar's range 1..9999, and then the
    start is the series start shifted by [year_start] years and the end
    is the start shifted by [horizon_length] years, the day of the month
    clamped to the month's length. *)
Theorem get_horizon_start_end_spec start_date year_start horizon_length verbose :
  let y1 := (dt_year start_date + year_start)%Z in
  let y2 := (y1 + horizon_length)%Z in
  let m := dt_month start_date in
  let d1 := Z.min (days_in_month y1 m) (dt_day start_date) in
  (is_ok (get_horizon_start_end start_date year_start horizon_length verbose)
   = true ↔ (1 ≤ y1 ≤ 9999)%Z ∧ (1 ≤ y2 ≤ 9999)%Z)
  ∧ ∀ out h,
      get_horizon_start_end start_date year_start horizon_length verbose
      = Ok (out, h) →
      h = (mk_datetime y1 m d1,
           mk_datetime y2 m (Z.min (days_in_month y2 m) d1)).
Proof.
  intros y1 y2 m d1. unfold get_horizon_start_end.
  destruct (decide (1 ≤ y1 ≤ 9999)%Z) as [Hy1|Hy1].
  - rewrite (add_years_eq _ _ Hy1). simpl. fold y1 m d1.
    destruct (decide (1 ≤ y2 ≤ 9999)%Z) as [Hy2|Hy2].
    + rewrite add_years_eq by done. simpl. fold y1 m d1 y2.
      split; [done|]. by intros out h [= _ <-].
    + assert (is_ok (add_years (mk_datetime y1 m d1) horizon_length) = false)
        as Hno.
      { apply not_true_is_false. by rewrite add_years_ok. }
      destruct (add_years (mk_datetime y1 m d1) horizon_length);
        [done|]. simpl. split; [|done]. split; [done|]. by intros [_ ?].
  - assert (is_ok (add_years start_date year_start) = false) as Hno.
    { apply not_true_is_false. by rewrite add_years_ok. }
    destruct (add_years start_date year_start); [done|]. simpl.
    split; [|done]. split; [done|]. by intros [? _].
Qed.

Lemma get_horizon_start_end_spec_witness :
  get_horizon_start_end (mk_datetime 1996 2 29) 3 (-2) 1
  = Ok ([(mk_datetime 1999 2 28, mk_datetime 1997 2 28)],
        (mk_datetime 1999 2 28, mk_datetime 1997 2 28))
  ∧ (mk_datetime 1999 2 28, mk_datetime 1997 2 28)
    = (mk_datetime 1999 2 28, mk_datetime 1997 2 28).
Proof.
  split; [reflexivity|].
  exact (proj2 (get_horizon_start_end_spec (mk_datetime 1996 2 29) 3 (-2) 1)
           _ _ eq_refl).
Defined.

(** ** Shapes of the intermediate frames *)

Lemma length_num_cumsum_from acc l : length (num_cumsum_from acc l) = length l.
Proof.
  revert acc. induction l as [|[x|] l IH]; intros acc; simpl; by rewrite ?IH.
Qed.

Lemma length_assign_cash df : length (assign_cash df) = length df.
Proof.
  unfold assign_cash, num_cumsum.
  rewrite length_zip_with_l_eq; [done|].
  by rewrite length_num_cumsum_from, length_fmap.
Qed.

Lemma merge_left_nil_inv {A B} (date : A → datetime) (hit miss : A → B)
    right df :
  merge_left date hit miss right df = [] → df = [].
Proof.
  destruct df as [|r df]; [done|]. unfold merge_left. simpl.
  by destruct (length (filter (λ d, d = date r) right)).
Qed.

(** The monthly leg fails on its percentage, then on a frame without
    any capital, and on nothing else. *)
Lemma create_monthly_investment_plan_cases df p :
  (¬ (0 ≤ p ≤ 1)
   ∧ is_assertion_error (create_monthly_investment_plan df p) = true)
  ∨ (0 ≤ p ≤ 1 ∧ is_ok (first_capital df) = false
     ∧ create_monthly_investment_plan df p = Raise IndexError)
  ∨ (0 ≤ p ≤ 1 ∧ is_ok (first_capital df) = true
     ∧ ∃ plan, create_monthly_investment_plan df p = Ok plan ∧ plan ≠ []).
Proof.
  unfold create_monthly_investment_plan.
  destruct (decide (0 ≤ p)) as [H0|H0], (decide (p ≤ 1)) as [H1|H1];
    rewrite ?(bool_decide_eq_true_2 _ H0), ?(bool_decide_eq_true_2 _ H1),
      ?(bool_decide_eq_false_2 _ H0), ?(bool_decide_eq_false_2 _ H1); simpl;
    try (left; split; [by intros [??] | done]).
  right. destruct (first_capital df) as [c0|e] eqn:Hc; simpl.
  - right. do 2 (split; [done|]). eexists; split; [done|].
    intros Hnil. apply (f_equal length) in Hnil.
    rewrite length_assign_cash in Hnil.
    apply nil_length_inv, merge_left_nil_inv in Hnil.
    by subst.
  - left. do 2 (split; [done|]).
    clear -Hc. induction df as [|r df IH]; simpl in Hc; [by inversion Hc|].
    destruct (capital r); [done|]. by rewrite IH.
Qed.

(** The drawdown leg fails on its three parameters, on an empty frame,
    and on nothing else. *)
Lemma create_drop_threshold_investment_plan_cases df mode thr w m :
  df ≠ [] →
  is_assertion_error
    (create_drop_threshold_investment_plan df mode thr w m) = true
  ↔ ¬ (0 ≤ thr ≤ 1) ∨ positive_int w = None ∨ positive_int m = None.
Proof.
  intros Hne. unfold create_drop_threshold_investment_plan, assert_positive_int.
  destruct (decide (0 ≤ thr)) as [H0|H0], (decide (thr ≤ 1)) as [H1|H1];
    rewrite ?(bool_decide_eq_true_2 _ H0), ?(bool_decide_eq_true_2 _ H1),
      ?(bool_decide_eq_false_2 _ H0), ?(bool_decide_eq_false_2 _ H1); simpl;
    try (split; [intros _; left; by intros [??] | done]).
  destruct (positive_int w) as [wz|]; simpl; [|naive_solver].
  destruct (positive_int m) as [mz|]; simpl; [|naive_solver].
  destruct (decide (df = [])); [done|]. simpl. naive_solver.
Qed.

(** ** Validation (C6) *)

(** C6, as the claim states it, fails: under the monthly strategy an
    out-of-range percentage, an out-of-range threshold, a zero waiting
    period and a float multiplier are all accepted. *)
Lemma monthly_strategy_skips_drawdown_checks :
  is_ok
    (determine_buy_and_investment_amount
       (assign_available_capital three_days (Qc_of_Z 100))
       "monthly_invest_strategy" (Qc_of_Z 9) (Qc_of_Z 35)
       (PyInt 0) (PyFloat 1)) = true.
Proof. vm_compute. reflexivity. Qed.

(** C6, amended: an unknown mode always fails the assertion.  The
    monthly percentage is checked after the mode has overridden it, so
    only the hybrid strategy can fail on it.  The threshold, the waiting
    days and the multiplier are checked by the drawdown leg alone, after
    the monthly leg has run: exactly when the effective monthly percent
    is not 1.0.  The pure monthly strategy never fails an assertion. *)
Theorem validation_points df mode perc_monthly_invest perc_drop_threshold
    waiting_days drop_multiplier :
  let eff := effective_percent mode perc_monthly_invest in
  (is_assertion_error
     (determine_buy_and_investment_amount df mode perc_monthly_invest
        perc_drop_threshold waiting_days drop_multiplier) = true
   ↔ mode ∉ modes
     ∨ (mode = "hybrid_strategy" ∧ ¬ (0 ≤ perc_monthly_invest ≤ 1))
     ∨ (mode ∈ modes ∧ 0 ≤ eff ≤ 1 ∧ eff ≠ 1
        ∧ is_ok (first_capital df) = true
        ∧ (¬ (0 ≤ perc_drop_threshold ≤ 1)
           ∨ positive_int waiting_days = None
           ∨ positive_int drop_multiplier = None)))
  ∧ is_assertion_error
      (determine_buy_and_investment_amount df "monthly_invest_strategy"
         perc_monthly_invest perc_drop_threshold waiting_days drop_multiplier)
    = false.
Proof.
  assert (Hrange : ∀ md, md ∈ modes → ¬ (0 ≤ effective_percent md perc_monthly_invest ≤ 1) →
                         md = "hybrid_strategy" ∧ ¬ (0 ≤ perc_monthly_invest ≤ 1)).
  { intros md Hin Hno. unfold effective_percent in *.
    repeat case_decide; subst.
    - destruct Hno. by split.
    - destruct Hno. by split.
    - split; [|done]. unfold modes in Hin.
      rewrite !elem_of_cons, elem_of_nil in Hin. naive_solver. }
  assert (Hmain : ∀ md,
    is_assertion_error
     (determine_buy_and_investment_amount df md perc_monthly_invest
        perc_drop_threshold waiting_days drop_multiplier) = true
   ↔ md ∉ modes
     ∨ (md = "hybrid_strategy" ∧ ¬ (0 ≤ perc_monthly_invest ≤ 1))
     ∨ (md ∈ modes ∧ 0 ≤ effective_percent md perc_monthly_invest ≤ 1
        ∧ effective_percent md perc_monthly_invest ≠ 1
        ∧ is_ok (first_capital df) = true
        ∧ (¬ (0 ≤ perc_drop_threshold ≤ 1)
           ∨ positive_int waiting_days = None
           ∨ positive_int drop_multiplier = None))).
  { intros md. unfold determine_buy_and_investment_amount.
    destruct (decide (md ∈ modes)) as [Hin|Hin].
    2:{ rewrite (bool_decide_eq_false_2 _ Hin). simpl. naive_solver. }
    rewrite (bool_decide_eq_true_2 _ Hin). simpl.
    set (e := effective_percent md perc_monthly_invest).
    assert (Hhyb : md = "hybrid_strategy" → e = perc_monthly_invest).
    { intros ->. done. }
    destruct (create_monthly_investment_plan_cases df e)
      as [[Hr He]|[(Hr & Hc & He)|(Hr & Hc & plan & He & Hne)]].
    - destruct (Hrange md Hin Hr) as [-> Hp].
      assert (e ≠ 1) as Hn1.
      { intros E. apply Hr. rewrite E. done. }
      destruct (decide (e = 1)); [done|].
      destruct (create_monthly_investment_plan df e) as [?|[]]; try done.
      simpl. naive_solver.
    - rewrite He. destruct (decide (e = 1)); simpl;
        (split; [done|]);
        (intros [?|[[-> ?]|(_&_&?&?&_)]];
         first [done | by rewrite Hhyb in Hr | congruence]).
    - rewrite He. destruct (decide (e = 1)) as [E|E]; simpl.
      + split; [done|].
        intros [?|[[-> ?]|(_&_&?&_)]];
          first [done | by rewrite Hhyb in Hr].
      + pose proof (create_drop_threshold_investment_plan_cases plan md
          perc_drop_threshold waiting_days drop_multiplier Hne) as Hd.
        destruct (create_drop_threshold_investment_plan plan md
          perc_drop_threshold waiting_days drop_multiplier) as [?|[]];
          simpl in *.
        all: split;
          [ first [done | intros _; right; right; repeat (split; [done|]);
                          by apply Hd]
          | intros [?|[[-> ?]|(_&_&_&_&?)]];
            first [done | by rewrite Hhyb in Hr | by apply Hd] ]. }
  split; [apply Hmain|].
  apply not_true_is_false. rewrite Hmain.
  intros [H|[[? _]|(_&_&H&_)]]; [|done|].
  - apply H. unfold modes. rewrite !elem_of_cons. by left.
  - by apply H.
Qed.

(** ** The drawdown leg leaves the input columns alone *)

Lemma length_subtract_cash_from n a df :
  length (subtract_cash_from n a df) = length df.
Proof.
  unfold subtract_cash_from.
  rewrite length_app, length_fmap, length_take, length_drop. lia.
Qed.

Lemma capitalized_subtract_cash_from n a df :
  capitalized <$> subtract_cash_from n a df = capitalized <$> df.
Proof.
  unfold subtract_cash_from.
  rewrite fmap_app, <-list_fmap_compose.
  rewrite <-(take_drop n df) at 3. by rewrite fmap_app.
Qed.

Lemma length_execute_buy m df i : length (execute_buy m df i) = length df.
Proof.
  unfold execute_buy.
  destruct (df !! i : option PlanRow), (df !! S i : option PlanRow); try done.
  by rewrite length_subtract_cash_from, length_insert.
Qed.

Lemma capitalized_execute_buy m df i :
  capitalized <$> execute_buy m df i = capitalized <$> df.
Proof.
  unfold execute_buy.
  destruct (df !! i : option PlanRow) as [t|];
    destruct (df !! S i : option PlanRow) as [n|] eqn:Hn; try done.
  rewrite capitalized_subtract_cash_from, list_fmap_insert. simpl.
  apply list_insert_id. by rewrite list_lookup_fmap, Hn.
Qed.

Lemma drop_step_frame mode w m st i :
  length (drop_step mode w m st i).1 = length st.1
  ∧ capitalized <$> (drop_step mode w m st i).1 = capitalized <$> st.1.
Proof.
  unfold drop_step. destruct (decide_trigger mode w st.1 st.2 i); simpl;
    auto using length_execute_buy, capitalized_execute_buy.
Qed.

Lemma drop_loop_frame mode w m triggers st :
  length (drop_loop mode w m triggers st).1 = length st.1
  ∧ capitalized <$> (drop_loop mode w m triggers st).1 = capitalized <$> st.1.
Proof.
  unfold drop_loop. revert st.
  induction triggers as [|i triggers IH]; intros st; simpl; [done|].
  destruct (IH (drop_step mode w m st i)) as [-> ->].
  apply drop_step_frame.
Qed.

Lemma create_drop_threshold_investment_plan_frame df mode thr w m plan :
  create_drop_threshold_investment_plan df mode thr w m = Ok plan →
  length plan = length df ∧ capitalized <$> plan = capitalized <$> df.
Proof.
  unfold create_drop_threshold_investment_plan, assert_positive_int.
  destruct (py_assert _ _); simpl; [|done].
  destruct (positive_int w); simpl; [|done].
  destruct (positive_int m); simpl; [|done].
  destruct (decide (df = [])); simpl; [done|].
  intros [= <-]. apply (drop_loop_frame _ _ _ _ (df, _)).
Qed.

(** ** Where the rows of a plan come from *)

Lemma elem_of_merge_left {A B} (date : A → datetime) (hit miss : A → B)
    right df x :
  x ∈ merge_left date hit miss right df →
  ∃ r, r ∈ df ∧ (x = hit r ∨ x = miss r).
Proof.
  unfold merge_left. rewrite list_elem_of_bind. intros (r & Hx & Hr).
  exists r. split; [done|].
  destruct (length (filter (λ d, d = date r) right)).
  - apply list_elem_of_singleton in Hx. by right.
  - apply elem_of_replicate_inv in Hx. by left.
Qed.

Lemma elem_of_assign_available_capital df monthly_savings c :
  c ∈ assign_available_capital df monthly_savings → dropped c ∈ df.
Proof.
  unfold assign_available_capital. intros Hc.
  apply elem_of_zip_with in Hc as (r & a & -> & Hr & _). simpl.
  apply list_elem_of_fmap in Hr as ([r' a'] & -> & Hr). simpl.
  apply elem_of_merge_left in Hr as (r0 & Hr0 & [E|E]);
    by inversion E; subst.
Qed.

Lemma elem_of_create_monthly_investment_plan df p plan r :
  create_monthly_investment_plan df p = Ok plan →
  r ∈ plan → capitalized r ∈ df.
Proof.
  unfold create_monthly_investment_plan.
  destruct (py_assert _ _); simpl; [|done].
  destruct (first_capital df) as [c0|]; simpl; [|done].
  intros [= <-] Hr. unfold assign_cash in Hr.
  apply elem_of_zip_with in Hr as (r1 & cs & -> & Hr & _). simpl.
  apply elem_of_merge_left in Hr as (r0 & Hr0 & [E|E]); by subst.
Qed.

Lemma elem_of_determine_buy_and_investment_amount df mode p thr w m plan
    (r : PlanRecord) :
  determine_buy_and_investment_amount df mode p thr w m = Ok plan →
  r ∈ plan → capitalized r ∈ df.
Proof.
  unfold determine_buy_and_investment_amount.
  destruct (py_assert _ _); simpl; [|done].
  set (e := effective_percent mode p).
  assert (∀ legs : list PlanRow,
    (∀ x, x ∈ legs → capitalized x ∈ df) →
    r ∈ finalize <$> legs → capitalized r ∈ df) as Hfin.
  { intros legs Hl Hr. apply list_elem_of_fmap in Hr as (x & -> & Hx).
    simpl. by apply Hl. }
  destruct (decide (e = 1)).
  - destruct (create_monthly_investment_plan df e) as [pl|] eqn:Hm;
      simpl; [|done].
    intros [= <-]. apply Hfin. intros x.
    by eapply elem_of_create_monthly_investment_plan.
  - destruct (create_monthly_investment_plan df e) as [pl|] eqn:Hm;
      simpl; [|done].
    destruct (create_drop_threshold_investment_plan pl mode thr w m)
      as [pl'|] eqn:Hd; simpl; [|done].
    intros [= <-]. apply Hfin. intros x Hx.
    apply create_drop_threshold_investment_plan_frame in Hd as [_ Hd].
    apply (list_elem_of_fmap_2 capitalized) in Hx. rewrite Hd in Hx.
    apply list_elem_of_fmap in Hx as (x' & -> & Hx').
    by eapply elem_of_create_monthly_investment_plan.
Qed.

(** ** The moving maximum is an input of the entry point (C10) *)

(** C10: [create_investment_plan] never computes the moving maximum.  On
    a frame without the [moving_max] column it returns no plan at all,
    whatever the strategy; on a frame with the column every row of the
    plan is a row of the input, carries the input's own [moving_max],
    and its [percent_drop] is [1 - AdjClose / moving_max] for that
    value: undefined where the caller's value is missing. *)
Theorem create_investment_plan_reads_moving_max start_date year_start
    horizon_length mode monthly_savings verbose perc_monthly_invest
    perc_drop_threshold waiting_days drop_multiplier :
  (∀ rows,
     is_ok (create_investment_plan (Unannotated rows) start_date year_start
              horizon_length mode monthly_savings verbose perc_monthly_invest
              perc_drop_threshold waiting_days drop_multiplier) = false)
  ∧ (∀ rows out plan (r : PlanRecord),
       create_investment_plan (Annotated rows) start_date year_start
         horizon_length mode monthly_savings verbose perc_monthly_invest
         perc_drop_threshold waiting_days drop_multiplier = Ok (out, plan) →
       r ∈ plan →
       annotated r ∈ rows
       ∧ percent_drop r
         = num_sub (Some 1) (num_div (Some (AdjClose r)) (moving_max r))
       ∧ (moving_max r = None → percent_drop r = None)).
Proof.
  split.
  - intros rows. unfold create_investment_plan.
    by destruct (get_horizon_start_end _ _ _ _).
  - intros rows out plan r. unfold create_investment_plan.
    destruct (get_horizon_start_end _ _ _ _) as [h|]; simpl; [|done].
    destruct (determine_buy_and_investment_amount _ _ _ _ _ _)
      as [pl|] eqn:Hd; simpl; [|done].
    intros [= <- <-] Hr.
    eapply elem_of_determine_buy_and_investment_amount in Hd; [|done].
    apply elem_of_assign_available_capital in Hd.
    apply list_elem_of_fmap in Hd as (ar & Ha & Hin).
    apply list_elem_of_filter in Hin as [_ Hin].
    rewrite Ha. simpl. split; [done|]. split; [done|].
    unfold percent_drop_of. intros ->. done.
Qed.

Lemma create_investment_plan_reads_moving_max_witness :
  match
    create_investment_plan
      (Annotated [mk_annotated (daily_at 2000 1 3 100 100 90)
                    (Some (Qc_of_Z 100))])
      (mk_datetime 2000 1 1) 0 1 "markettiming_strategy" (Qc_of_Z 100) 0
      (Qc_of_Z 0) (Qc_of_Z 0) (PyInt 1) (PyInt 1)
  with
  | Ok (_, plan) =>
      length plan = 1%nat
      ∧ ∀ r : PlanRecord, r ∈ plan →
          percent_drop r
          = num_sub (Some 1) (num_div (Some (AdjClose r)) (moving_max r))
  | Raise _ => False
  end.
Proof.
  destruct (create_investment_plan _ _ _ _ _ _ _ _ _ _ _)
    as [[out plan]|e] eqn:E.
  - split.
    + vm_compute in E. by injection E as _ <-.
    + intros r Hr.
      by destruct (proj2 (create_investment_plan_reads_moving_max
           _ _ _ _ _ _ _ _ _ _) _ _ _ r E Hr) as (_ & ? & _).
  - vm_compute in E. discriminate E.
Defined.

(** ** The leading rows of the moving maximum (C5) *)

Lemma filter_all {A} (P : A → Prop) `{!∀ x, Decision (P x)} (l : list A) :
  Forall P l → filter P l = l.
Proof.
  induction 1 as [|x l Hx _ IH]; [done|].
  by rewrite filter_cons_True, IH.
Qed.

Lemma filter_none {A} (P : A → Prop) `{!∀ x, Decision (P x)} (l : list A) :
  Forall (λ x, ¬ P x) l → filter P l = [].
Proof.
  induction 1 as [|x l Hx _ IH]; [done|].
  by rewrite filter_cons_False.
Qed.













(** ** One turn of the drawdown loop *)

Lemma lookup_subtract_cash_from n a df j :
  subtract_cash_from n a df !! j
  = if decide (j < n)%nat then df !! j
    else (λ r : PlanRow, with_cash r (num_sub (cash r) a)) <$> df !! j.
Proof.
  unfold subtract_cash_from. case_decide as Hj.
  - destruct (decide (j < length df)%nat).
    + rewrite lookup_app_l by (rewrite length_take; lia).
      by apply lookup_take_lt.
    + rewrite !(lookup_ge_None_2 _ j); [done|lia|].
      rewrite length_app, length_fmap, length_take, length_drop. lia.
  - destruct (decide (n ≤ length df)%nat).
    + rewrite lookup_app_r by (rewrite length_take; lia).
      rewrite length_take, list_lookup_fmap, lookup_drop.
      do 2 f_equal. lia.
    + rewrite !(lookup_ge_None_2 _ j); [done|lia|].
      rewrite length_app, length_fmap, length_take, length_drop. lia.
Qed.

Lemma lookup_execute_buy m df i (trigger next : PlanRow) j :
  df !! i = Some trigger →
  df !! S i = Some next →
  execute_buy m df i !! j
  = if decide (j < S i)%nat then df !! j
    else if decide (j = S i) then
      Some (mk_plan_row next true (buy_percent m trigger)
              (buy_amount m trigger next)
              (num_sub (cash next) (buy_amount m trigger next)))
    else (λ r : PlanRow,
            with_cash r (num_sub (cash r) (buy_amount m trigger next)))
           <$> df !! j.
Proof.
  intros Hi Hn. unfold execute_buy. rewrite Hi, Hn.
  fold (buy_percent m trigger). fold (buy_amount m trigger next).
  rewrite lookup_subtract_cash_from.
  assert (S i < length df)%nat by by eapply lookup_lt_Some.
  repeat case_decide; try lia.
  - by rewrite list_lookup_insert_ne by lia.
  - subst j. by rewrite list_lookup_insert_eq by done.
  - by rewrite list_lookup_insert_ne by lia.
Qed.

(** The guard of the loop body, spelled out. *)
Lemma decide_trigger_Execute mode w df last_buy i :
  decide_trigger mode w df last_buy i = Execute
  ↔ (w ≤ Z.of_nat i - last_buy)%Z
    ∧ i ≠ pred (length df)
    ∧ ¬ (mode = "hybrid_strategy" ∧ buy <$> df !! S i = Some true).
Proof.
  unfold decide_trigger.
  repeat (case_bool_decide; simpl); naive_solver.
Qed.

Lemma decide_trigger_Suppressed mode w df last_buy i :
  decide_trigger mode w df last_buy i = Suppressed
  ↔ (w ≤ Z.of_nat i - last_buy)%Z
    ∧ i ≠ pred (length df)
    ∧ mode = "hybrid_strategy" ∧ buy <$> df !! S i = Some true.
Proof.
  unfold decide_trigger.
  repeat (case_bool_decide; simpl); naive_solver.
Qed.

Lemma decide_trigger_Ineligible mode w df last_buy i :
  decide_trigger mode w df last_buy i = Ineligible
  ↔ ¬ ((w ≤ Z.of_nat i - last_buy)%Z ∧ i ≠ pred (length df)).
Proof.
  unfold decide_trigger.
  repeat (case_bool_decide; simpl); naive_solver.
Qed.

(** ** The hybrid rule (C1) *)

Lemma execute_buy_other_rows m df i j :
  j ≠ S i →
  leg_cells <$> execute_buy m df i !! j = leg_cells <$> df !! j.
Proof.
  intros Hj. unfold execute_buy.
  destruct (df !! i : option PlanRow) as [t|] eqn:Hi; [|done].
  destruct (df !! S i : option PlanRow) as [n|] eqn:Hn; [|done].
  rewrite lookup_subtract_cash_from, list_lookup_insert_ne by done.
  case_decide; [done|]. by destruct (df !! j).
Qed.

Lemma drop_step_Suppressed mode w m st i :
  decide_trigger mode w st.1 st.2 i = Suppressed →
  drop_step mode w m st i = st.
Proof. unfold drop_step. by intros ->. Qed.

Lemma drop_step_Ineligible mode w m st i :
  decide_trigger mode w st.1 st.2 i = Ineligible →
  drop_step mode w m st i = st.
Proof. unfold drop_step. by intros ->. Qed.

(** In hybrid mode a row that carries a buy is never written again. *)
Lemma hybrid_step_keeps_buys w m st i j :
  buy <$> st.1 !! j = Some true →
  leg_cells <$> (drop_step "hybrid_strategy" w m st i).1 !! j
  = leg_cells <$> st.1 !! j.
Proof.
  intros Hb. unfold drop_step.
  destruct (decide_trigger _ _ _ _ _) eqn:Hdec; try done. simpl.
  apply decide_trigger_Execute in Hdec as (_ & _ & Hno).
  apply execute_buy_other_rows. intros ->. by apply Hno.
Qed.

Lemma hybrid_loop_keeps_buys w m triggers st j :
  buy <$> st.1 !! j = Some true →
  leg_cells <$> (drop_loop "hybrid_strategy" w m triggers st).1 !! j
  = leg_cells <$> st.1 !! j.
Proof.
  unfold drop_loop. revert st.
  induction triggers as [|i triggers IH]; intros st Hb; simpl; [done|].
  pose proof (hybrid_step_keeps_buys w m st i j Hb) as Hstep.
  rewrite IH; [done|].
  destruct (st.1 !! j) as [r|]; [|done].
  destruct ((drop_step "hybrid_strategy" w m st i).1 !! j) as [r'|];
    [|done].
  simpl in *. injection Hstep as Hr _ _. by rewrite Hr.
Qed.

(** C1: in hybrid mode an eligible trigger whose execution day already
    carries a buy is skipped: the turn leaves the frame and the last-buy
    index as they were, so the skip uses up no waiting period.  Over the
    whole drawdown leg, a day that the monthly leg bought on keeps its
    buy flag, its percentage and its amount: no drawdown contribution is
    ever written on top of a monthly one. *)
Theorem hybrid_skips_monthly_buy_days :
  (∀ w m (df : list PlanRow) last_buy i,
     (w ≤ Z.of_nat i - last_buy)%Z →
     i ≠ pred (length df) →
     buy <$> df !! S i = Some true →
     drop_step "hybrid_strategy" w m (df, last_buy) i = (df, last_buy))
  ∧ (∀ (df plan : list PlanRow) thr w m j (r : PlanRow),
       create_drop_threshold_investment_plan df "hybrid_strategy" thr w m
       = Ok plan →
       df !! j = Some r →
       buy r = true →
       ∃ r' : PlanRow,
         plan !! j = Some r'
         ∧ buy r' = true
         ∧ investment_percent r' = investment_percent r
         ∧ investment_amount r' = investment_amount r).
Proof.
  split.
  - intros w m df last_buy i Hw Hi Hb.
    apply drop_step_Suppressed, decide_trigger_Suppressed. done.
  - intros df plan thr w m j r.
    unfold create_drop_threshold_investment_plan, assert_positive_int.
    destruct (py_assert _ _); simpl; [|done].
    destruct (positive_int w) as [wz|]; simpl; [|done].
    destruct (positive_int m) as [mz|]; simpl; [|done].
    destruct (decide (df = [])); simpl; [done|].
    intros [= <-] Hj Hb.
    pose proof (hybrid_loop_keeps_buys wz mz (trigger_rows df thr)
                  (df, (- wz)%Z) j) as Hkeep.
    simpl in Hkeep. rewrite Hj in Hkeep. simpl in Hkeep.
    rewrite Hb in Hkeep. specialize (Hkeep eq_refl).
    destruct ((drop_loop _ _ _ _ _).1 !! j) as [r'|]; [|done].
    injection Hkeep as H1 H2 H3. exists r'. by rewrite H1, Hb.
Qed.

Lemma hybrid_skips_monthly_buy_days_witness :
  drop_step "hybrid_strategy" 1 1 (month_turn, (-1)%Z) 0
  = (month_turn, (-1)%Z)
  ∧ match
      create_drop_threshold_investment_plan month_turn "hybrid_strategy"
        (Qc_of_Z 0) (PyInt 1) (PyInt 1)
    with
    | Ok plan =>
        ∃ r' : PlanRow,
          plan !! 1%nat = Some r'
          ∧ buy r' = true
          ∧ num_Q (investment_percent r') = Some (9 # 10)%Q
          ∧ num_Q (investment_amount r') = Some (90 # 1)%Q
    | Raise _ => False
    end.
Proof.
  split.
  - apply (proj1 hybrid_skips_monthly_buy_days); [lia|simpl; lia|reflexivity].
  - destruct (create_drop_threshold_investment_plan _ _ _ _ _)
      as [plan|e] eqn:E.
    + destruct (proj2 hybrid_skips_monthly_buy_days month_turn plan _ _ _
                  1%nat _ E eq_refl eq_refl) as (r' & Hr & Hb & Hp & Ha).
      exists r'. rewrite Hp, Ha. repeat split; try done.
    + vm_compute in E. discriminate E.
Defined.

(** ** The waiting period (C2) *)

Lemma drop_step_Execute mode w m st i :
  decide_trigger mode w st.1 st.2 i = Execute →
  drop_step mode w m st i = (execute_buy m st.1 i, Z.of_nat i).
Proof. unfold drop_step. by intros ->. Qed.

Lemma executed_triggers_spaced mode w m triggers st :
  spaced w st.2 (executed_triggers mode w m triggers st).
Proof.
  revert st. induction triggers as [|i triggers IH]; intros st; simpl; [done|].
  destruct (decide_trigger mode w st.1 st.2 i) eqn:Hdec.
  - rewrite drop_step_Ineligible by done. apply IH.
  - rewrite drop_step_Suppressed by done. apply IH.
  - simpl. split.
    + by apply decide_trigger_Execute in Hdec as (? & _).
    + specialize (IH (drop_step mode w m st i)).
      by rewrite (drop_step_Execute _ _ _ _ _ Hdec) in IH |- *.
Qed.

Lemma spaced_after w last l x :
  (0 ≤ w)%Z → spaced w last l → x ∈ l → (w ≤ Z.of_nat x - last)%Z.
Proof.
  intros Hw. revert last. induction l as [|i l IH]; intros last Hs Hx.
  - by apply elem_of_nil in Hx.
  - destruct Hs as [Hi Hs]. apply elem_of_cons in Hx as [->|Hx]; [done|].
    specialize (IH _ Hs Hx). lia.
Qed.

Lemma spaced_pairs w last l p q a b :
  (0 ≤ w)%Z → spaced w last l → (p < q)%nat →
  l !! p = Some a → l !! q = Some b → (w ≤ Z.of_nat b - Z.of_nat a)%Z.
Proof.
  intros Hw. revert last p q.
  induction l as [|i l IH]; intros last p q Hs Hpq Hp Hq; [done|].
  destruct Hs as [_ Hs]. destruct q as [|q]; [lia|]. simpl in Hq.
  destruct p as [|p]; simpl in Hp.
  - injection Hp as ->. eapply spaced_after; [done..|].
    by eapply list_elem_of_lookup_2.
  - eapply (IH _ p q); [done|lia|done..].
Qed.

Lemma drop_loop_last_buy mode w m triggers st :
  (drop_loop mode w m triggers st).2
  = default st.2 (Z.of_nat <$> last (executed_triggers mode w m triggers st)).
Proof.
  unfold drop_loop. revert st.
  induction triggers as [|i triggers IH]; intros st; simpl; [done|].
  rewrite IH. destruct (decide_trigger mode w st.1 st.2 i) eqn:Hdec.
  - by rewrite drop_step_Ineligible.
  - by rewrite drop_step_Suppressed.
  - rewrite (drop_step_Execute _ _ _ _ _ Hdec).
    destruct (executed_triggers _ _ _ _ _) as [|x l] eqn:Hex; [done|].
    rewrite last_cons_cons. simpl.
    destruct (last (x :: l)) eqn:Hl; [done|]. by apply last_None in Hl.
Qed.

(** A buy flag, once set, stays set. *)
Lemma drop_step_keeps_buy mode w m st i j :
  buy <$> st.1 !! j = Some true →
  buy <$> (drop_step mode w m st i).1 !! j = Some true.
Proof.
  intros Hb. unfold drop_step.
  destruct (decide_trigger _ _ _ _ _); try done. simpl.
  destruct (decide (j = S i)) as [->|Hj].
  - destruct (st.1 !! S i) as [n|] eqn:Hn; [|done].
    unfold execute_buy. rewrite Hn.
    destruct (st.1 !! i) as [t|] eqn:Hi; [|by rewrite Hn].
    rewrite lookup_subtract_cash_from, decide_False by lia.
    rewrite list_lookup_insert_eq by by eapply lookup_lt_Some. done.
  - pose proof (execute_buy_other_rows m st.1 i j Hj) as Ho.
    destruct (execute_buy m st.1 i !! j), (st.1 !! j); try done.
    simpl in *. injection Ho as -> _ _. done.
Qed.

Lemma drop_loop_keeps_buy mode w m triggers st j :
  buy <$> st.1 !! j = Some true →
  buy <$> (drop_loop mode w m triggers st).1 !! j = Some true.
Proof.
  unfold drop_loop. revert st.
  induction triggers as [|i triggers IH]; intros st Hb; simpl; [done|].
  by apply IH, drop_step_keeps_buy.
Qed.

Lemma execute_buy_sets_buy m df i :
  (S i < length df)%nat → buy <$> execute_buy m df i !! S i = Some true.
Proof.
  intros Hlt.
  destruct (lookup_lt_is_Some_2 df i) as [t Ht]; [lia|].
  destruct (lookup_lt_is_Some_2 df (S i)) as [n Hn]; [lia|].
  rewrite (lookup_execute_buy m df i t n _ Ht Hn).
  rewrite decide_False by lia. by rewrite decide_True.
Qed.

Lemma executed_triggers_bought mode w m triggers st i :
  Forall (λ t, t < length st.1)%nat triggers →
  i ∈ executed_triggers mode w m triggers st →
  i ∈ triggers
  ∧ buy <$> (drop_loop mode w m triggers st).1 !! S i = Some true.
Proof.
  unfold drop_loop. revert st.
  induction triggers as [|t triggers IH]; intros st Hlt Hi; simpl in *.
  { by apply elem_of_nil in Hi. }
  apply Forall_cons in Hlt as [Ht Hlt].
  assert (Forall (λ t0, t0 < length (drop_step mode w m st t).1)%nat triggers)
    as Hlt'.
  { by rewrite (proj1 (drop_step_frame mode w m st t)). }
  destruct (decide_trigger mode w st.1 st.2 t) eqn:Hdec.
  - destruct (IH _ Hlt' Hi) as [? ?]. split; [by right|done].
  - destruct (IH _ Hlt' Hi) as [? ?]. split; [by right|done].
  - apply elem_of_cons in Hi as [->|Hi].
    + split; [by left|].
      apply (drop_loop_keeps_buy mode w m triggers).
      rewrite (drop_step_Execute _ _ _ _ _ Hdec). simpl.
      apply execute_buy_sets_buy.
      apply decide_trigger_Execute in Hdec as (_ & ? & _). lia.
    + destruct (IH _ Hlt' Hi) as [? ?]. split; [by right|done].
Qed.

Lemma trigger_rows_lt df thr :
  Forall (λ t, t < length df)%nat (trigger_rows df thr).
Proof.
  apply Forall_forall. intros t Ht. unfold trigger_rows in Ht.
  apply list_elem_of_filter in Ht as [_ Ht]. apply elem_of_seq in Ht. lia.
Qed.

Lemma elem_of_trigger_rows df thr i :
  i ∈ trigger_rows df thr
  ↔ ∃ r : PlanRow, df !! i = Some r ∧ num_ge (percent_drop r) thr = true.
Proof.
  unfold trigger_rows. rewrite list_elem_of_filter, elem_of_seq. split.
  - intros [Hr _]. destruct (df !! i) as [r|]; [|done].
    exists r. split; [done|]. by injection Hr.
  - intros (r & Hr & Hge). rewrite Hr. simpl. rewrite Hge.
    split; [done|]. apply lookup_lt_Some in Hr. lia.
Qed.

(** C2: the drawdown leg starts with the last-buy index at
    [-waiting_days].  A turn executes a buy only if the trigger row is at
    least [waiting_days] after the last-buy index, and then the index
    becomes the trigger row (not the execution row); any other turn
    leaves the frame and the index as they were, so at the end the index
    is the last executed trigger.  Hence any two executed
    triggers of a run are at least [waiting_days] apart, every executed
    trigger is a row whose percent drop reaches the threshold and its
    execution row carries a buy in the plan. *)
Theorem waiting_period_between_buys (df plan : list PlanRow) mode thr
    waiting_days drop_multiplier w m :
  positive_int waiting_days = Some w →
  positive_int drop_multiplier = Some m →
  create_drop_threshold_investment_plan df mode thr waiting_days
    drop_multiplier = Ok plan →
  let executed :=
    executed_triggers mode w m (trigger_rows df thr) (df, (- w)%Z) in
  plan = (drop_loop mode w m (trigger_rows df thr) (df, (- w)%Z)).1
  ∧ (drop_loop mode w m (trigger_rows df thr) (df, (- w)%Z)).2
    = default (- w)%Z (Z.of_nat <$> last executed)
  ∧ (∀ p q a b, (p < q)%nat →
       executed !! p = Some a → executed !! q = Some b →
       (w ≤ Z.of_nat b - Z.of_nat a)%Z)
  ∧ (∀ i, i ∈ executed →
       (∃ r : PlanRow, df !! i = Some r ∧ num_ge (percent_drop r) thr = true)
       ∧ buy <$> plan !! S i = Some true)
  ∧ (∀ st i,
       decide_trigger mode w st.1 st.2 i = Execute →
       (w ≤ Z.of_nat i - st.2)%Z
       ∧ (drop_step mode w m st i).2 = Z.of_nat i)
  ∧ (∀ st i,
       decide_trigger mode w st.1 st.2 i ≠ Execute →
       drop_step mode w m st i = st).
Proof.
  intros Hw Hm. unfold create_drop_threshold_investment_plan,
    assert_positive_int. rewrite Hw, Hm.
  destruct (py_assert _ _) as [[]|]; simpl; [|done].
  destruct (decide (df = [])); simpl; [done|].
  intros [= <-]. split; [done|].
  assert (1 ≤ w)%Z as Hw1.
  { destruct waiting_days as [z|]; simpl in Hw; [|done].
    destruct (1 <=? z)%Z eqn:Hz; [|done].
    injection Hw as <-. by apply Z.leb_le. }
  split; [apply (drop_loop_last_buy mode w m _ (df, (- w)%Z))|].
  split; [|split; [|split]].
  - intros p q a b Hpq Ha Hb.
    eapply (spaced_pairs w (- w)%Z); [lia| |done..].
    apply (executed_triggers_spaced mode w m _ (df, (- w)%Z)).
  - intros i Hi.
    destruct (executed_triggers_bought mode w m (trigger_rows df thr)
                (df, (- w)%Z) i) as [Hin Hb]; [apply trigger_rows_lt|done|].
    split; [by apply elem_of_trigger_rows|done].
  - intros st i Hdec. rewrite (drop_step_Execute _ _ _ _ _ Hdec).
    by apply decide_trigger_Execute in Hdec as (? & _).
  - intros st i Hdec. unfold drop_step.
    by destruct (decide_trigger mode w st.1 st.2 i).
Qed.

Lemma waiting_period_between_buys_witness :
  executed_triggers "markettiming_strategy" 2 1
    (trigger_rows five_drops (Qc_of_Z 0)) (five_drops, (-2)%Z)
  = [0; 2]%nat
  ∧ match
      create_drop_threshold_investment_plan five_drops "markettiming_strategy"
        (Qc_of_Z 0) (PyInt 2) (PyInt 1)
    with
    | Ok plan =>
        buy <$> plan = [false; true; false; true; false]
        ∧ ∀ i,
            i ∈ executed_triggers "markettiming_strategy" 2 1
                  (trigger_rows five_drops (Qc_of_Z 0)) (five_drops, (-2)%Z) →
            buy <$> plan !! S i = Some true
    | Raise _ => False
    end.
Proof.
  split; [vm_compute; reflexivity|].
  destruct (create_drop_threshold_investment_plan _ _ _ _ _)
    as [plan|e] eqn:E.
  - split.
    + vm_compute in E. by injection E as <-.
    + intros i Hi.
      by destruct (waiting_period_between_buys five_drops plan
                     "markettiming_strategy" (Qc_of_Z 0) (PyInt 2) (PyInt 1)
                     2 1 eq_refl eq_refl E)
        as (_ & _ & _ & Hex & _); destruct (Hex i Hi).
  - vm_compute in E. discriminate E.
Defined.

(** ** The monthly leg on a frame with unique dates *)

Lemma first_dates_sublist seen df :
  first_dates seen df `sublist_of` (Date <$> df).
Proof.
  revert seen. induction df as [|r df IH]; intros seen; simpl; [done|].
  case_decide.
  - by apply sublist_cons.
  - by apply sublist_skip.
Qed.

Lemma elem_of_first_dates seen df i (r : DailyRecord) :
  NoDup (Date <$> df) →
  df !! i = Some r →
  (Date r ∈ first_dates seen df)
  ↔ ((year r, month r) ∉ seen)
    ∧ ∀ j r', (j < i)%nat → df !! j = Some r' →
              (year r', month r') ≠ (year r, month r).
Proof.
  revert seen i. induction df as [|r0 df IH]; intros seen i Hnd Hi; [done|].
  rewrite fmap_cons in Hnd. apply NoDup_cons in Hnd as [Hr0 Hnd]. simpl.
  destruct i as [|i]; simpl in Hi.
  - injection Hi as ->. case_decide as Hseen.
    + split; [|by intros [? _]]. intros Hin.
      destruct Hr0. eapply elem_of_sublist; [done|apply first_dates_sublist].
    + split; [|by left]. intros _. split; [done|]. intros j r' Hj. lia.
  - assert (Date r ≠ Date r0) as Hne.
    { intros E. apply Hr0. rewrite <-E.
      by eapply list_elem_of_fmap_2, list_elem_of_lookup_2. }
    case_decide as Hseen.
    + rewrite (IH seen i Hnd Hi). split.
      * intros [Hk Hbefore]. split; [done|]. intros [|j] r' Hj Hr'; simpl in Hr'.
        -- injection Hr' as <-. intros E. rewrite E in Hseen. done.
        -- eapply Hbefore; [|done]. lia.
      * intros [Hk Hbefore]. split; [done|]. intros j r' Hj Hr'.
        eapply (Hbefore (S j)); [lia|done].
    + rewrite elem_of_cons, (IH _ i Hnd Hi), not_elem_of_cons. split.
      * intros [?|[[Hk Hs] Hbefore]]; [done|]. split; [done|].
        intros [|j] r' Hj Hr'; simpl in Hr'.
        -- injection Hr' as <-. done.
        -- eapply Hbefore; [|done]. lia.
      * intros [Hk Hbefore]. right. split; [split; [|done]|].
        -- intros E. eapply (Hbefore 0%nat r0); [lia|done|done].
        -- intros j r' Hj Hr'. eapply (Hbefore (S j)); [lia|done].
Qed.

Lemma elem_of_groupby_first_date df i (r : DailyRecord) :
  NoDup (Date <$> df) →
  df !! i = Some r →
  Date r ∈ groupby_first_date df ↔ first_of_month df i.
Proof.
  intros Hnd Hi. unfold groupby_first_date, first_of_month.
  rewrite (elem_of_first_dates [] df i r Hnd Hi). split.
  - intros [_ Hb]. exists r. done.
  - intros (r1 & Hr1 & Hb). rewrite Hi in Hr1. injection Hr1 as <-.
    split; [apply not_elem_of_nil|done].
Qed.

Lemma NoDup_groupby_first_date df :
  NoDup (Date <$> df) → NoDup (groupby_first_date df).
Proof.
  intros Hnd. exact (sublist_NoDup _ _ Hnd (first_dates_sublist [] df)).
Qed.

Lemma count_NoDup (right : list datetime) d :
  NoDup right →
  length (filter (λ d', d' = d) right) = if decide (d ∈ right) then 1%nat else 0%nat.
Proof.
  induction 1 as [|x l Hx Hnd IH]; [done|].
  rewrite filter_cons. destruct (decide (x = d)) as [->|Hne].
  - simpl. rewrite decide_True by by left.
    rewrite IH. by rewrite decide_False.
  - rewrite IH. destruct (decide (d ∈ l)).
    + by rewrite decide_True by by right.
    + rewrite decide_False; [done|]. rewrite not_elem_of_cons. done.
Qed.

(** With at most one right row per date the merge is a map. *)
Lemma merge_left_NoDup {A B} (date : A → datetime) (hit miss : A → B)
    right df :
  NoDup right →
  merge_left date hit miss right df
  = (λ r, if decide (date r ∈ right) then hit r else miss r) <$> df.
Proof.
  intros Hnd. unfold merge_left.
  induction df as [|r df IH]; [done|].
  rewrite bind_cons, fmap_cons, IH, (count_NoDup right (date r) Hnd).
  by case_decide.
Qed.

Lemma create_monthly_investment_plan_NoDup df p plan :
  NoDup (Date <$> dailies df) →
  create_monthly_investment_plan df p = Ok plan →
  ∃ c0,
    first_capital df = Ok c0
    ∧ plan
      = assign_cash
          (monthly_row p c0 (groupby_first_date (dailies df)) <$> df).
Proof.
  intros Hnd. unfold create_monthly_investment_plan.
  destruct (py_assert _ _) as [[]|]; simpl; [|done].
  destruct (first_capital df) as [c0|]; simpl; [|done].
  intros [= <-]. exists c0. split; [done|].
  rewrite merge_left_NoDup by by apply NoDup_groupby_first_date.
  done.
Qed.

Lemma lookup_assign_cash df i :
  assign_cash df !! i
  = (r ← df !! i;
     c ← num_cumsum (investment_amount <$> df) !! i;
     Some (with_cash r (num_sub (capital r) c))).
Proof. unfold assign_cash. by rewrite lookup_zip_with. Qed.

Lemma lookup_assign_cash_cells df i :
  leg_cells <$> assign_cash df !! i = leg_cells <$> df !! i
  ∧ capitalized <$> assign_cash df !! i = capitalized <$> df !! i.
Proof.
  rewrite lookup_assign_cash.
  destruct (df !! i) as [r|] eqn:Hr; simpl; [|done].
  destruct (lookup_lt_is_Some_2 (num_cumsum (investment_amount <$> df)) i)
    as [c ->]; [|done].
  unfold num_cumsum. rewrite length_num_cumsum_from, length_fmap.
  by eapply lookup_lt_Some.
Qed.

(** ** The monthly strategy (C8) *)

(** C8: under the monthly strategy, on a frame with unique dates, the
    plan has one row per input row and buy is true on exactly the rows
    that open a (year, month) group: the first trading day of every
    calendar month and no other day.  On three days of one month with
    opens 100, 101, 102 and monthly savings of 100, the first row has
    buy = true, investment_amount = 100, share_amount = 1 and cash = 0,
    and the two others have buy = false and investment_amount = 0. *)
Theorem monthly_strategy_buys_on_month_starts :
  (∀ df p thr w m plan,
     NoDup (Date <$> dailies df) →
     determine_buy_and_investment_amount df "monthly_invest_strategy"
       p thr w m = Ok plan →
     length plan = length df
     ∧ ∀ i (r : PlanRecord), plan !! i = Some r →
         (buy r = true ↔ first_of_month (dailies df) i))
  ∧ shown
      <$> default []
            (match
               determine_buy_and_investment_amount
                 (assign_available_capital three_days (Qc_of_Z 100))
                 "monthly_invest_strategy" (Q2Qc (9 # 10))
                 (Q2Qc (35 # 1000)) (PyInt 3) (PyInt 9)
             with Ok plan => Some plan | Raise _ => None end)
    = [ (true, Some (100 # 1)%Q, Some (1 # 1)%Q, Some (0 # 1)%Q);
        (false, Some (0 # 1)%Q, Some (0 # 1)%Q, Some (0 # 1)%Q);
        (false, Some (0 # 1)%Q, Some (0 # 1)%Q, Some (0 # 1)%Q) ].
Proof.
  split; [|vm_compute; reflexivity].
  intros df p thr w m plan Hnd.
  unfold determine_buy_and_investment_amount. simpl.
  change (effective_percent "monthly_invest_strategy" p) with (Q2Qc 1).
  destruct (create_monthly_investment_plan df 1) as [pl|] eqn:Hm;
    simpl; [|done].
  intros [= <-].
  apply create_monthly_investment_plan_NoDup in Hm as (c0 & _ & ->);
    [|done].
  split; [by rewrite length_fmap, length_assign_cash, length_fmap|].
  intros i r. rewrite list_lookup_fmap.
  destruct (assign_cash _ !! i) as [pr|] eqn:Hpr; simpl; [|done].
  intros [= <-]. simpl.
  pose proof (proj1 (lookup_assign_cash_cells
    (monthly_row 1 c0 (groupby_first_date (dailies df)) <$> df) i)) as Hc.
  rewrite Hpr, list_lookup_fmap in Hc.
  destruct (df !! i) as [r0|] eqn:Hr0; simpl in Hc; [|done].
  injection Hc as Hb _ _. rewrite Hb.
  assert (dailies df !! i = Some (r0 : DailyRecord)) as Hd.
  { unfold dailies. by rewrite list_lookup_fmap, Hr0. }
  rewrite <-(elem_of_groupby_first_date (dailies df) i r0 Hnd Hd).
  unfold monthly_row. case_decide; simpl; [|done].
  done.
Qed.

Lemma monthly_strategy_buys_on_month_starts_witness :
  let df := assign_available_capital three_days (Qc_of_Z 100) in
  NoDup (Date <$> dailies df)
  ∧ match
      determine_buy_and_investment_amount df "monthly_invest_strategy"
        (Q2Qc (9 # 10)) (Q2Qc (35 # 1000)) (PyInt 3) (PyInt 9)
    with
    | Ok plan =>
        length plan = length df
        ∧ ∀ i (r : PlanRecord), plan !! i = Some r →
            (buy r = true ↔ first_of_month (dailies df) i)
    | Raise _ => False
    end.
Proof.
  intros df.
  assert (NoDup (Date <$> dailies df)) as Hnd.
  { apply (bool_decide_unpack _). vm_compute. exact I. }
  split; [exact Hnd|].
  destruct (determine_buy_and_investment_amount _ _ _ _ _ _)
    as [plan|e] eqn:E.
  - exact (proj1 monthly_strategy_buys_on_month_starts df _ _ _ _ plan Hnd E).
  - vm_compute in E. discriminate E.
Defined.

(** ** Yearly aggregation *)

Lemma remove_dups_strictly_sorted (l : list Z) :
  StronglySorted Z.le l → StronglySorted Z.lt (remove_dups l).
Proof.
  induction 1 as [|x l Hl IH Hx]; simpl; [constructor|].
  case_decide as Hin; [done|]. constructor; [done|].
  apply Forall_forall. intros y Hy.
  apply (proj1 (elem_of_remove_dups _ _)) in Hy.
  rewrite Forall_forall in Hx. specialize (Hx y Hy).
  assert (x ≠ y) by (by intros ->). lia.
Qed.

Lemma strictly_sorted_le (l : list Z) :
  StronglySorted Z.lt l → Sorted Z.le l.
Proof.
  induction 1 as [|x l Hl IH Hx]; constructor; [done|].
  destruct Hx as [|y l' Hy _]; constructor. lia.
Qed.

Lemma year_keys_strictly_sorted plan : StronglySorted Z.lt (year_keys plan).
Proof.
  unfold year_keys.
  set (l := remove_dups _).
  assert (NoDup (merge_sort Z.le l)) as Hnd.
  { rewrite merge_sort_Permutation. apply NoDup_remove_dups. }
  pose proof (StronglySorted_merge_sort Z.le l) as Hs.
  revert Hnd. induction Hs as [|x k Hk IH Hx]; intros Hnd; [constructor|].
  apply NoDup_cons in Hnd as [Hxk Hnd]. constructor; [by apply IH|].
  apply Forall_forall. intros y Hy.
  rewrite Forall_forall in Hx. specialize (Hx y Hy).
  assert (x ≠ y) by (by intros ->). lia.
Qed.

Lemma elem_of_year_keys plan y : y ∈ year_keys plan ↔ y ∈ years plan.
Proof.
  unfold year_keys. by rewrite merge_sort_Permutation, elem_of_remove_dups.
Qed.

(** On a plan ordered by year the sorted keys are the years in the
    order of the rows. *)
Lemma year_keys_sorted plan :
  Sorted Z.le (years plan) → year_keys plan = remove_dups (years plan).
Proof.
  intros Hs. unfold year_keys. apply (Sorted_unique Z.le).
  - apply Sorted_merge_sort. apply _.
  - apply strictly_sorted_le, remove_dups_strictly_sorted.
    by apply Sorted_StronglySorted; [apply _|].
  - apply merge_sort_Permutation.
Qed.

Lemma Qc_sum_cons x l : Qc_sum (x :: l) = x + Qc_sum l.
Proof. done. Qed.

Lemma Qc_sum_zero {A} (l : list A) : Qc_sum ((λ _, 0) <$> l) = 0.
Proof.
  induction l as [|x l IH]; [done|].
  rewrite fmap_cons, Qc_sum_cons, IH. ring.
Qed.

Lemma Qc_sum_plus {A} (f g : A → Qc) (l : list A) :
  Qc_sum ((λ x, f x + g x) <$> l) = Qc_sum (f <$> l) + Qc_sum (g <$> l).
Proof.
  induction l as [|x l IH]; [done|].
  rewrite !fmap_cons, !Qc_sum_cons, IH. ring.
Qed.

Lemma Qc_sum_indicator (x : Z) (c : Qc) (l : list Z) :
  NoDup l →
  Qc_sum ((λ k, if decide (x = k) then c else 0) <$> l)
  = if decide (x ∈ l) then c else 0.
Proof.
  induction 1 as [|k l Hk Hnd IH]; [done|].
  rewrite fmap_cons, Qc_sum_cons, IH.
  destruct (decide (x = k)) as [->|Hne].
  - rewrite decide_False by done. rewrite decide_True by by left. ring.
  - destruct (decide (x ∈ l)).
    + rewrite decide_True by by right. ring.
    + rewrite decide_False; [ring|]. rewrite not_elem_of_cons. done.
Qed.

(** The running sum of the group sums is the sum over the groups so
    far. *)
Lemma cumsum_from_groups (g : Z → Qc) acc (ks : list Z) :
  StronglySorted Z.lt ks →
  cumsum_from acc (g <$> ks)
  = (λ y, acc + Qc_sum (g <$> filter (λ k, (k ≤ y)%Z) ks)) <$> ks.
Proof.
  intros Hs. revert acc.
  induction Hs as [|k ks Hks IH Hk]; intros acc; [done|].
  rewrite !fmap_cons. cbn [cumsum_from]. f_equal.
  - rewrite filter_cons_True by lia.
    rewrite (filter_none (λ k0, (k0 ≤ k)%Z) ks).
    2:{ eapply Forall_impl; [exact Hk|]. simpl. lia. }
    rewrite fmap_cons, Qc_sum_cons. simpl. ring.
  - rewrite IH. apply Forall_fmap_ext_1. eapply Forall_impl; [exact Hk|].
    intros y Hy. simpl. rewrite filter_cons_True by lia.
    rewrite fmap_cons, Qc_sum_cons. ring.
Qed.

Lemma col_sum_cons a l : col_sum (a :: l) = default 0 a + col_sum l.
Proof. done. Qed.

(** The group sums of the years up to [y] add up to the sum over the
    rows of the years up to [y]. *)
Lemma group_sums_through (col : PlanRecord → num) (plan : list PlanRecord)
    (ks : list Z) y :
  NoDup ks →
  (∀ r : PlanRecord, r ∈ plan → year r ∈ ks) →
  Qc_sum
    ((λ k, col_sum (col <$> filter (λ r : PlanRecord, year r = k) plan))
       <$> filter (λ k, (k ≤ y)%Z) ks)
  = col_sum (col <$> filter (λ r : PlanRecord, (year r ≤ y)%Z) plan).
Proof.
  intros Hnd. induction plan as [|r plan IH]; intros Hin.
  { simpl. apply Qc_sum_zero. }
  rewrite (Forall_fmap_ext_1 _
    (λ k, (if decide (year r = k) then default 0 (col r) else 0)
          + col_sum (col <$> filter (λ r0 : PlanRecord, year r0 = k) plan))).
  2:{ apply Forall_forall. intros k _. rewrite filter_cons.
      case_decide; [|ring]. by rewrite fmap_cons, col_sum_cons. }
  rewrite Qc_sum_plus, IH by (intros r' Hr'; apply Hin; by right).
  rewrite Qc_sum_indicator by by apply NoDup_filter.
  rewrite filter_cons.
  destruct (decide (year r ≤ y)%Z) as [Hy|Hy].
  - rewrite decide_True; [by rewrite fmap_cons, col_sum_cons|].
    apply list_elem_of_filter. split; [done|]. apply Hin. by left.
  - rewrite decide_False; [ring|].
    rewrite list_elem_of_filter. by intros [? _].
Qed.

Lemma years_groupby_year_tail plan :
  years (groupby_year_tail plan) = remove_dups (years plan).
Proof.
  induction plan as [|r plan IH]; [done|].
  unfold years in *. simpl.
  destruct (decide (year r ∈ (λ r0 : PlanRecord, year r0) <$> plan)) as [Hin|Hin].
  - by destruct (decide_rel elem_of _ _).
  - destruct (decide_rel elem_of _ _); [done|]. by rewrite fmap_cons, IH.
Qed.

Lemma groupby_year_tail_last plan (r : PlanRecord) :
  r ∈ groupby_year_tail plan →
  last (filter (λ r' : PlanRecord, year r' = year r) plan) = Some r.
Proof.
  induction plan as [|r0 plan IH]; [by intros ?%elem_of_nil|].
  assert (r ∈ groupby_year_tail plan →
          last (filter (λ r' : PlanRecord, year r' = year r) (r0 :: plan))
          = Some r) as Hrest.
  { intros Hr. specialize (IH Hr). rewrite filter_cons.
    destruct (decide (year r0 = year r)); [|done].
    destruct (filter _ plan) as [|x l]; [done|]. by rewrite last_cons_cons. }
  cbn [groupby_year_tail].
  destruct (decide (year r0 ∈ (λ r1 : PlanRecord, year r1) <$> plan))
    as [Hy|Hy]; [done|].
  intros [->|Hin]%elem_of_cons; [|by apply Hrest].
  rewrite filter_cons_True by done.
  rewrite (filter_none _ plan); [done|].
  apply Forall_forall. intros r' Hr' E. apply Hy. rewrite <-E.
  by apply (list_elem_of_fmap_2 (λ r : PlanRecord, year r)).
Qed.

Lemma groupby_year_tail_open plan :
  (λ r : PlanRecord, Open r) <$> groupby_year_tail plan
  = last_open_of_year plan <$> remove_dups (years plan).
Proof.
  rewrite <-years_groupby_year_tail. unfold years.
  rewrite <-list_fmap_compose. apply Forall_fmap_ext_1, Forall_forall.
  intros r Hr. simpl. unfold last_open_of_year.
  by rewrite (groupby_year_tail_last plan r Hr).
Qed.

Lemma zip_with_fmap_same {A B C D} (f : B → C → D) (g : A → B) (h : A → C)
    (l : list A) :
  zip_with f (g <$> l) (h <$> l) = (λ x, f (g x) (h x)) <$> l.
Proof.
  induction l as [|x l IH]; [done|].
  rewrite !fmap_cons. cbn [zip_with]. by rewrite IH.
Qed.

Lemma zip_fmap_same {A B} (g : A → B) (l : list A) :
  zip l (g <$> l) = (λ x, (x, g x)) <$> l.
Proof.
  induction l as [|x l IH]; [done|].
  rewrite !fmap_cons. cbn [zip_with]. by rewrite IH.
Qed.

Lemma cumsum_groupby_year_sum col plan :
  cumsum (groupby_year_sum col plan)
  = (λ y, col_sum (col <$> filter (λ r : PlanRecord, (year r ≤ y)%Z) plan))
      <$> year_keys plan.
Proof.
  unfold cumsum, groupby_year_sum.
  rewrite cumsum_from_groups by apply year_keys_strictly_sorted.
  apply Forall_fmap_ext_1, Forall_forall. intros y _. simpl.
  rewrite group_sums_through; [ring| |].
  - unfold year_keys. rewrite merge_sort_Permutation.
    apply NoDup_remove_dups.
  - intros r Hr. apply elem_of_year_keys.
    by apply (list_elem_of_fmap_2 (λ r : PlanRecord, year r)).
Qed.

(** ** The evaluator (C9) *)

(** C9: on a plan whose rows are ordered by year, the evaluator returns
    for every year of the plan, in order: the portfolio value, which is
    the number of shares bought in the years up to that one times the
    open price of the year's last record; the amount invested in the
    years up to that one; the gain, their difference; and the return,
    the gain divided by the amount invested.  With 1000 invested and a
    portfolio worth 1200 the gain is 200 and the return is 1/5. *)
Theorem compute_roi_spec :
  (∀ plan,
     Sorted Z.le (years plan) →
     let ys := remove_dups (years plan) in
     compute_roi plan
     = ((λ y, (y, portfolio_value plan y)) <$> ys,
        (λ y, (y, invested_through plan y)) <$> ys,
        (λ y, (y, portfolio_value plan y - invested_through plan y)) <$> ys,
        (λ y, (y, num_div
                    (Some (portfolio_value plan y - invested_through plan y))
                    (Some (invested_through plan y)))) <$> ys))
  ∧ (let plan := year_of_1000_invested in
     let '(portfolio, invested, win, roi) := compute_roi plan in
     (prod_map id this <$> portfolio, prod_map id this <$> invested,
      prod_map id this <$> win, prod_map id num_Q <$> roi)
     = ([(2000%Z, (1200 # 1)%Q)], [(2000%Z, (1000 # 1)%Q)],
        [(2000%Z, (200 # 1)%Q)], [(2000%Z, Some (1 # 5)%Q)])).
Proof.
  split; [|vm_compute; reflexivity].
  intros plan Hs ys. unfold compute_roi.
  rewrite !cumsum_groupby_year_sum, groupby_year_tail_open.
  rewrite (year_keys_sorted plan Hs). fold ys.
  rewrite zip_with_fmap_same.
  rewrite (zip_with_fmap_same Qcminus
             (λ y, col_sum (share_amount <$> filter _ plan)
                   * last_open_of_year plan y)).
  rewrite !zip_with_fmap_same, !zip_fmap_same. done.
Qed.

Lemma compute_roi_spec_witness :
  let plan := year_of_1000_invested in
  Sorted Z.le (years plan)
  ∧ compute_roi plan
    = ([(2000%Z, portfolio_value plan 2000)],
       [(2000%Z, invested_through plan 2000)],
       [(2000%Z, portfolio_value plan 2000 - invested_through plan 2000)],
       [(2000%Z,
         num_div (Some (portfolio_value plan 2000 - invested_through plan 2000))
           (Some (invested_through plan 2000)))]).
Proof.
  intros plan.
  assert (Sorted Z.le (years plan)) as Hs.
  { apply (bool_decide_unpack _). vm_compute. exact I. }
  split; [exact Hs|].
  exact (proj1 compute_roi_spec plan Hs).
Defined.

(** ** The accounting identity (C4) *)

(** C4, as the claim states it, fails on a frame whose capital is
    undefined on the day a drawdown buy executes: the amount of that buy
    is NaN, it is taken off the cash of every later day, and the final
    [fillna] turns the amount into 0.  On the third day the capital is
    100 and nothing has been invested, yet the cash is undefined. *)
Lemma cash_lost_after_buy_without_capital :
  match
    determine_buy_and_investment_amount capital_arrives_late
      "markettiming_strategy" (Q2Qc (9 # 10)) (Q2Qc (35 # 1000))
      (PyInt 3) (PyInt 9)
  with
  | Ok plan =>
      (λ r : PlanRecord, num_Q (capital r)) <$> plan
      = [None; None; Some (100 # 1)%Q]
      ∧ shown <$> plan
        = [ (false, Some (0 # 1)%Q, Some (0 # 1)%Q, None);
            (true, Some (0 # 1)%Q, Some (0 # 1)%Q, None);
            (false, Some (0 # 1)%Q, Some (0 # 1)%Q, None) ]
      ∧ ∃ r : PlanRecord,
          plan !! 2%nat = Some r
          ∧ is_Some (capital r)
          ∧ cash r
            ≠ num_sub (capital r)
                (Some (invested_up_to
                         ((λ r : PlanRecord, investment_amount r) <$> plan)
                         2))
  | Raise _ => False
  end.
Proof.
  destruct (determine_buy_and_investment_amount _ _ _ _ _ _)
    as [plan|e] eqn:E; vm_compute in E; [|discriminate E].
  injection E as <-.
  split; [reflexivity|]. split; [reflexivity|].
  eexists. split; [reflexivity|]. split; [by eexists|]. discriminate.
Qed.

Lemma col_sum_nil : col_sum [] = 0.
Proof. done. Qed.

Lemma col_sum_app l1 l2 : col_sum (l1 ++ l2) = col_sum l1 + col_sum l2.
Proof.
  induction l1 as [|a l1 IH].
  - rewrite app_nil_l, col_sum_nil. ring.
  - rewrite <-app_comm_cons, !col_sum_cons, IH. ring.
Qed.

Lemma col_sum_insert l j old new :
  l !! j = Some old →
  col_sum (<[j:=new]> l) = col_sum l - default 0 old + default 0 new.
Proof.
  intros Hj. rewrite insert_take_drop by by eapply lookup_lt_Some.
  rewrite <-(take_drop_middle l j old Hj) at 3.
  rewrite !col_sum_app, !col_sum_cons. ring.
Qed.

Lemma invested_up_to_insert l j t old new :
  l !! j = Some old →
  invested_up_to (<[j:=new]> l) t
  = if decide (j ≤ t)%nat
    then invested_up_to l t - default 0 old + default 0 new
    else invested_up_to l t.
Proof.
  intros Hj. unfold invested_up_to. case_decide.
  - rewrite take_insert_lt by lia. apply col_sum_insert.
    by rewrite lookup_take_lt by lia.
  - by rewrite take_insert_ge by lia.
Qed.

Lemma lookup_num_cumsum_from acc l t :
  Forall is_Some l →
  num_cumsum_from acc l !! t
  = (λ _, Some (acc + col_sum (take (S t) l))) <$> l !! t.
Proof.
  intros Hl. revert acc t.
  induction Hl as [|a l [x ->] _ IH]; intros acc t; [done|].
  cbn [num_cumsum_from]. destruct t as [|t].
  - cbn [lookup list_lookup fmap option_fmap option_map take].
    rewrite take_0, col_sum_cons, col_sum_nil. do 2 f_equal. simpl. ring.
  - cbn [lookup list_lookup]. rewrite IH.
    destruct (l !! t); [|done].
    cbn [fmap option_fmap option_map take].
    rewrite col_sum_cons. do 2 f_equal. simpl. ring.
Qed.

Lemma amounts_assign_cash df :
  investment_amount <$> assign_cash df = investment_amount <$> df.
Proof.
  apply list_eq. intros i. rewrite !list_lookup_fmap.
  pose proof (proj1 (lookup_assign_cash_cells df i)) as Hc.
  destruct (assign_cash df !! i), (df !! i); simpl in *; try done.
  by injection Hc as _ _ ->.
Qed.

Lemma assign_cash_accounted df :
  Forall (λ r : PlanRow, is_Some (investment_amount r)) df →
  accounted (assign_cash df).
Proof.
  intros Hamt t r Hr. rewrite amounts_assign_cash.
  rewrite lookup_assign_cash in Hr.
  destruct (df !! t) as [r0|] eqn:Hr0; simpl in Hr; [|done].
  unfold num_cumsum in Hr. rewrite lookup_num_cumsum_from in Hr.
  2:{ by apply Forall_fmap. }
  rewrite list_lookup_fmap, Hr0 in Hr. simpl in Hr. injection Hr as <-.
  simpl. unfold invested_up_to. do 3 f_equal. ring.
Qed.

Lemma amounts_execute_buy m df i (trigger next : PlanRow) :
  df !! i = Some trigger →
  df !! S i = Some next →
  investment_amount <$> execute_buy m df i
  = <[S i := buy_amount m trigger next]> (investment_amount <$> df).
Proof.
  intros Hi Hn. apply list_eq. intros j.
  rewrite list_lookup_fmap, (lookup_execute_buy m df i trigger next j Hi Hn).
  rewrite list_lookup_insert, length_fmap, list_lookup_fmap.
  pose proof (lookup_lt_Some _ _ _ Hn).
  repeat case_decide; try lia; try done.
  by destruct (df !! j).
Qed.

Lemma drop_step_inv mode w m st i (trigger : PlanRow) :
  (1 ≤ w)%Z →
  st.1 !! i = Some trigger →
  is_Some (percent_drop trigger) →
  (decide_trigger mode w st.1 st.2 i = Execute →
   ∃ c : CapitalizedRecord,
     (capitalized <$> st.1) !! S i = Some c ∧ is_Some (capital c)) →
  loop_inv mode st →
  loop_inv mode (drop_step mode w m st i).
Proof.
  intros Hw Hi [pd Hpd] Hcap [Hacc Hlater]. unfold drop_step.
  destruct (decide_trigger mode w st.1 st.2 i) eqn:Hdec; [done..|].
  destruct (Hcap eq_refl) as (cn & Hcn & [c Hc]). clear Hcap.
  apply decide_trigger_Execute in Hdec as (Hwait & Hlast & Hno).
  destruct st as [df last_buy]. simpl in *.
  rewrite list_lookup_fmap in Hcn.
  destruct (df !! S i) as [next|] eqn:Hn; simpl in Hcn; [|done].
  injection Hcn as <-.
  pose proof (Hacc _ _ Hn) as Hcash.
  assert (investment_amount next = Some 0) as Hzero.
  { assert (last_buy + 1 < Z.of_nat (S i))%Z as Hlt by lia.
    destruct (Hlater _ _ Hn Hlt) as [?|[? ?]]; [done|].
    destruct Hno. split; [done|]. simpl. by f_equal. }
  assert (∃ a, buy_amount m trigger next = Some a) as [a Ha].
  { unfold buy_amount, buy_percent. rewrite Hcash, Hc, Hpd. simpl. eauto. }
  assert (∀ t, invested_up_to (investment_amount <$> execute_buy m df i) t
             = if decide (S i ≤ t)%nat
               then invested_up_to (investment_amount <$> df) t + a
               else invested_up_to (investment_amount <$> df) t) as Hinv.
  { intros t. rewrite (amounts_execute_buy m df i trigger next Hi Hn).
    rewrite (invested_up_to_insert _ _ _ (Some 0)).
    2:{ by rewrite list_lookup_fmap, Hn, <-Hzero. }
    rewrite Ha. case_decide; [|done]. simpl. ring. }
  split.
  - intros t r Hr. simpl in *. rewrite Hinv.
    rewrite (lookup_execute_buy m df i trigger next t Hi Hn) in Hr.
    repeat case_decide; try lia.
    + by apply Hacc.
    + subst t. injection Hr as <-. simpl.
      rewrite Hcash, Hc, Ha. simpl. f_equal. ring.
    + destruct (df !! t) as [r0|] eqn:Hr0; simpl in Hr; [|done].
      injection Hr as <-. simpl.
      rewrite (Hacc _ _ Hr0), Ha.
      destruct (capital r0); simpl; [|done]. f_equal. ring.
  - intros t r Hr Ht. simpl in *.
    rewrite (lookup_execute_buy m df i trigger next t Hi Hn) in Hr.
    repeat case_decide; try lia.
    destruct (df !! t) as [r0|] eqn:Hr0; simpl in Hr; [|done].
    injection Hr as <-. simpl. apply (Hlater t r0 Hr0). lia.
Qed.

Lemma drop_loop_inv mode w m triggers st :
  (1 ≤ w)%Z →
  Forall (λ i, ∃ c : CapitalizedRecord,
                 (capitalized <$> st.1) !! i = Some c
                 ∧ is_Some (percent_drop c)) triggers →
  (∀ i, i ∈ executed_triggers mode w m triggers st →
        ∃ c : CapitalizedRecord,
          (capitalized <$> st.1) !! S i = Some c ∧ is_Some (capital c)) →
  loop_inv mode st →
  loop_inv mode (drop_loop mode w m triggers st).
Proof.
  intros Hw. unfold drop_loop. revert st.
  induction triggers as [|i triggers IH]; intros st Htr Hex Hinv; [done|].
  apply Forall_cons in Htr as [(c & Hc & Hpd) Htr]. simpl in *.
  rewrite list_lookup_fmap in Hc.
  destruct (st.1 !! i) as [trigger|] eqn:Hi; simpl in Hc; [|done].
  injection Hc as <-.
  apply IH.
  - by rewrite (proj2 (drop_step_frame mode w m st i)).
  - intros j Hj. rewrite (proj2 (drop_step_frame mode w m st i)).
    apply Hex. destruct (decide_trigger mode w st.1 st.2 i); try done.
    by right.
  - eapply drop_step_inv; [done..| |done].
    intros Hdec. apply Hex. rewrite Hdec. by left.
Qed.

Lemma monthly_leg_inv df p plan :
  create_monthly_investment_plan df p = Ok plan →
  accounted plan
  ∧ ∀ t (r : PlanRow), plan !! t = Some r →
      investment_amount r = Some 0 ∨ (buy r = true ∧ 0 < p).
Proof.
  unfold create_monthly_investment_plan.
  destruct (py_assert _ _) as [[]|] eqn:Hp; simpl; [|done].
  destruct (first_capital df) as [c0|]; simpl; [|done].
  intros [= <-].
  unfold py_assert in Hp. case_match eqn:Hrange; [clear Hp|done].
  apply andb_true_iff in Hrange as [Hp0 _].
  apply bool_decide_eq_true_1 in Hp0.
  set (merged := merge_left _ _ _ _ _).
  assert (∀ x : PlanRow, x ∈ merged →
            investment_amount x = Some 0
            ∨ (buy x = true ∧ 0 < p
               ∧ investment_amount x = Some (c0 * p))) as Hmerged.
  { intros x Hx. apply elem_of_merge_left in Hx as (r & Hr & [->| ->]); simpl.
    - case_bool_decide as Hlt; [by right|]. left.
      apply Qcnot_lt_le in Hlt.
      rewrite (Qcle_antisym _ _ Hlt Hp0). f_equal. ring.
    - by left. }
  split.
  - apply assign_cash_accounted, Forall_forall. intros x Hx.
    destruct (Hmerged x Hx) as [E|(_ & _ & E)]; by rewrite E.
  - intros t r Hr.
    pose proof (proj1 (lookup_assign_cash_cells merged t)) as Hcells.
    rewrite Hr in Hcells.
    destruct (merged !! t) as [x|] eqn:Hx; simpl in Hcells; [|done].
    injection Hcells as -> _ ->.
    destruct (Hmerged x) as [?|(? & ? & _)]; auto.
    by eapply list_elem_of_lookup_2.
Qed.

Lemma col_sum_fillna0 l : col_sum (fillna0 <$> l) = col_sum l.
Proof.
  induction l as [|a l IH]; [done|].
  rewrite fmap_cons, !col_sum_cons, IH. by destruct a.
Qed.

Lemma amounts_finalize (legs : list PlanRow) :
  (λ r : PlanRecord, investment_amount r) <$> (finalize <$> legs)
  = fillna0 <$> (investment_amount <$> legs).
Proof. rewrite <-!list_fmap_compose. by apply list_fmap_ext. Qed.

Lemma share_amount_finalize (r : PlanRow) :
  Open r ≠ 0 →
  ∃ a s,
    investment_amount (finalize r) = Some a
    ∧ share_amount (finalize r) = Some s
    ∧ s * Open r = a
    ∧ (a = 0 → s = 0).
Proof.
  intros Ho. unfold finalize. simpl.
  destruct (fillna0 (investment_amount r)) as [a|] eqn:Ha.
  2:{ by destruct (investment_amount r). }
  exists a, (a / Open r). simpl. rewrite decide_False by done.
  repeat split.
  - field. done.
  - intros ->. unfold Qcdiv. ring.
Qed.

(** Every finished row is a row of the two legs, finalized. *)
Lemma determine_buy_and_investment_amount_finalized df mode p thr w m plan :
  determine_buy_and_investment_amount df mode p thr w m = Ok plan →
  ∃ legs : list PlanRow, plan = finalize <$> legs.
Proof.
  unfold determine_buy_and_investment_amount.
  destruct (py_assert _ _) as [[]|]; simpl; [|done].
  match goal with
  | |- context [mbind _ ?legs] => destruct legs as [pl|]; simpl; [|done]
  end.
  intros [= <-]. by exists pl.
Qed.

(** The cash identity, in every mode, when the capital is defined on
    every row that carries a buy. *)
Lemma cash_accounting df mode p thr w m plan :
  determine_buy_and_investment_amount df mode p thr w m = Ok plan →
  (∀ t (r : PlanRecord), plan !! t = Some r → buy r = true →
                           is_Some (capital r)) →
  ∀ t (r : PlanRecord), plan !! t = Some r →
    cash r
    = num_sub (capital r)
        (Some (invested_up_to
                 ((λ r : PlanRecord, investment_amount r) <$> plan) t)).
Proof.
  unfold determine_buy_and_investment_amount.
  destruct (py_assert _ _) as [[]|] eqn:Hmode; simpl; [|done].
  assert (mode ∈ modes) as Hin.
  { unfold py_assert in Hmode. case_match eqn:Hin; [|done].
    by apply bool_decide_eq_true_1 in Hin. }
  clear Hmode.
  set (e := effective_percent mode p).
  assert (∀ legs : list PlanRow, accounted legs →
    ∀ t (r : PlanRecord), (finalize <$> legs) !! t = Some r →
      cash r
      = num_sub (capital r)
          (Some (invested_up_to
                   ((λ r : PlanRecord, investment_amount r)
                      <$> (finalize <$> legs)) t))) as Hfin.
  { intros legs Hacc t r. rewrite list_lookup_fmap.
    destruct (legs !! t) as [x|] eqn:Hx; simpl; [|done].
    intros [= <-]. simpl. rewrite (Hacc t x Hx). do 2 f_equal.
    unfold invested_up_to.
    by rewrite amounts_finalize, <-(fmap_take fillna0), col_sum_fillna0. }
  destruct (create_monthly_investment_plan df e) as [pl|] eqn:Hm.
  2:{ by destruct (decide (e = 1)). }
  destruct (monthly_leg_inv df e pl Hm) as [Hacc Hcells].
  destruct (decide (e = 1)) as [He|He]; simpl.
  { intros [= <-] _. by apply Hfin. }
  destruct (create_drop_threshold_investment_plan pl mode thr w m)
    as [pl'|] eqn:Hd; simpl; [|done].
  intros [= <-] Hbuy. apply Hfin.
  unfold create_drop_threshold_investment_plan, assert_positive_int in Hd.
  destruct (py_assert _ _) as [[]|]; simpl in Hd; [|done].
  destruct (positive_int w) as [wz|] eqn:Hw; simpl in Hd; [|done].
  destruct (positive_int m) as [mz|]; simpl in Hd; [|done].
  destruct (decide (pl = [])); simpl in Hd; [done|].
  injection Hd as <-.
  assert (1 ≤ wz)%Z as Hw1.
  { destruct w as [z|]; simpl in Hw; [|done].
    destruct (1 <=? z)%Z eqn:Hz; [|done].
    injection Hw as <-. by apply Z.leb_le. }
  apply (drop_loop_inv mode wz mz (trigger_rows pl thr) (pl, (- wz)%Z) Hw1).
  - apply Forall_forall. intros i Hi. simpl.
    apply elem_of_trigger_rows in Hi as (r & Hr & Hge).
    exists r. rewrite list_lookup_fmap, Hr. split; [done|].
    unfold num_ge in Hge. by destruct (percent_drop r).
  - intros i Hi. simpl.
    destruct (executed_triggers_bought mode wz mz (trigger_rows pl thr)
                (pl, (- wz)%Z) i) as [_ Hb]; [apply trigger_rows_lt|done|].
    pose proof (proj2 (drop_loop_frame mode wz mz (trigger_rows pl thr)
                         (pl, (- wz)%Z))) as Hframe.
    simpl in Hframe. rewrite <-Hframe, list_lookup_fmap.
    destruct ((drop_loop mode wz mz (trigger_rows pl thr) (pl, (- wz)%Z)).1
                !! S i) as [r'|] eqn:Hr'; simpl in Hb; [|done].
    exists r'. split; [done|].
    apply (Hbuy (S i) (finalize r')).
    + by rewrite list_lookup_fmap, Hr'.
    + simpl. by injection Hb.
  - split; [done|]. intros t r Hr _. simpl in Hr.
    destruct (Hcells t r Hr) as [?|[Hb Hlt]]; [by left|]. right.
    split; [|done].
    unfold modes in Hin.
    rewrite !elem_of_cons, elem_of_nil in Hin.
    destruct Hin as [->|[->|[->|[]]]]; [by destruct He| |done].
    by apply Qclt_not_le in Hlt.
Qed.

(** C4, amended: in every mode, when the capital is defined on every
    row of the plan that carries a buy, the cash of every row is its
    capital less the amounts invested up to and including that row
    (and undefined exactly where the capital is), and the shares of a
    row times its open price are the amount invested on it, with no
    shares where nothing is invested. *)
Theorem plan_accounting df mode p thr w m plan :
  determine_buy_and_investment_amount df mode p thr w m = Ok plan →
  (∀ t (r : PlanRecord), plan !! t = Some r → buy r = true →
                           is_Some (capital r)) →
  ∀ t (r : PlanRecord), plan !! t = Some r →
    cash r
    = num_sub (capital r)
        (Some (invested_up_to
                 ((λ r : PlanRecord, investment_amount r) <$> plan) t))
    ∧ (Open r ≠ 0 →
       ∃ a s,
         investment_amount r = Some a
         ∧ share_amount r = Some s
         ∧ s * Open r = a
         ∧ (a = 0 → s = 0)).
Proof.
  intros Hplan Hbuy t r Hr. split.
  - by eapply cash_accounting.
  - intros Ho.
    apply determine_buy_and_investment_amount_finalized in Hplan
      as (legs & ->).
    rewrite list_lookup_fmap in Hr.
    destruct (legs !! t) as [x|]; simpl in Hr; [|done].
    injection Hr as <-.
    destruct (share_amount_finalize x Ho) as (a & s & ?).
    by exists a, s.
Qed.





Lemma plan_accounting_witness :
  match
    determine_buy_and_investment_amount
      (assign_available_capital falling_days (Qc_of_Z 100))
      "markettiming_strategy" (Q2Qc (9 # 10)) (Q2Qc (35 # 1000))
      (PyInt 1) (PyInt 1)
  with
  | Ok plan =>
      shown <$> plan
      = [ (false, Some (0 # 1)%Q, Some (0 # 1)%Q, Some (100 # 1)%Q);
          (true, Some (50 # 1)%Q, Some (1 # 1)%Q, Some (50 # 1)%Q);
          (true, Some (25 # 1)%Q, Some (1 # 1)%Q, Some (25 # 1)%Q) ]
      ∧ ∀ t (r : PlanRecord), plan !! t = Some r →
          cash r
          = num_sub (capital r)
              (Some (invested_up_to
                       ((λ r : PlanRecord, investment_amount r) <$> plan) t))
  | Raise _ => False
  end.
Proof.
  destruct (determine_buy_and_investment_amount _ _ _ _ _ _)
    as [plan|e] eqn:E.
  - assert (∀ t (r : PlanRecord), plan !! t = Some r → buy r = true →
              is_Some (capital r)) as Hbuy.
    { pose proof E as E'. vm_compute in E'. injection E' as <-.
      intros [|[|[|t]]] r Hr _; simpl in Hr; [..|done];
        injection Hr as <-; by eexists. }
    split.
    + pose proof E as E'. vm_compute in E'. by injection E' as <-.
    + intros t r Hr.
      exact (proj1 (plan_accounting _ _ _ _ _ _ plan E Hbuy t r Hr)).
  - vm_compute in E. discriminate E.
Defined.

(** * Further properties of the library *)

(** ** The moving maximum on every row *)















(** ** The range of the percent drop *)




(** ** The capital column *)

Lemma lookup_ffill_from_num_cumsum_from acc l i :
  ffill_from (Some acc) (num_cumsum_from acc l) !! i
  = (λ _, Some (acc + col_sum (take (S i) l))) <$> l !! i.
Proof.
  revert acc i. induction l as [|[x|] l IH]; intros acc [|i]; try done.
  - simpl. do 2 f_equal. ring.
  - cbn [num_cumsum_from ffill_from lookup list_lookup]. rewrite IH.
    destruct (l !! i); [|done]. simpl. do 2 f_equal.
    ring.
  - simpl. do 2 f_equal. ring.
  - cbn [num_cumsum_from ffill_from lookup list_lookup]. rewrite IH.
    destruct (l !! i); [|done]. simpl. do 2 f_equal.
    ring.
Qed.

(** The running sum, filled forward, of a column that starts with a
    number. *)
Lemma lookup_ffill_num_cumsum x l i :
  ffill (num_cumsum (Some x :: l)) !! i
  = (λ _, Some (col_sum (take (S i) (Some x :: l)))) <$> (Some x :: l) !! i.
Proof.
  unfold ffill, num_cumsum. cbn [num_cumsum_from ffill_from].
  destruct i as [|i].
  - simpl. do 2 f_equal. ring.
  - cbn [lookup list_lookup]. rewrite lookup_ffill_from_num_cumsum_from.
    destruct (l !! i); [|done]. simpl. do 2 f_equal. ring.
Qed.

Lemma assign_available_capital_NoDup df monthly_savings :
  NoDup (Date <$> drop_dailies df) →
  assign_available_capital df monthly_savings
  = zip_with mk_capitalized df
      (ffill (num_cumsum (capital_input monthly_savings df))).
Proof.
  intros Hnd. unfold assign_available_capital.
  rewrite merge_left_NoDup by (by apply NoDup_groupby_first_date).
  f_equal.
  - rewrite <-list_fmap_compose. rewrite <-(list_fmap_id df) at 2.
    apply list_fmap_ext. intros _ r _. simpl. by case_decide.
  - do 2 f_equal. rewrite <-list_fmap_compose.
    apply list_fmap_ext. intros _ r _. simpl.
    unfold drop_dailies. by case_decide.
Qed.

(** The first row of a frame opens its month. *)
Lemma capital_input_cons monthly_savings r df :
  ∃ rest, capital_input monthly_savings (r :: df) = Some monthly_savings :: rest.
Proof.
  unfold capital_input. rewrite fmap_cons. eexists.
  rewrite decide_True; [done|].
  unfold drop_dailies, groupby_first_date. rewrite fmap_cons.
  cbn [first_dates]. rewrite decide_False by apply not_elem_of_nil.
  by left.
Qed.

Lemma length_capital_input monthly_savings df :
  length (capital_input monthly_savings df) = length df.
Proof. unfold capital_input. by rewrite length_fmap. Qed.

(** Without a repeated date the capital of a row is the sum of the
    savings that have come in up to it. *)
Lemma lookup_assign_available_capital df monthly_savings i :
  NoDup (Date <$> drop_dailies df) →
  assign_available_capital df monthly_savings !! i
  = (λ r, mk_capitalized r
            (Some (col_sum (take (S i) (capital_input monthly_savings df)))))
      <$> df !! i.
Proof.
  intros Hnd. rewrite assign_available_capital_NoDup by done.
  rewrite lookup_zip_with.
  destruct (df !! i) as [r|] eqn:Hr; [|done]. simpl.
  destruct df as [|r0 df]; [done|].
  pose proof (length_capital_input monthly_savings (r0 :: df)) as Hlen.
  destruct (capital_input_cons monthly_savings r0 df) as [rest Hci].
  rewrite Hci in *. rewrite lookup_ffill_num_cumsum.
  destruct (lookup_lt_is_Some_2 (Some monthly_savings :: rest) i) as [a ->];
    [|done].
  rewrite Hlen. by eapply lookup_lt_Some.
Qed.

Lemma dropped_assign_available_capital df monthly_savings :
  NoDup (Date <$> drop_dailies df) →
  dropped <$> assign_available_capital df monthly_savings = df.
Proof.
  intros Hnd. apply list_eq. intros i.
  rewrite list_lookup_fmap, lookup_assign_available_capital by done.
  by destruct (df !! i).
Qed.

(** X4: on a frame without a repeated date [assign_available_capital]
    keeps the rows as they are, gives the first row the monthly savings
    as its capital, and from one row to the next adds the monthly
    savings when the next row is the first of its (year, month) group
    and leaves the capital unchanged otherwise. *)
Theorem assign_available_capital_steps (df : list DropRecord) monthly_savings :
  NoDup (Date <$> drop_dailies df) →
  let out := assign_available_capital df monthly_savings in
  dropped <$> out = df
  ∧ (∀ r : CapitalizedRecord,
       out !! 0%nat = Some r → capital r = Some monthly_savings)
  ∧ ∀ i (r r' : CapitalizedRecord),
      out !! i = Some r → out !! S i = Some r' →
      ∃ c, capital r = Some c
        ∧ (first_of_month (drop_dailies df) (S i)
           → capital r' = Some (c + monthly_savings))
        ∧ (¬ first_of_month (drop_dailies df) (S i) → capital r' = Some c).
Proof.
  intros Hnd out. split; [by apply dropped_assign_available_capital|]. split.
  - intros r. unfold out. rewrite lookup_assign_available_capital by done.
    destruct df as [|r0 df]; [done|].
    destruct (capital_input_cons monthly_savings r0 df) as [rest ->].
    simpl. intros [= <-]. simpl. f_equal. ring.
  - intros i r r'. unfold out.
    rewrite !lookup_assign_available_capital by done.
    destruct (df !! i) as [d|] eqn:Hd; [|done].
    destruct (df !! S i) as [d'|] eqn:Hd'; [|done]. simpl.
    intros [= <-] [= <-]. simpl. eexists. split; [done|].
    assert (capital_input monthly_savings df !! S i
            = Some (if decide (Date d' ∈ groupby_first_date (drop_dailies df))
                    then Some monthly_savings else None)) as Hci.
    { unfold capital_input. by rewrite list_lookup_fmap, Hd'. }
    rewrite (take_S_r _ (S i) _ Hci), col_sum_app.
    assert (drop_dailies df !! S i = Some (d' : DailyRecord)) as Hday.
    { unfold drop_dailies. by rewrite list_lookup_fmap, Hd'. }
    pose proof (elem_of_groupby_first_date _ _ _ Hnd Hday) as Hiff.
    split; intros Hfirst.
    + rewrite decide_True by by apply Hiff.
      rewrite col_sum_cons, col_sum_nil. simpl. f_equal. ring.
    + rewrite decide_False by (by rewrite Hiff).
      rewrite col_sum_cons, col_sum_nil. simpl. f_equal. ring.
Qed.

Lemma assign_available_capital_steps_witness :
  let df :=
    [ drop_at (daily_at 2000 1 28 100 100 100) (Some 0);
      drop_at (daily_at 2000 1 31 100 100 100) (Some 0);
      drop_at (daily_at 2000 2 1 100 100 100) (Some 0) ] in
  let out := assign_available_capital df (Qc_of_Z 100) in
  (λ r : CapitalizedRecord, num_Q (capital r)) <$> out
  = [Some (100 # 1)%Q; Some (100 # 1)%Q; Some (200 # 1)%Q]
  ∧ dropped <$> out = df.
Proof.
  intros df out. split; [vm_compute; reflexivity|].
  apply (assign_available_capital_steps df (Qc_of_Z 100)).
  vm_compute. repeat (constructor; [rewrite ?elem_of_cons, elem_of_nil; naive_solver|]).
  constructor.
Defined.

(** ** The monthly leg on the capital column *)

Lemma dailies_assign_available_capital df monthly_savings :
  NoDup (Date <$> drop_dailies df) →
  dailies (assign_available_capital df monthly_savings) = drop_dailies df.
Proof.
  intros Hnd.
  pose proof (dropped_assign_available_capital df monthly_savings Hnd) as E.
  unfold dailies, drop_dailies. rewrite <-E at 2.
  by rewrite <-list_fmap_compose.
Qed.

Lemma first_capital_assign_available_capital df monthly_savings c0 :
  NoDup (Date <$> drop_dailies df) →
  first_capital (assign_available_capital df monthly_savings) = Ok c0 →
  c0 = monthly_savings ∧ df ≠ [].
Proof.
  intros Hnd Hc0.
  pose proof (lookup_assign_available_capital df monthly_savings 0 Hnd) as H0.
  destruct df as [|r0 df].
  { rewrite assign_available_capital_NoDup in Hc0 by done. done. }
  split; [|done].
  destruct (capital_input_cons monthly_savings r0 df) as [rest Hci].
  rewrite Hci in H0. simpl in H0.
  destruct (assign_available_capital _ _) as [|a0 A]; [done|].
  simpl in H0. injection H0 as ->. simpl in Hc0. injection Hc0 as <-. ring.
Qed.

Lemma col_sum_scale (l : list num) p :
  col_sum ((λ a, Some (default 0 a * p)) <$> l) = col_sum l * p.
Proof.
  induction l as [|a l IH]; [simpl; ring|].
  rewrite fmap_cons, !col_sum_cons, IH. simpl. ring.
Qed.

Lemma amounts_monthly_leg df monthly_savings p :
  NoDup (Date <$> drop_dailies df) →
  investment_amount
    <$> (monthly_row p monthly_savings (groupby_first_date (drop_dailies df))
           <$> assign_available_capital df monthly_savings)
  = (λ a, Some (default 0 a * p)) <$> capital_input monthly_savings df.
Proof.
  intros Hnd. apply list_eq. intros i.
  rewrite !list_lookup_fmap, lookup_assign_available_capital by done.
  unfold capital_input at 2. rewrite list_lookup_fmap.
  destruct (df !! i) as [d|]; [|done]. simpl.
  unfold monthly_row. simpl. case_decide; simpl; do 2 f_equal; ring.
Qed.

Lemma create_monthly_investment_plan_Ok df p plan :
  create_monthly_investment_plan df p = Ok plan → 0 ≤ p ≤ 1.
Proof.
  intros H.
  destruct (create_monthly_investment_plan_cases df p)
    as [[_ E]|[(_ & _ & E)|(Hp & _)]]; [by rewrite H in E..|done].
Qed.

(** What the monthly leg makes of the frame of
    [assign_available_capital]: on every row the share
    [perc_monthly_invest] of the capital has been invested. *)
Lemma monthly_leg_on_capital (df : list DropRecord) monthly_savings p plan :
  NoDup (Date <$> drop_dailies df) →
  create_monthly_investment_plan
    (assign_available_capital df monthly_savings) p = Ok plan →
  length plan = length df
  ∧ ∀ i (r : PlanRow), plan !! i = Some r →
      ∃ d : DropRecord,
        let c := col_sum (take (S i) (capital_input monthly_savings df)) in
        df !! i = Some d
        ∧ capitalized r = mk_capitalized d (Some c)
        ∧ cash r = Some (c * (1 - p))
        ∧ leg_cells r
          = if decide (Date d ∈ groupby_first_date (drop_dailies df))
            then (bool_decide (0 < p), Some p, Some (monthly_savings * p))
            else (false, Some 0, Some 0).
Proof.
  intros Hnd Hplan.
  apply create_monthly_investment_plan_NoDup in Hplan
    as (c0 & Hc0 & ->); [|by rewrite dailies_assign_available_capital].
  apply first_capital_assign_available_capital in Hc0 as [-> Hne]; [|done].
  rewrite dailies_assign_available_capital by done. split.
  { rewrite length_assign_cash, length_fmap.
    rewrite <-(dropped_assign_available_capital df monthly_savings Hnd) at 2.
    by rewrite length_fmap. }
  intros i r Hr. rewrite lookup_assign_cash in Hr.
  rewrite amounts_monthly_leg in Hr by done.
  rewrite list_lookup_fmap, lookup_assign_available_capital in Hr by done.
  destruct (df !! i) as [d|] eqn:Hd; [|done]. simpl in Hr.
  unfold num_cumsum in Hr. rewrite lookup_num_cumsum_from in Hr.
  2:{ apply Forall_fmap, Forall_true. intros a. by eexists. }
  rewrite list_lookup_fmap in Hr.
  destruct (capital_input monthly_savings df !! i) as [a|] eqn:Ha.
  2:{ apply lookup_ge_None in Ha. rewrite length_capital_input in Ha.
      apply lookup_lt_Some in Hd. lia. }
  simpl in Hr. injection Hr as <-. exists d.
  unfold leg_cells, monthly_row. simpl. split; [done|].
  case_decide; simpl; (split; [done|]); (split; [|done]);
    rewrite <-fmap_take, col_sum_scale; f_equal; ring.
Qed.

(** X5: on a frame without a repeated date the monthly leg, run on the
    capital of [assign_available_capital], invests the share
    [perc_monthly_invest] of every monthly saving on the first row of
    its month and nothing on the other rows, so that the cash of every
    row is the share [1 - perc_monthly_invest] of its capital. *)
Theorem monthly_leg_invests_share (df : list DropRecord) monthly_savings
    perc_monthly_invest plan :
  NoDup (Date <$> drop_dailies df) →
  create_monthly_investment_plan
    (assign_available_capital df monthly_savings) perc_monthly_invest
  = Ok plan →
  length plan = length df
  ∧ ∀ i (r : PlanRow), plan !! i = Some r →
      (∃ c, capital r = Some c ∧ cash r = Some (c * (1 - perc_monthly_invest)))
      ∧ investment_percent r
        = Some (if buy r then perc_monthly_invest else 0)
      ∧ (first_of_month (drop_dailies df) i →
         investment_amount r = Some (monthly_savings * perc_monthly_invest)
         ∧ (buy r = true ↔ 0 < perc_monthly_invest))
      ∧ (¬ first_of_month (drop_dailies df) i →
         investment_amount r = Some 0 ∧ buy r = false).
Proof.
  intros Hnd Hplan.
  destruct (monthly_leg_on_capital df monthly_savings perc_monthly_invest
              plan Hnd Hplan) as [Hlen Hrows].
  split; [done|]. intros i r Hr.
  destruct (Hrows i r Hr) as (d & Hd & Hcap & Hcash & Hcells).
  assert (drop_dailies df !! i = Some (d : DailyRecord)) as Hday.
  { unfold drop_dailies. by rewrite list_lookup_fmap, Hd. }
  pose proof (elem_of_groupby_first_date _ _ _ Hnd Hday) as Hiff.
  unfold leg_cells in Hcells. split.
  { eexists. split; [by rewrite Hcap|done]. }
  case_decide as Hin; injection Hcells as Hb Hp Ha.
  - split.
    { rewrite Hb, Hp. case_bool_decide as Hpos; [done|].
      f_equal. apply Qcnot_lt_le in Hpos.
      apply Qcle_antisym; [done|].
      by apply (create_monthly_investment_plan_Ok _ _ _ Hplan). }
    split; [|by intros []; apply Hiff].
    intros _. split; [done|]. rewrite Hb. by rewrite bool_decide_eq_true.
  - split; [by rewrite Hb, Hp|]. split; [by intros ?%Hiff|done].
Qed.

Lemma monthly_leg_invests_share_witness :
  match
    create_monthly_investment_plan
      (assign_available_capital turn_of_month (Qc_of_Z 100)) (Q2Qc (9 # 10))
  with
  | Ok plan =>
      (λ r : PlanRow, (buy r, num_Q (investment_amount r), num_Q (cash r)))
        <$> plan
      = [ (true, Some (90 # 1)%Q, Some (10 # 1)%Q);
          (false, Some (0 # 1)%Q, Some (10 # 1)%Q);
          (true, Some (90 # 1)%Q, Some (20 # 1)%Q) ]
      ∧ ∀ i (r : PlanRow), plan !! i = Some r →
          ∃ c, capital r = Some c ∧ cash r = Some (c * (1 - Q2Qc (9 # 10)))
  | Raise _ => False
  end.
Proof.
  destruct (create_monthly_investment_plan _ _) as [plan|e] eqn:E.
  - split.
    + pose proof E as E'. vm_compute in E'. by injection E' as <-.
    + intros i r Hr.
      refine (proj1 (proj2 (monthly_leg_invests_share turn_of_month _ _ plan
                              _ E) i r Hr)).
      apply (bool_decide_unpack _). vm_compute. reflexivity.
  - vm_compute in E. discriminate E.
Defined.

(** X6: with the frame of [assign_available_capital] and no repeated
    date, the plan of the monthly savings strategy is fully invested:
    the cash is zero on every row, a buy invests exactly the monthly
    savings, and the other rows invest nothing.  The buys are the first
    rows of the months. *)
Theorem monthly_strategy_fully_invested (df : list DropRecord) monthly_savings
    perc_monthly_invest perc_drop_threshold waiting_days drop_multiplier plan :
  NoDup (Date <$> drop_dailies df) →
  determine_buy_and_investment_amount
    (assign_available_capital df monthly_savings) "monthly_invest_strategy"
    perc_monthly_invest perc_drop_threshold waiting_days drop_multiplier
  = Ok plan →
  length plan = length df
  ∧ ∀ i (r : PlanRecord), plan !! i = Some r →
      cash r = Some 0
      ∧ (buy r = true ↔ first_of_month (drop_dailies df) i)
      ∧ investment_percent r = Some (if buy r then 1 else 0)
      ∧ investment_amount r = Some (if buy r then monthly_savings else 0)
      ∧ (Open r ≠ 0 →
         share_amount r
         = Some ((if buy r then monthly_savings else 0) / Open r)).
Proof.
  intros Hnd. unfold determine_buy_and_investment_amount. simpl.
  change (effective_percent "monthly_invest_strategy" perc_monthly_invest)
    with (Q2Qc 1).
  destruct (create_monthly_investment_plan _ 1) as [legs|] eqn:Hm;
    simpl; [|done].
  intros [= <-].
  destruct (monthly_leg_on_capital df monthly_savings 1 legs Hnd Hm)
    as [Hlen Hrows].
  split; [by rewrite length_fmap|].
  intros i r. rewrite list_lookup_fmap.
  destruct (legs !! i) as [pr|] eqn:Hpr; simpl; [|done].
  intros [= <-].
  destruct (Hrows i pr Hpr) as (d & Hd & Hcap & Hcash & Hcells).
  assert (drop_dailies df !! i = Some (d : DailyRecord)) as Hday.
  { unfold drop_dailies. by rewrite list_lookup_fmap, Hd. }
  rewrite <-(elem_of_groupby_first_date _ _ _ Hnd Hday).
  assert (Date pr = Date d) as HDate by by rewrite Hcap.
  unfold leg_cells in Hcells. simpl.
  split; [rewrite Hcash; f_equal; ring|].
  case_decide as Hin; injection Hcells as Hb Hp Ha;
    rewrite Hb, Hp, Ha, ?HDate; simpl.
  - split; [done|]. split; [done|].
    assert (monthly_savings * 1 = monthly_savings) as -> by ring.
    split; [done|]. intros Hopen. by rewrite decide_False.
  - split; [done|]. split; [done|]. split; [done|].
    intros Hopen. by rewrite decide_False.
Qed.

Lemma monthly_strategy_fully_invested_witness :
  match
    determine_buy_and_investment_amount
      (assign_available_capital turn_of_month (Qc_of_Z 100))
      "monthly_invest_strategy" (Q2Qc (9 # 10)) (Q2Qc (35 # 1000))
      (PyInt 3) (PyInt 9)
  with
  | Ok plan =>
      shown <$> plan
      = [ (true, Some (100 # 1)%Q, Some (1 # 1)%Q, Some (0 # 1)%Q);
          (false, Some (0 # 1)%Q, Some (0 # 1)%Q, Some (0 # 1)%Q);
          (true, Some (100 # 1)%Q, Some (1 # 1)%Q, Some (0 # 1)%Q) ]
      ∧ ∀ i (r : PlanRecord), plan !! i = Some r → cash r = Some 0
  | Raise _ => False
  end.
Proof.
  destruct (determine_buy_and_investment_amount _ _ _ _ _ _)
    as [plan|e] eqn:E.
  - split.
    + pose proof E as E'. vm_compute in E'. by injection E' as <-.
    + intros i r Hr.
      refine (proj1 (proj2 (monthly_strategy_fully_invested turn_of_month
                              _ _ _ _ _ plan _ E) i r Hr)).
      apply (bool_decide_unpack _). vm_compute. reflexivity.
  - vm_compute in E. discriminate E.
Defined.

(** ** Invariants of the drawdown loop *)

(** A property of the loop state that every executed buy preserves
    holds when the loop ends.  The price columns and the capital stay
    as they were at the start. *)
Lemma drop_loop_ind (P : list PlanRow * Z → Prop) mode w m triggers st :
  P st →
  (∀ st' i,
     i ∈ triggers →
     capitalized <$> st'.1 = capitalized <$> st.1 →
     P st' →
     decide_trigger mode w st'.1 st'.2 i = Execute →
     P (execute_buy m st'.1 i, Z.of_nat i)) →
  P (drop_loop mode w m triggers st).
Proof.
  unfold drop_loop. revert st.
  induction triggers as [|i triggers IH]; intros st HP Hstep; [done|].
  simpl. apply IH.
  - unfold drop_step.
    destruct (decide_trigger mode w st.1 st.2 i) eqn:Hdec; try done.
    apply Hstep; [by left|done..].
  - intros st' j Hj Hcap HP' Hdec. apply Hstep; [by right| |done..].
    rewrite Hcap. apply drop_step_frame.
Qed.

(** The arguments that pass the checks of the drawdown leg. *)
Lemma create_drop_threshold_investment_plan_Ok df mode thr w m plan :
  create_drop_threshold_investment_plan df mode thr w m = Ok plan →
  ∃ wz mz,
    positive_int w = Some wz ∧ positive_int m = Some mz
    ∧ (1 ≤ wz)%Z ∧ (1 ≤ mz)%Z ∧ 0 ≤ thr ∧ thr ≤ 1 ∧ df ≠ []
    ∧ plan = (drop_loop mode wz mz (trigger_rows df thr) (df, (- wz)%Z)).1.
Proof.
  unfold create_drop_threshold_investment_plan, assert_positive_int.
  destruct (py_assert _ _) as [[]|] eqn:Hthr; simpl; [|done].
  destruct (positive_int w) as [wz|] eqn:Hw; simpl; [|done].
  destruct (positive_int m) as [mz|] eqn:Hm; simpl; [|done].
  destruct (decide (df = [])); simpl; [done|].
  intros [= <-]. exists wz, mz.
  assert (∀ x z, positive_int x = Some z → (1 ≤ z)%Z) as Hpos.
  { intros [z'|] z; simpl; [|done].
    destruct (1 <=? z')%Z eqn:Hz; [|done].
    intros [= <-]. by apply Z.leb_le. }
  unfold py_assert in Hthr. case_match eqn:Hb; [|done].
  apply andb_prop in Hb as [H0%bool_decide_eq_true_1 H1%bool_decide_eq_true_1].
  repeat split; eauto.
Qed.

Lemma Qcmin_range x : 0 ≤ x → 0 ≤ Qcmin 1 x ∧ Qcmin 1 x ≤ 1.
Proof.
  intros Hx. unfold Qcmin. case_bool_decide as H1.
  - split; [done|apply Qcle_refl].
  - split; [done|]. by apply Qclt_le_weak, Qcnot_le_lt.
Qed.

Lemma Qc_of_Z_nonneg z : (0 ≤ z)%Z → 0 ≤ Qc_of_Z z.
Proof.
  intros Hz. unfold Qcle. simpl. rewrite Qred_correct.
  unfold Qle. simpl. lia.
Qed.

(** The share of the cash that a trigger row asks for. *)
Lemma buy_percent_range m (trigger : PlanRow) thr :
  (1 ≤ m)%Z → 0 ≤ thr →
  num_ge (percent_drop trigger) thr = true →
  ∃ q, buy_percent m trigger = Some q ∧ 0 ≤ q ∧ q ≤ 1.
Proof.
  intros Hm Hthr Hge. unfold buy_percent, num_ge in *.
  destruct (percent_drop trigger) as [pd|]; [|done].
  apply bool_decide_eq_true_1 in Hge. simpl. eexists. split; [done|].
  apply Qcmin_range.
  rewrite <-(Qcmult_0_l (Qc_of_Z m)).
  apply Qcmult_le_compat_r; [by eapply Qcle_trans|].
  apply Qc_of_Z_nonneg. lia.
Qed.

Lemma execute_buy_percent_ok m df i thr :
  (1 ≤ m)%Z → 0 ≤ thr →
  (∃ r : PlanRow, df !! i = Some r ∧ num_ge (percent_drop r) thr = true) →
  Forall percent_ok df →
  Forall percent_ok (execute_buy m df i).
Proof.
  intros Hm Hthr (trigger & Hi & Hge) Hok.
  destruct (df !! S i) as [next|] eqn:Hn.
  2:{ unfold execute_buy. by rewrite Hi, Hn. }
  apply Forall_lookup. intros j r Hr.
  rewrite (lookup_execute_buy m df i trigger next j Hi Hn) in Hr.
  rewrite Forall_lookup in Hok. repeat case_decide.
  - by eapply Hok.
  - injection Hr as <-. unfold percent_ok. simpl.
    by eapply buy_percent_range.
  - destruct (df !! j) as [r0|] eqn:Hr0; simpl in Hr; [|done].
    injection Hr as <-. unfold percent_ok. simpl. by eapply Hok.
Qed.

(** A trigger row keeps its percent drop while the loop runs. *)
Lemma trigger_row_in_state (df : list PlanRow) thr (st : list PlanRow * Z) i :
  i ∈ trigger_rows df thr →
  capitalized <$> st.1 = capitalized <$> df →
  ∃ r : PlanRow, st.1 !! i = Some r ∧ num_ge (percent_drop r) thr = true.
Proof.
  intros (r & Hr & Hge)%elem_of_trigger_rows Hcap.
  assert ((capitalized <$> st.1) !! i = Some (capitalized r)) as Hc.
  { by rewrite Hcap, list_lookup_fmap, Hr. }
  rewrite list_lookup_fmap in Hc.
  destruct (st.1 !! i) as [r'|]; simpl in Hc; [|done].
  injection Hc as Hc. exists r'. split; [done|]. by rewrite Hc.
Qed.

Lemma monthly_leg_percent df p plan :
  create_monthly_investment_plan df p = Ok plan →
  Forall (λ r : PlanRow,
            investment_percent r = Some p ∨ investment_percent r = Some 0)
    plan.
Proof.
  unfold create_monthly_investment_plan.
  destruct (py_assert _ _) as [[]|]; simpl; [|done].
  destruct (first_capital df) as [c0|]; simpl; [|done].
  intros [= <-]. apply Forall_lookup. intros i r Hr.
  set (merged := merge_left _ _ _ _ _) in *.
  pose proof (proj1 (lookup_assign_cash_cells merged i)) as Hc.
  rewrite Hr in Hc.
  destruct (merged !! i) as [x|] eqn:Hx; simpl in Hc; [|done].
  injection Hc as _ -> _.
  apply list_elem_of_lookup_2, elem_of_merge_left in Hx
    as (r0 & _ & [->| ->]); simpl; eauto.
Qed.

(** X7: in every plan that [determine_buy_and_investment_amount]
    returns, whatever the frame and the strategy, the invested share of
    every row is a number between 0 and 1. *)
Theorem investment_percent_range df mode perc_monthly_invest
    perc_drop_threshold waiting_days drop_multiplier plan :
  determine_buy_and_investment_amount df mode perc_monthly_invest
    perc_drop_threshold waiting_days drop_multiplier = Ok plan →
  ∀ r : PlanRecord, r ∈ plan →
    ∃ q, investment_percent r = Some q ∧ 0 ≤ q ∧ q ≤ 1.
Proof.
  unfold determine_buy_and_investment_amount.
  destruct (py_assert _ _) as [[]|]; simpl; [|done].
  set (e := effective_percent mode perc_monthly_invest).
  assert (∀ legs : list PlanRow, Forall percent_ok legs →
    ∀ r : PlanRecord, r ∈ finalize <$> legs →
      ∃ q, investment_percent r = Some q ∧ 0 ≤ q ∧ q ≤ 1) as Hfin.
  { intros legs Hok r (x & -> & Hx)%list_elem_of_fmap.
    rewrite Forall_forall in Hok.
    destruct (Hok x Hx) as (q & Hq & Hrange). exists q. simpl.
    by rewrite Hq. }
  destruct (create_monthly_investment_plan df e) as [pl|] eqn:Hm.
  2:{ by destruct (decide (e = 1)). }
  assert (Forall percent_ok pl) as Hpl.
  { destruct (create_monthly_investment_plan_Ok _ _ _ Hm) as [He0 He1].
    eapply Forall_impl; [exact (monthly_leg_percent _ _ _ Hm)|].
    intros r [Hr|Hr]; eexists; (split; [exact Hr|]); by split. }
  destruct (decide (e = 1)) as [He|He]; simpl.
  { intros [= <-]. by apply Hfin. }
  destruct (create_drop_threshold_investment_plan pl mode _ _ _)
    as [pl'|] eqn:Hd; simpl; [|done].
  intros [= <-]. apply Hfin.
  apply create_drop_threshold_investment_plan_Ok in Hd
    as (wz & mz & _ & _ & Hw & Hmz & Hthr & _ & _ & ->).
  apply (drop_loop_ind (λ st, Forall percent_ok st.1)); [done|].
  intros st' i Hi Hcap Hok _. simpl in *.
  eapply execute_buy_percent_ok; [done..| |done].
  by eapply trigger_row_in_state.
Qed.

Lemma investment_percent_range_witness :
  match
    determine_buy_and_investment_amount
      (assign_available_capital falling_days (Qc_of_Z 100))
      "hybrid_strategy" (Q2Qc (9 # 10)) (Q2Qc (35 # 1000))
      (PyInt 1) (PyInt 9)
  with
  | Ok plan =>
      (λ r : PlanRecord, num_Q (investment_percent r)) <$> plan
      = [Some (9 # 10)%Q; Some (1 # 1)%Q; Some (1 # 1)%Q]
      ∧ ∀ r : PlanRecord, r ∈ plan →
          ∃ q, investment_percent r = Some q ∧ 0 ≤ q ∧ q ≤ 1
  | Raise _ => False
  end.
Proof.
  destruct (determine_buy_and_investment_amount _ _ _ _ _ _)
    as [plan|e] eqn:E.
  - split.
    + pose proof E as E'. vm_compute in E'. by injection E' as <-.
    + exact (investment_percent_range _ _ _ _ _ _ plan E).
  - vm_compute in E. discriminate E.
Defined.

(** ** The rows that the drawdown leg writes *)

Lemma drop_loop_other_rows mode w m triggers st j :
  (∀ i, j = S i → i ∉ triggers) →
  leg_cells <$> (drop_loop mode w m triggers st).1 !! j
  = leg_cells <$> st.1 !! j.
Proof.
  intros Hj.
  apply (drop_loop_ind
           (λ st', leg_cells <$> st'.1 !! j = leg_cells <$> st.1 !! j));
    [done|].
  intros st' i Hi _ IH _. simpl. rewrite <-IH.
  apply execute_buy_other_rows. intros ->. by apply (Hj i).
Qed.

Lemma drawdown_leg_other_rows df mode thr w m plan j :
  create_drop_threshold_investment_plan df mode thr w m = Ok plan →
  (∀ i, j = S i → i ∉ trigger_rows df thr) →
  leg_cells <$> plan !! j = leg_cells <$> df !! j.
Proof.
  intros (wz & mz & _ & _ & _ & _ & _ & _ & _ & ->)
    %create_drop_threshold_investment_plan_Ok Hj.
  by apply (drop_loop_other_rows mode wz mz _ (df, (- wz)%Z)).
Qed.

(** X8: the drawdown leg writes the buy flag, the share and the amount
    only on rows that directly follow a row whose percent drop reaches
    the threshold; every other row, the first one included, keeps the
    three cells it had.  A row that becomes a buy therefore follows
    such a trigger row. *)
Theorem drawdown_leg_writes_after_triggers (df plan : list PlanRow) mode
    perc_drop_threshold waiting_days drop_multiplier :
  create_drop_threshold_investment_plan df mode perc_drop_threshold
    waiting_days drop_multiplier = Ok plan →
  (∀ j,
     (∀ i (trigger : PlanRow), j = S i → df !! i = Some trigger →
        num_ge (percent_drop trigger) perc_drop_threshold = false) →
     leg_cells <$> plan !! j = leg_cells <$> df !! j)
  ∧ ∀ j (r r' : PlanRow),
      df !! j = Some r → plan !! j = Some r' →
      buy r = false → buy r' = true →
      ∃ i (trigger : PlanRow),
        j = S i ∧ df !! i = Some trigger
        ∧ num_ge (percent_drop trigger) perc_drop_threshold = true.
Proof.
  intros Hplan. split.
  - intros j Hj. apply (drawdown_leg_other_rows _ _ _ _ _ _ _ Hplan).
    intros i -> (trigger & Hi & Hge)%elem_of_trigger_rows.
    by rewrite (Hj i trigger eq_refl Hi) in Hge.
  - intros j r r' Hr Hr' Hb Hb'.
    destruct j as [|i].
    { assert (leg_cells <$> plan !! 0%nat = leg_cells <$> df !! 0%nat) as E
        by (by apply (drawdown_leg_other_rows _ _ _ _ _ _ _ Hplan)).
      rewrite Hr, Hr' in E. simpl in E.
      unfold leg_cells in E. rewrite Hb, Hb' in E. by inversion E. }
    destruct (decide (i ∈ trigger_rows df perc_drop_threshold)) as [Hi|Hi].
    { apply elem_of_trigger_rows in Hi as (trigger & Hi & Hge).
      by exists i, trigger. }
    assert (leg_cells <$> plan !! S i = leg_cells <$> df !! S i) as E.
    { apply (drawdown_leg_other_rows _ _ _ _ _ _ _ Hplan).
      by intros ? [= <-]. }
    rewrite Hr, Hr' in E. simpl in E.
    unfold leg_cells in E. rewrite Hb, Hb' in E. by inversion E.
Qed.

Lemma drawdown_leg_writes_after_triggers_witness :
  match
    create_drop_threshold_investment_plan two_idle_days "markettiming_strategy"
      (Q2Qc (35 # 1000)) (PyInt 1) (PyInt 1)
  with
  | Ok plan =>
      buy <$> plan = [false; true]
      ∧ leg_cells <$> plan !! 0%nat = leg_cells <$> two_idle_days !! 0%nat
  | Raise _ => False
  end.
Proof.
  destruct (create_drop_threshold_investment_plan _ _ _ _ _)
    as [plan|e] eqn:E.
  - split.
    + pose proof E as E'. vm_compute in E'. by injection E' as <-.
    + by apply (proj1 (drawdown_leg_writes_after_triggers _ _ _ _ _ _ E)
                  0%nat).
  - vm_compute in E. discriminate E.
Defined.

Lemma monthly_leg_cells df p plan :
  create_monthly_investment_plan df p = Ok plan →
  ∃ c0,
    Forall (λ r : PlanRow,
              leg_cells r = (bool_decide (0 < p), Some p, Some (c0 * p))
              ∨ leg_cells r = (false, Some 0, Some 0))
      plan.
Proof.
  unfold create_monthly_investment_plan.
  destruct (py_assert _ _) as [[]|]; simpl; [|done].
  destruct (first_capital df) as [c0|]; simpl; [|done].
  intros [= <-]. exists c0. apply Forall_lookup. intros i r Hr.
  set (merged := merge_left _ _ _ _ _) in *.
  pose proof (proj1 (lookup_assign_cash_cells merged i)) as Hc.
  rewrite Hr in Hc.
  destruct (merged !! i) as [x|] eqn:Hx; simpl in Hc; [|done].
  assert (leg_cells r = leg_cells x) as -> by congruence.
  apply list_elem_of_lookup_2, elem_of_merge_left in Hx
    as (r0 & _ & [->| ->]); simpl; eauto.
Qed.

(** X9: in a plan of the market timing strategy every buy directly
    follows a row whose percent drop reaches the threshold; the first
    row is never a buy. *)
Theorem markettiming_buys_follow_triggers df perc_monthly_invest
    perc_drop_threshold waiting_days drop_multiplier plan :
  determine_buy_and_investment_amount df "markettiming_strategy"
    perc_monthly_invest perc_drop_threshold waiting_days drop_multiplier
  = Ok plan →
  ∀ j (r : PlanRecord), plan !! j = Some r → buy r = true →
    ∃ i (trigger : PlanRecord),
      j = S i ∧ plan !! i = Some trigger
      ∧ num_ge (percent_drop trigger) perc_drop_threshold = true.
Proof.
  unfold determine_buy_and_investment_amount. simpl.
  change (effective_percent "markettiming_strategy" perc_monthly_invest)
    with (Q2Qc 0).
  destruct (decide (Q2Qc 0 = 1)) as [|_]; [done|].
  destruct (create_monthly_investment_plan df 0) as [pl|] eqn:Hm;
    simpl; [|done].
  destruct (create_drop_threshold_investment_plan pl _ _ _ _)
    as [pl'|] eqn:Hd; simpl; [|done].
  intros [= <-] j r. rewrite list_lookup_fmap.
  destruct (pl' !! j) as [x'|] eqn:Hx'; simpl; [|done].
  intros [= <-]. simpl. intros Hb.
  destruct (create_drop_threshold_investment_plan_frame _ _ _ _ _ _ Hd)
    as [Hlen Hcap].
  destruct (monthly_leg_cells _ _ _ Hm) as [c0 Hcells].
  rewrite Forall_lookup in Hcells.
  assert (∀ (x : PlanRow), pl !! j = Some x → buy x = false) as Hidle.
  { intros x Hx. destruct (Hcells j x Hx) as [E|E]; by injection E. }
  destruct (lookup_lt_is_Some_2 pl j) as [x Hx].
  { rewrite <-Hlen. by eapply lookup_lt_Some. }
  assert (∃ i, j = S i ∧ i ∈ trigger_rows pl perc_drop_threshold)
    as (i & -> & Hi).
  { destruct j as [|i].
    - assert (leg_cells <$> pl' !! 0%nat = leg_cells <$> pl !! 0%nat) as E
        by (by apply (drawdown_leg_other_rows _ _ _ _ _ _ _ Hd)).
      rewrite Hx, Hx' in E. simpl in E. unfold leg_cells in E.
      rewrite Hb, (Hidle x Hx) in E. by inversion E.
    - exists i. split; [done|].
      destruct (decide (i ∈ trigger_rows pl perc_drop_threshold));
        [done|].
      assert (leg_cells <$> pl' !! S i = leg_cells <$> pl !! S i) as E.
      { apply (drawdown_leg_other_rows _ _ _ _ _ _ _ Hd).
        by intros ? [= <-]. }
      rewrite Hx, Hx' in E. simpl in E. unfold leg_cells in E.
      rewrite Hb, (Hidle x Hx) in E. by inversion E. }
  apply elem_of_trigger_rows in Hi as (t & Ht & Hge).
  assert ((capitalized <$> pl') !! i = Some (capitalized t)) as Hc.
  { by rewrite Hcap, list_lookup_fmap, Ht. }
  rewrite list_lookup_fmap in Hc.
  destruct (pl' !! i) as [t'|] eqn:Ht'; simpl in Hc; [|done].
  injection Hc as Hc.
  exists i, (finalize t'). split; [done|].
  rewrite list_lookup_fmap, Ht'. split; [done|]. simpl. by rewrite Hc.
Qed.

Lemma markettiming_buys_follow_triggers_witness :
  match
    determine_buy_and_investment_amount
      (assign_available_capital falling_days (Qc_of_Z 100))
      "markettiming_strategy" (Q2Qc (9 # 10)) (Q2Qc (35 # 1000))
      (PyInt 1) (PyInt 1)
  with
  | Ok plan =>
      (λ r : PlanRecord, buy r) <$> plan = [false; true; true]
      ∧ ∀ j (r : PlanRecord), plan !! j = Some r → buy r = true →
          ∃ i (trigger : PlanRecord),
            j = S i ∧ plan !! i = Some trigger
            ∧ num_ge (percent_drop trigger) (Q2Qc (35 # 1000)) = true
  | Raise _ => False
  end.
Proof.
  destruct (determine_buy_and_investment_amount _ _ _ _ _ _)
    as [plan|e] eqn:E.
  - split.
    + pose proof E as E'. vm_compute in E'. by injection E' as <-.
    + exact (markettiming_buys_follow_triggers _ _ _ _ _ plan E).
  - vm_compute in E. discriminate E.
Defined.

(** ** The drawdown leg never overdraws *)

Lemma Qc_sub_nonneg a c : a ≤ c → 0 ≤ c - a.
Proof. intros H. by apply Qcle_minus_iff in H. Qed.

Lemma Qc_sub_le_mono a c1 c2 : c1 ≤ c2 → c1 - a ≤ c2 - a.
Proof. intros H. apply Qcplus_le_compat; [done|apply Qcle_refl]. Qed.

Lemma Qc_sub_le a c : 0 ≤ a → c - a ≤ c.
Proof.
  intros H. apply Qcle_minus_iff.
  by replace (c + - (c - a)) with a by ring.
Qed.

Lemma Qcmult_nonneg c q : 0 ≤ c → 0 ≤ q → 0 ≤ c * q.
Proof.
  intros Hc Hq. rewrite <-(Qcmult_0_l q). by apply Qcmult_le_compat_r.
Qed.

Lemma Qcmult_le_self c q : 0 ≤ c → q ≤ 1 → c * q ≤ c.
Proof.
  intros Hc Hq. rewrite Qcmult_comm. rewrite <-(Qcmult_1_l c) at 2.
  by apply Qcmult_le_compat_r.
Qed.

(** An executed buy takes a share of the cash of its row from that row
    and from every later one. *)
Lemma execute_buy_overdraw_inv df0 mode w m thr st i :
  (1 ≤ w)%Z → (1 ≤ m)%Z → 0 ≤ thr →
  (∃ r : PlanRow, st.1 !! i = Some r ∧ num_ge (percent_drop r) thr = true) →
  decide_trigger mode w st.1 st.2 i = Execute →
  overdraw_inv df0 st →
  overdraw_inv df0 (execute_buy m st.1 i, Z.of_nat i).
Proof.
  intros Hw Hm Hthr (trigger & Hi & Hge) Hdec [HA HB].
  apply decide_trigger_Execute in Hdec as (Hwait & _ & _).
  destruct st as [df last_buy]. simpl in *.
  destruct (df !! S i) as [next|] eqn:Hn.
  2:{ assert (execute_buy m df i = df) as ->.
      { unfold execute_buy. by rewrite Hi, Hn. }
      split; simpl; [exact HA|].
      intros j1 j2 r1 r2 c1 c2 Hlt. apply HB. lia. }
  destruct (buy_percent_range m trigger thr Hm Hthr Hge)
    as (q & Hq & Hq0 & Hq1).
  destruct (HA _ _ Hn)
    as (n0 & cn0 & cn & an & Hn0 & Hcn0 & Hcn & Han & Han0 & Hcn_0 & Hcn_le).
  assert (buy_amount m trigger next = Some (cn * q)) as Ha.
  { unfold buy_amount. by rewrite Hcn, Hq. }
  pose proof (Qcmult_nonneg cn q Hcn_0 Hq0) as Ha0.
  pose proof (Qcmult_le_self cn q Hcn_0 Hq1) as Ha1.
  set (a := cn * q) in *.
  assert (∀ j (r : PlanRow), (S i ≤ j)%nat →
            execute_buy m df i !! j = Some r →
            ∃ (r' : PlanRow) c' a',
              df !! j = Some r' ∧ cash r' = Some c' ∧ cn ≤ c'
              ∧ cash r = Some (c' - a)
              ∧ investment_amount r = Some a' ∧ 0 ≤ a') as Hlater.
  { intros j r Hj Hr.
    rewrite (lookup_execute_buy m df i trigger next j Hi Hn), Ha in Hr.
    rewrite decide_False in Hr by lia.
    case_decide as Hjn.
    - subst j. injection Hr as <-. simpl. rewrite Hcn. simpl.
      exists next, cn, a. split_and!; try done; apply Qcle_refl.
    - destruct (df !! j) as [r'|] eqn:Hr'; simpl in Hr; [|done].
      injection Hr as <-. simpl.
      destruct (HA _ _ Hr') as (_ & _ & c' & a' & _ & _ & Hc' & Ha' & Ha'0 & _).
      rewrite Hc'. simpl. exists r', c', a'.
      split_and!; try done.
      apply (HB (S i) j next r' cn c'); [lia|lia|done..]. }
  split.
  - intros j r Hr. simpl in Hr.
    destruct (decide (S i ≤ j)%nat) as [Hj|Hj].
    + destruct (Hlater j r Hj Hr) as (r' & c' & a' & Hr' & Hc' & Hle & Hc & Hamt & Hamt0).
      destruct (HA _ _ Hr') as (r0 & c0 & c'' & _ & Hr0 & Hc0 & Hc'' & _ & _ & _ & Hc0le).
      rewrite Hc' in Hc''. injection Hc'' as <-.
      exists r0, c0, (c' - a), a'. split_and!; try done.
      * apply Qc_sub_nonneg. by eapply Qcle_trans.
      * eapply Qcle_trans; [by apply Qc_sub_le|done].
    + rewrite (lookup_execute_buy m df i trigger next j Hi Hn) in Hr.
      rewrite decide_True in Hr by lia. by apply HA.
  - intros j1 j2 r1 r2 c1 c2 Hlt Hle Hr1 Hr2 Hc1 Hc2. simpl in *.
    destruct (Hlater j1 r1) as (r1' & c1' & _ & Hr1' & Hc1' & _ & Hc1'' & _);
      [lia|done|].
    destruct (Hlater j2 r2) as (r2' & c2' & _ & Hr2' & Hc2' & _ & Hc2'' & _);
      [lia|done|].
    rewrite Hc1 in Hc1''. injection Hc1'' as ->.
    rewrite Hc2 in Hc2''. injection Hc2'' as ->.
    apply Qc_sub_le_mono.
    apply (HB j1 j2 r1' r2' c1' c2'); [lia|done..].
Qed.

Lemma drawdown_leg_overdraw_inv df mode thr w m plan :
  create_drop_threshold_investment_plan df mode thr w m = Ok plan →
  funded df →
  ∃ last_buy, overdraw_inv df (plan, last_buy).
Proof.
  intros (wz & mz & _ & _ & Hw & Hm & Hthr & _ & _ & ->)
    %create_drop_threshold_investment_plan_Ok [Hnum Hmono].
  eexists.
  rewrite <-surjective_pairing.
  apply (drop_loop_ind (overdraw_inv df)).
  - split; simpl.
    + intros j r Hr. destruct (Hnum j r Hr) as (c & a & Hc & Ha & Hc0 & Ha0).
      exists r, c, c, a. split_and!; try done; apply Qcle_refl.
    + intros j1 j2 r1 r2 c1 c2 _. apply Hmono.
  - intros st' i Hi Hcap Hinv Hdec.
    apply (execute_buy_overdraw_inv df mode wz mz thr st' i Hw Hm Hthr);
      [|done..].
    by eapply trigger_row_in_state.
Qed.

(** X10: on a frame whose amounts and cash are numbers that are not
    negative and whose cash never falls from a row to a later one, the
    drawdown leg never overdraws: in its plan the cash of every row is
    a number between 0 and the cash the row had before, and no amount
    is negative. *)
Theorem drawdown_leg_never_overdraws (df plan : list PlanRow) mode
    perc_drop_threshold waiting_days drop_multiplier :
  create_drop_threshold_investment_plan df mode perc_drop_threshold
    waiting_days drop_multiplier = Ok plan →
  funded df →
  length plan = length df
  ∧ ∀ j (r : PlanRow), plan !! j = Some r →
      ∃ (r0 : PlanRow) c0 c a,
        df !! j = Some r0 ∧ cash r0 = Some c0
        ∧ cash r = Some c ∧ investment_amount r = Some a
        ∧ 0 ≤ a ∧ 0 ≤ c ∧ c ≤ c0.
Proof.
  intros Hplan Hfunded. split.
  - by apply (create_drop_threshold_investment_plan_frame _ _ _ _ _ _ Hplan).
  - destruct (drawdown_leg_overdraw_inv _ _ _ _ _ _ Hplan Hfunded)
      as (last_buy & HA & _).
    apply HA.
Qed.

Lemma funded_two_idle_days : funded two_idle_days.
Proof.
  split.
  - intros [|[|j]] r [= <-]; eexists _, _; by split_and!.
  - intros [|[|j1]] [|[|j2]] r1 r2 c1 c2 Hle [= <-] [= <-] [= <-] [= <-];
      (apply Qcle_refl || lia).
Qed.

Lemma drawdown_leg_never_overdraws_witness :
  match
    create_drop_threshold_investment_plan two_idle_days "markettiming_strategy"
      (Q2Qc (35 # 1000)) (PyInt 1) (PyInt 1)
  with
  | Ok plan =>
      (λ r : PlanRow, (num_Q (investment_amount r), num_Q (cash r))) <$> plan
      = [ (Some (0 # 1)%Q, Some (100 # 1)%Q);
          (Some (50 # 1)%Q, Some (50 # 1)%Q) ]
      ∧ ∀ j (r : PlanRow), plan !! j = Some r →
          ∃ (r0 : PlanRow) c0 c a,
            two_idle_days !! j = Some r0 ∧ cash r0 = Some c0
            ∧ cash r = Some c ∧ investment_amount r = Some a
            ∧ 0 ≤ a ∧ 0 ≤ c ∧ c ≤ c0
  | Raise _ => False
  end.
Proof.
  destruct (create_drop_threshold_investment_plan _ _ _ _ _)
    as [plan|e] eqn:E.
  - split.
    + pose proof E as E'. vm_compute in E'. by injection E' as <-.
    + exact (proj2 (drawdown_leg_never_overdraws _ _ _ _ _ _ E
                      funded_two_idle_days)).
  - vm_compute in E. discriminate E.
Defined.

(** ** No plan is overdrawn *)






(** ** The rows of a plan *)

Lemma capitalized_monthly_leg df p plan :
  NoDup (Date <$> dailies df) →
  create_monthly_investment_plan df p = Ok plan →
  capitalized <$> plan = df.
Proof.
  intros Hnd (c0 & _ & ->)%create_monthly_investment_plan_NoDup; [|done].
  apply list_eq. intros i.
  rewrite list_lookup_fmap, (proj2 (lookup_assign_cash_cells _ i)).
  rewrite list_lookup_fmap.
  destruct (df !! i) as [r|]; [|done]. simpl.
  unfold monthly_row. by case_decide.
Qed.

Lemma capitalized_plan df mode p thr w m plan :
  NoDup (Date <$> dailies df) →
  determine_buy_and_investment_amount df mode p thr w m = Ok plan →
  (λ r : PlanRecord, capitalized r) <$> plan = df.
Proof.
  intros Hnd. unfold determine_buy_and_investment_amount.
  destruct (py_assert _ _); simpl; [|done].
  set (e := effective_percent mode p).
  assert (∀ legs : list PlanRow,
            (λ r : PlanRecord, capitalized r) <$> (finalize <$> legs)
            = capitalized <$> legs) as Hfin.
  { intros legs. rewrite <-list_fmap_compose. by apply list_fmap_ext. }
  destruct (create_monthly_investment_plan df e) as [pl|] eqn:Hm.
  2:{ by destruct (decide (e = 1)). }
  pose proof (capitalized_monthly_leg df e pl Hnd Hm) as Hpl.
  destruct (decide (e = 1)); simpl.
  { intros [= <-]. by rewrite Hfin. }
  destruct (create_drop_threshold_investment_plan pl mode thr w m)
    as [pl'|] eqn:Hd; simpl; [|done].
  intros [= <-]. rewrite Hfin.
  by rewrite (proj2 (create_drop_threshold_investment_plan_frame
                       _ _ _ _ _ _ Hd)).
Qed.

Lemma determine_buy_and_investment_amount_nonempty df mode p thr w m plan :
  determine_buy_and_investment_amount df mode p thr w m = Ok plan →
  df ≠ [].
Proof.
  unfold determine_buy_and_investment_amount.
  destruct (py_assert _ _); simpl; [|done].
  set (e := effective_percent mode p).
  destruct (create_monthly_investment_plan df e) as [pl|] eqn:Hm.
  2:{ by destruct (decide (e = 1)). }
  intros _ ->.
  destruct (create_monthly_investment_plan_cases [] e)
    as [[_ E]|[(_ & _ & E)|(_ & E & _)]]; by rewrite ?Hm in E.
Qed.

(** X12: on a frame without a repeated date the planner returns one
    record for every row of the frame, in the order of the frame, and
    leaves the prices, the percent drop and the capital of every row as
    they were; the frame, and so the plan, is never empty. *)
Theorem plan_keeps_rows (df : list CapitalizedRecord) mode perc_monthly_invest
    perc_drop_threshold waiting_days drop_multiplier plan :
  NoDup (Date <$> dailies df) →
  determine_buy_and_investment_amount df mode perc_monthly_invest
    perc_drop_threshold waiting_days drop_multiplier = Ok plan →
  length plan = length df
  ∧ plan ≠ []
  ∧ (∀ i, (λ r : PlanRecord, capitalized r) <$> plan !! i = df !! i)
  ∧ NoDup ((λ r : PlanRecord, Date r) <$> plan).
Proof.
  intros Hnd Hplan.
  pose proof (capitalized_plan _ _ _ _ _ _ _ Hnd Hplan) as Hrows.
  pose proof (determine_buy_and_investment_amount_nonempty
                _ _ _ _ _ _ _ Hplan) as Hne.
  split; [by rewrite <-Hrows, length_fmap|]. split.
  { intros ->. by rewrite <-Hrows in Hne. }
  split.
  { intros i. by rewrite <-Hrows, list_lookup_fmap. }
  unfold dailies in Hnd. rewrite <-Hrows in Hnd.
  by rewrite <-!list_fmap_compose in Hnd.
Qed.

Lemma plan_keeps_rows_witness :
  let df := assign_available_capital turn_of_month (Qc_of_Z 100) in
  match
    determine_buy_and_investment_amount df "hybrid_strategy" (Q2Qc (9 # 10))
      (Q2Qc (35 # 1000)) (PyInt 3) (PyInt 9)
  with
  | Ok plan => length plan = 3%nat ∧ plan ≠ []
  | Raise _ => False
  end.
Proof.
  intros df.
  destruct (determine_buy_and_investment_amount _ _ _ _ _ _)
    as [plan|e] eqn:E.
  - assert (NoDup (Date <$> dailies df)) as Hnd.
    { apply (bool_decide_unpack _). vm_compute. reflexivity. }
    destruct (plan_keeps_rows df _ _ _ _ _ plan Hnd E) as (Hlen & Hne & _).
    split; [|done]. rewrite Hlen. vm_compute. reflexivity.
  - vm_compute in E. discriminate E.
Defined.

(** ** The horizon of a plan *)

Lemma datetime_le_year a b : datetime_le a b → (dt_year a ≤ dt_year b)%Z.
Proof.
  unfold datetime_le. intros H.
  apply Is_true_true, orb_true_iff in H as [H|H].
  - apply Z.ltb_lt in H. lia.
  - apply andb_true_iff in H as [H _]. apply Z.eqb_eq in H. lia.
Qed.

Lemma add_years_year d n d' :
  add_years d n = Ok d' →
  dt_year d' = (dt_year d + n)%Z ∧ dt_month d' = dt_month d
  ∧ dt_day d' = Z.min (days_in_month (dt_year d + n) (dt_month d)) (dt_day d).
Proof.
  unfold add_years. case_match; [|by case_match]. by intros [= <-].
Qed.

Lemma get_horizon_start_end_years start_date year_start horizon_length
    verbose out hs he :
  get_horizon_start_end start_date year_start horizon_length verbose
  = Ok (out, (hs, he)) →
  dt_year hs = (dt_year start_date + year_start)%Z
  ∧ dt_year he = (dt_year hs + horizon_length)%Z.
Proof.
  unfold get_horizon_start_end.
  destruct (add_years start_date year_start) as [h1|] eqn:H1; simpl; [|done].
  destruct (add_years h1 horizon_length) as [h2|] eqn:H2; simpl; [|done].
  intros [= _ <- <-].
  apply add_years_year in H1 as (H1 & _). apply add_years_year in H2 as (H2 & _).
  done.
Qed.

Lemma determine_buy_and_investment_amount_plan_nonempty df mode p thr w m
    plan :
  determine_buy_and_investment_amount df mode p thr w m = Ok plan →
  plan ≠ [].
Proof.
  unfold determine_buy_and_investment_amount.
  destruct (py_assert _ _); simpl; [|done].
  set (e := effective_percent mode p).
  destruct (create_monthly_investment_plan df e) as [pl|] eqn:Hm.
  2:{ by destruct (decide (e = 1)). }
  assert (pl ≠ []) as Hpl.
  { destruct (create_monthly_investment_plan_cases df e)
      as [[_ E]|[(_ & _ & E)|(_ & _ & pl' & E & Hne)]];
      rewrite Hm in E; [done..|]. by injection E as ->. }
  destruct (decide (e = 1)); simpl.
  { intros [= <-]. by destruct pl. }
  destruct (create_drop_threshold_investment_plan pl mode thr w m)
    as [pl'|] eqn:Hd; simpl; [|done].
  intros [= <-].
  apply create_drop_threshold_investment_plan_frame in Hd as [Hlen _].
  destruct pl'; [|done]. by destruct pl.
Qed.

(** X13: on a frame whose index increases with the rows, a plan of
    [create_investment_plan] is made of rows of the
    frame that lie in the horizon, both ends included; it is never
    empty, so that a plan is only returned for a horizon length that is
    not negative and a horizon that holds a row.  On a frame without a
    repeated date the plan has exactly the rows of the horizon, in the
    order of the frame. *)
Theorem create_investment_plan_horizon rows start_date year_start
    horizon_length mode monthly_savings verbose perc_monthly_invest
    perc_drop_threshold waiting_days drop_multiplier out plan :
  date_ordered (frame_dates (Annotated rows)) →
  create_investment_plan (Annotated rows) start_date year_start
    horizon_length mode monthly_savings verbose perc_monthly_invest
    perc_drop_threshold waiting_days drop_multiplier = Ok (out, plan) →
  ∃ hs he,
    get_horizon_start_end start_date year_start horizon_length verbose
    = Ok (out, (hs, he))
    ∧ (0 ≤ horizon_length)%Z
    ∧ plan ≠ []
    ∧ (∀ r : PlanRecord, r ∈ plan →
         annotated r ∈ rows ∧ in_horizon hs he (Date r))
    ∧ (NoDup (Date <$> (daily <$> rows)) →
       (λ r : PlanRecord, annotated r) <$> plan
       = filter (λ r : AnnotatedRecord, in_horizon hs he (Date r)) rows).
Proof.
  intros _. unfold create_investment_plan.
  destruct (get_horizon_start_end _ _ _ _) as [[out' [hs he]]|] eqn:Hh;
    simpl; [|done].
  set (rows' := filter _ rows).
  destruct (determine_buy_and_investment_amount _ _ _ _ _ _)
    as [pl|] eqn:Hd; simpl; [|done].
  intros [= <- <-]. exists hs, he. split; [done|].
  pose proof (determine_buy_and_investment_amount_plan_nonempty
                _ _ _ _ _ _ _ Hd) as Hne.
  assert (∀ r : PlanRecord, r ∈ pl →
            annotated r ∈ rows ∧ in_horizon hs he (Date r)) as Hin.
  { intros r Hr.
    eapply elem_of_determine_buy_and_investment_amount in Hr; [|done].
    apply elem_of_assign_available_capital in Hr.
    apply list_elem_of_fmap in Hr as (ar & Ha & Har).
    apply list_elem_of_filter in Har as [Hhor Har].
    rewrite Ha. simpl. done. }
  split; [|split; [done|split; [done|]]].
  - destruct pl as [|r pl]; [done|].
    destruct (Hin r) as [_ Hhor]; [by left|].
    unfold in_horizon in Hhor.
    apply andb_prop_elim in Hhor as [H1%datetime_le_year H2%datetime_le_year].
    apply get_horizon_start_end_years in Hh as [_ Hhe]. lia.
  - intros Hnd.
    set (drops := (λ r : AnnotatedRecord, mk_drop r (percent_drop_of r))
                    <$> rows') in *.
    assert (drop_dailies drops = daily <$> rows') as Hdays.
    { unfold drop_dailies, drops. rewrite <-list_fmap_compose.
      by apply list_fmap_ext. }
    assert (NoDup (Date <$> drop_dailies drops)) as Hnd'.
    { rewrite Hdays. eapply sublist_NoDup; [exact Hnd|].
      apply fmap_sublist, fmap_sublist, sublist_filter. }
    pose proof (capitalized_plan _ _ _ _ _ _ _
                  (eq_ind_r (λ l, NoDup (Date <$> l)) Hnd'
                     (dailies_assign_available_capital drops monthly_savings
                        Hnd')) Hd) as Hcap.
    pose proof (dropped_assign_available_capital drops monthly_savings Hnd')
      as Hdrop.
    rewrite <-Hcap in Hdrop.
    assert (annotated <$> drops = rows') as Hann.
    { unfold drops. rewrite <-list_fmap_compose.
      rewrite <-(list_fmap_id rows') at 2. by apply list_fmap_ext. }
    fold rows'. rewrite <-Hann, <-Hdrop, <-!list_fmap_compose. done.
Qed.

Lemma create_investment_plan_horizon_witness :
  let rows :=
    [ mk_annotated (daily_at 1999 12 31 100 100 100) (Some (Qc_of_Z 100));
      mk_annotated (daily_at 2000 1 3 100 100 90) (Some (Qc_of_Z 100));
      mk_annotated (daily_at 2001 2 1 100 100 80) (Some (Qc_of_Z 100)) ] in
  match
    create_investment_plan (Annotated rows) (mk_datetime 2000 1 1) 0 1
      "markettiming_strategy" (Qc_of_Z 100) 0 (Qc_of_Z 0) (Qc_of_Z 0)
      (PyInt 1) (PyInt 1)
  with
  | Ok (_, plan) =>
      (λ r : PlanRecord, Date r) <$> plan = [mk_datetime 2000 1 3]
      ∧ plan ≠ []
      ∧ ∀ r : PlanRecord, r ∈ plan → annotated r ∈ rows
  | Raise _ => False
  end.
Proof.
  intros rows.
  destruct (create_investment_plan _ _ _ _ _ _ _ _ _ _ _)
    as [[out plan]|e] eqn:E.
  - destruct (create_investment_plan_horizon rows _ _ _ _ _ _ _ _ _ _ _ _
                ltac:(repeat constructor) E)
      as (hs & he & _ & _ & Hne & Hin & _).
    split; [|split; [done|]].
    + pose proof E as E'. vm_compute in E'. by injection E' as <- <-.
    + intros r Hr. by apply Hin.
  - vm_compute in E. discriminate E.
Defined.

(** ** The yearly series *)

Lemma length_year_keys plan :
  length (year_keys plan) = length (remove_dups (years plan)).
Proof. unfold year_keys, years. by rewrite merge_sort_Permutation. Qed.

(** X14: for every plan, ordered or not, the four series of
    [compute_roi] have one entry for every year of the plan, the years
    in increasing order; the amount of a year is what has been invested
    through that year; the gain is the portfolio less the amount; and
    the return is the gain divided by the amount, undefined exactly
    when nothing has been invested through that year. *)
Theorem compute_roi_series plan :
  let keys := year_keys plan in
  let portfolio := (compute_roi plan).1.1.1 in
  let invested := (compute_roi plan).1.1.2 in
  let win := (compute_roi plan).1.2 in
  let roi := (compute_roi plan).2 in
  StronglySorted Z.lt keys
  ∧ (∀ y, y ∈ keys ↔ ∃ r : PlanRecord, r ∈ plan ∧ year r = y)
  ∧ portfolio.*1 = keys ∧ invested.*1 = keys
  ∧ win.*1 = keys ∧ roi.*1 = keys
  ∧ invested = (λ y, (y, invested_through plan y)) <$> keys
  ∧ ∀ i y pv iv,
      portfolio !! i = Some (y, pv) → invested !! i = Some (y, iv) →
      win !! i = Some (y, pv - iv)
      ∧ roi !! i
        = Some (y, if decide (iv = 0) then None else Some ((pv - iv) / iv)).
Proof.
  intros keys. unfold compute_roi. fold keys. cbn [fst snd].
  set (P := zip_with Qcmult _ _).
  set (I := cumsum (groupby_year_sum investment_amount plan)).
  assert (length I = length keys) as HI.
  { unfold I. by rewrite cumsum_groupby_year_sum, length_fmap. }
  assert (length P = length keys) as HP.
  { unfold P.
    rewrite cumsum_groupby_year_sum, groupby_year_tail_open.
    rewrite length_zip_with, !length_fmap.
    fold keys. unfold keys. rewrite length_year_keys. lia. }
  split; [apply year_keys_strictly_sorted|]. split.
  { intros y. unfold keys. rewrite elem_of_year_keys. unfold years.
    rewrite list_elem_of_fmap. naive_solver. }
  split_and!.
  - apply fst_zip. lia.
  - apply fst_zip. lia.
  - apply fst_zip. rewrite length_zip_with. lia.
  - apply fst_zip. rewrite !length_zip_with. lia.
  - unfold I. by rewrite cumsum_groupby_year_sum, zip_fmap_same.
  - intros i y pv iv HPi HIi.
    apply lookup_zip_with_Some in HPi as (y1 & pv1 & [= <- <-] & HK & HPv).
    apply lookup_zip_with_Some in HIi as (y2 & iv1 & [= _ <-] & _ & HIv).
    rewrite !lookup_zip_with, HK, HPv, HIv. simpl. split; [done|].
    by case_decide.
Qed.

(** ** The ticks of the year axis *)

Lemma merge_sort_remove_dups_strictly_sorted (l : list Z) :
  StronglySorted Z.lt (merge_sort Z.le (remove_dups l)).
Proof.
  set (k := remove_dups l).
  assert (NoDup (merge_sort Z.le k)) as Hnd.
  { rewrite merge_sort_Permutation. apply NoDup_remove_dups. }
  pose proof (StronglySorted_merge_sort Z.le k) as Hs.
  revert Hnd. induction Hs as [|x s Hs IH Hx]; intros Hnd; [constructor|].
  apply NoDup_cons in Hnd as [Hxs Hnd]. constructor; [by apply IH|].
  apply Forall_forall. intros y Hy.
  rewrite Forall_forall in Hx. specialize (Hx y Hy).
  assert (x ≠ y) by (by intros ->). lia.
Qed.

Lemma omap_total {A B} (f : A → option B) (g : A → B) (l : list A) :
  (∀ x, x ∈ l → f x = Some (g x)) → omap f l = g <$> l.
Proof.
  induction l as [|x l IH]; intros Hf; [done|].
  cbn [omap list_omap]. rewrite (Hf x) by by left.
  rewrite fmap_cons. f_equal. apply IH. intros y Hy. apply Hf. by right.
Qed.

(** Every year of the frame has a first row. *)
Lemma first_of_year (df : list DailyRecord) y :
  y ∈ year <$> df →
  ∃ r : DailyRecord,
    head (filter (λ r : DailyRecord, year r = y) df) = Some r
    ∧ r ∈ df ∧ year r = y.
Proof.
  intros (r & -> & Hr)%list_elem_of_fmap.
  destruct (filter _ df) as [|r0 rest] eqn:Hf.
  - assert (r ∈ filter (λ r' : DailyRecord, year r' = year r) df) as Hin
      by by apply list_elem_of_filter.
    rewrite Hf in Hin. by apply elem_of_nil in Hin.
  - assert (r0 ∈ filter (λ r' : DailyRecord, year r' = year r) df) as Hin
      by (rewrite Hf; by left).
    apply list_elem_of_filter in Hin as [Hy Hin]. by exists r0.
Qed.

(** The first dates of the years, one for every key. *)
Lemma groupby_year_first_date_total (df : list DailyRecord) :
  let keys := merge_sort Z.le (remove_dups (year <$> df)) in
  ∃ g : Z → DailyRecord,
    groupby_year_first_date df = (λ y, Date (g y)) <$> keys
    ∧ ∀ y, y ∈ keys →
        head (filter (λ r : DailyRecord, year r = y) df) = Some (g y)
        ∧ g y ∈ df ∧ year (g y) = y.
Proof.
  intros keys.
  exists (λ y, default (mk_daily (mk_datetime y 1 1) y 1 0 0 0)
                 (head (filter (λ r : DailyRecord, year r = y) df))).
  assert (∀ y, y ∈ keys → y ∈ year <$> df) as Hkeys.
  { intros y. unfold keys.
    by rewrite merge_sort_Permutation, elem_of_remove_dups. }
  split.
  - unfold groupby_year_first_date. fold keys. apply omap_total.
    intros y Hy. destruct (first_of_year df y (Hkeys y Hy)) as (r & -> & _).
    done.
  - intros y Hy. destruct (first_of_year df y (Hkeys y Hy))
      as (r & -> & Hr & Hyr). done.
Qed.

Lemma strictly_sorted_bounds (ks : list Z) y0 yl :
  StronglySorted Z.lt ks → head ks = Some y0 → last ks = Some yl →
  ∀ k, k ∈ ks → (y0 ≤ k ≤ yl)%Z.
Proof.
  intros Hs H0 Hl k Hk. split.
  - destruct ks as [|x ks]; [done|]. injection H0 as ->.
    apply StronglySorted_inv in Hs as [_ Hall].
    rewrite Forall_forall in Hall.
    apply elem_of_cons in Hk as [->|Hk]; [lia|]. specialize (Hall k Hk). lia.
  - apply last_Some in Hl as [ks' ->].
    apply elem_of_app in Hk as [Hk|Hk%list_elem_of_singleton]; [|lia].
    pose proof (StronglySorted_app_1_elem_of _ _ _ k yl Hs Hk) as Hlt.
    specialize (Hlt ltac:(by left)). lia.
Qed.

(** X15: [get_new_xticks_per_year] fails, with an [IndexError], exactly
    on the frame without rows.  Otherwise it returns three ticks more
    than the frame has years; the date of the first row of every year
    is a tick; and when the [year] column is the year of the date the
    years of the ticks increase strictly, so that the added ticks lie
    before and after the data. *)
Theorem get_new_xticks_per_year_spec (df : list DailyRecord) :
  (get_new_xticks_per_year df = Raise IndexError ↔ df = [])
  ∧ (is_ok (get_new_xticks_per_year df) = true ↔ df ≠ [])
  ∧ ∀ ticks, get_new_xticks_per_year df = Ok ticks →
      length ticks = (length (remove_dups (year <$> df)) + 3)%nat
      ∧ (∀ y (r : DailyRecord),
           head (filter (λ r : DailyRecord, year r = y) df) = Some r →
           Date r ∈ ticks)
      ∧ ((∀ r : DailyRecord, r ∈ df → dt_year (Date r) = year r) →
         StronglySorted Z.lt (dt_year <$> ticks)).
Proof.
  destruct (groupby_year_first_date_total df) as (g & Hfirsts & Hg).
  set (keys := merge_sort Z.le (remove_dups (year <$> df))) in *.
  assert (keys = [] ↔ df = []) as Hempty.
  { split.
    - intros Hk. destruct df as [|r df]; [done|].
      assert (year r ∈ keys) as Hin.
      { unfold keys. rewrite merge_sort_Permutation, elem_of_remove_dups.
        rewrite fmap_cons. by left. }
      rewrite Hk in Hin. by apply elem_of_nil in Hin.
    - intros ->. done. }
  unfold get_new_xticks_per_year. rewrite Hfirsts.
  destruct keys as [|k0 keys'] eqn:Hkeys.
  { simpl. split; [tauto|]. split; [|done]. split; [done|].
    intros Hne. by destruct Hne, Hempty as [-> _]. }
  assert (df ≠ []) as Hne.
  { intros Hdf. by apply Hempty in Hdf. }
  rewrite <-Hkeys in *. clear Hempty.
  set (years := dt_year <$> ((λ y, Date (g y)) <$> keys)).
  destruct (head years) as [y0|] eqn:Hy0.
  2:{ unfold years in Hy0. by rewrite Hkeys in Hy0. }
  destruct (last years) as [yl|] eqn:Hyl.
  2:{ unfold years in Hyl. rewrite Hkeys, !fmap_cons, last_cons in Hyl.
      by destruct (last _). }
  split; [split; [done|by intros ?]|]. split; [done|].
  intros ticks [= <-]. split; [|split].
  - rewrite length_cons, !length_app, length_fmap. simpl.
    unfold keys. rewrite merge_sort_Permutation. lia.
  - intros y r Hr.
    assert (y ∈ keys) as Hy.
    { unfold keys. rewrite merge_sort_Permutation, elem_of_remove_dups.
      apply head_Some_elem_of, list_elem_of_filter in Hr as [<- Hr].
      by apply list_elem_of_fmap_2. }
    destruct (Hg y Hy) as (Hhead & _). rewrite Hr in Hhead.
    injection Hhead as ->.
    right. apply elem_of_app. left.
    by apply (list_elem_of_fmap_2 (λ y, Date (g y))).
  - intros Hcons.
    assert (years = keys) as Hyears.
    { unfold years. rewrite <-list_fmap_compose.
      rewrite <-(list_fmap_id keys) at 2.
      apply Forall_fmap_ext_1, Forall_forall. intros y Hy. simpl.
      destruct (Hg y Hy) as (_ & Hin & Hyr). by rewrite Hcons. }
    rewrite Hyears in Hy0, Hyl.
    pose proof (merge_sort_remove_dups_strictly_sorted (year <$> df)) as Hs.
    fold keys in Hs.
    pose proof (strictly_sorted_bounds keys y0 yl Hs Hy0 Hyl) as Hb.
    cbn [app]. rewrite fmap_cons, fmap_app. fold years. rewrite Hyears.
    constructor.
    + apply StronglySorted_app_2; [|done|].
      * intros x1 x2 Hx1 Hx2. specialize (Hb x1 Hx1). simpl in Hx2.
        rewrite !elem_of_cons, elem_of_nil in Hx2.
        destruct Hx2 as [->|[->|[]]]; simpl; lia.
      * simpl. repeat constructor. lia.
    + apply Forall_app. split.
      * apply Forall_forall. intros k Hk. specialize (Hb k Hk). simpl. lia.
      * assert (y0 ≤ yl)%Z.
        { apply (Hb y0). by apply head_Some_elem_of. }
        simpl. repeat constructor; simpl; lia.
Qed.

Lemma get_new_xticks_per_year_spec_witness :
  let df := [daily_at 2000 1 3 1 1 1; daily_at 2000 1 4 1 1 1;
             daily_at 2001 1 2 1 1 1] in
  match get_new_xticks_per_year df with
  | Ok ticks =>
      ticks
      = [mk_datetime 1999 1 1; mk_datetime 2000 1 3; mk_datetime 2001 1 2;
         mk_datetime 2002 1 1; mk_datetime 2003 1 1]
      ∧ StronglySorted Z.lt (dt_year <$> ticks)
  | Raise _ => False
  end.
Proof.
  intros df.
  destruct (get_new_xticks_per_year df) as [ticks|e] eqn:E.
  - split.
    + pose proof E as E'. vm_compute in E'. by injection E' as <-.
    + apply (proj2 (proj2 (get_new_xticks_per_year_spec df)) ticks E).
      intros r Hr. unfold df in Hr.
      rewrite !elem_of_cons, elem_of_nil in Hr.
      by destruct Hr as [->|[->|[->|[]]]].
  - vm_compute in E. discriminate E.
Defined.

(** ** The order of the horizon *)

Lemma datetime_le_iff a b :
  datetime_le a b
  ↔ (dt_year a < dt_year b)%Z
    ∨ (dt_year a = dt_year b
       ∧ ((dt_month a < dt_month b)%Z
          ∨ (dt_month a = dt_month b ∧ (dt_day a ≤ dt_day b)%Z))).
Proof.
  unfold datetime_le.
  rewrite !orb_True, !andb_True, !orb_True, !andb_True.
  rewrite !Is_true_true, !Z.ltb_lt, !Z.eqb_eq, Z.leb_le. done.
Qed.

Lemma get_horizon_start_end_Ok start_date year_start horizon_length verbose
    out hs he :
  get_horizon_start_end start_date year_start horizon_length verbose
  = Ok (out, (hs, he)) →
  add_years start_date year_start = Ok hs
  ∧ add_years hs horizon_length = Ok he
  ∧ out = if (verbose =? 1)%Z then [(hs, he)] else [].
Proof.
  unfold get_horizon_start_end.
  destruct (add_years start_date year_start) as [h1|]; simpl; [|done].
  destruct (add_years h1 horizon_length) as [h2|] eqn:H2; simpl; [|done].
  by intros [= <- <- <-].
Qed.

(** X16: the two dates that [get_horizon_start_end] returns are in
    order exactly when the horizon length is not negative, and are the
    same date when it is zero; the line printed is those two dates,
    printed only for [verbose == 1].  Unless the start date is a 29th
    (or later day) of February, the end is the start date shifted by
    [year_start + horizon_length] years at once; from 29 February 1996
    the two shifts by 1 and 3 years end on 28 February 2000, a day
    before the single shift by 4 years. *)
Theorem horizon_order start_date year_start horizon_length verbose out hs he :
  get_horizon_start_end start_date year_start horizon_length verbose
  = Ok (out, (hs, he)) →
  (datetime_le hs he ↔ (0 ≤ horizon_length)%Z)
  ∧ (horizon_length = 0%Z → he = hs)
  ∧ out = (if (verbose =? 1)%Z then [(hs, he)] else [])
  ∧ (dt_month start_date ≠ 2%Z ∨ (dt_day start_date ≤ 28)%Z →
     add_years start_date (year_start + horizon_length) = Ok he)
  ∧ get_horizon_start_end (mk_datetime 1996 2 29) 1 3 0
    = Ok ([], (mk_datetime 1997 2 28, mk_datetime 2000 2 28))
  ∧ add_years (mk_datetime 1996 2 29) 4 = Ok (mk_datetime 2000 2 29).
Proof.
  intros (H1 & H2 & Hout)%get_horizon_start_end_Ok.
  pose proof H1 as H1'. pose proof H2 as H2'.
  apply add_years_year in H1 as (Hy1 & Hm1 & Hd1).
  apply add_years_year in H2 as (Hy2 & Hm2 & Hd2).
  split_and!; [| |done| |done|done].
  - rewrite datetime_le_iff, Hy2, Hm2, Hd2. split.
    + intros [?|[? _]]; lia.
    + intros Hlen. destruct (decide (horizon_length = 0%Z)) as [->|?];
        [|left; lia].
      right. split; [lia|]. right. split; [done|].
      rewrite Z.add_0_r, Hd1, Hm1.
      rewrite Hy1. lia.
  - intros ->. destruct hs as [y m d], he as [y' m' d']. simpl in *.
    f_equal; [lia|done|]. rewrite Hd2, Z.add_0_r.
    rewrite Hd1, Hm1, Hy1. lia.
  - intros Hfeb. unfold add_years in *.
    destruct ((1 <=? dt_year start_date + year_start)%Z
              && (dt_year start_date + year_start <=? 9999)%Z);
      [|by destruct (c_int _)].
    injection H1' as <-. simpl in *.
    rewrite Z.add_assoc.
    destruct ((1 <=? dt_year start_date + year_start + horizon_length)%Z
              && (dt_year start_date + year_start + horizon_length
                  <=? 9999)%Z); [|by destruct (c_int _)].
    injection H2' as <-. f_equal. f_equal.
    unfold days_in_month.
    destruct (dt_month start_date =? 2)%Z eqn:Hm.
    + apply Z.eqb_eq in Hm. destruct Hfeb as [?|Hday]; [done|].
      repeat case_match; lia.
    + repeat case_match; lia.
Qed.

Lemma horizon_order_witness :
  datetime_le (mk_datetime 1999 2 28) (mk_datetime 2019 2 28)
  ∧ add_years (mk_datetime 1996 3 1) 23 = Ok (mk_datetime 2019 3 1).
Proof.
  split.
  - apply (proj1 (horizon_order (mk_datetime 1996 2 29) 3 20 0 []
                    (mk_datetime 1999 2 28) (mk_datetime 2019 2 28)
                    eq_refl)).
    lia.
  - apply (proj1 (proj2 (proj2 (proj2
             (horizon_order (mk_datetime 1996 3 1) 3 20 0 []
                (mk_datetime 1999 3 1) (mk_datetime 2019 3 1) eq_refl))))).
    left. done.
Defined.

(** ** The history of an index *)

(** X17: for an index without an entry in the dictionary
    [get_start_and_end_of_history] returns 1 January 1920 and 1 January
    2020 without parsing anything; the horizon that
    [get_horizon_start_end] cuts from that start begins and ends on a
    1 January, begins within the history exactly when [year_start] is
    not negative, and ends within it exactly when
    [year_start + horizon_length] is at most 100.  The end of the
    history is the same for every index and every dictionary. *)
Theorem default_history_holds_horizon (strptime : string → result datetime)
    etf_idx (etf_idx_dict : gmap string string) year_start horizon_length
    verbose out hs he :
  etf_idx_dict !! etf_idx = None →
  get_horizon_start_end (mk_datetime 1920 1 1) year_start horizon_length
    verbose = Ok (out, (hs, he)) →
  get_start_and_end_of_history strptime etf_idx etf_idx_dict
  = Ok (mk_datetime 1920 1 1, mk_datetime 2020 1 1)
  ∧ hs = mk_datetime (1920 + year_start) 1 1
  ∧ he = mk_datetime (1920 + year_start + horizon_length) 1 1
  ∧ (datetime_le (mk_datetime 1920 1 1) hs ↔ (0 ≤ year_start)%Z)
  ∧ (datetime_le he (mk_datetime 2020 1 1)
     ↔ (year_start + horizon_length ≤ 100)%Z)
  ∧ ∀ idx' dict' start end_date,
      get_start_and_end_of_history strptime idx' dict'
      = Ok (start, end_date) →
      end_date = mk_datetime 2020 1 1.
Proof.
  intros Hnone (H1 & H2 & _)%get_horizon_start_end_Ok.
  apply add_years_year in H1 as (Hy1 & Hm1 & Hd1).
  apply add_years_year in H2 as (Hy2 & Hm2 & Hd2).
  simpl in *. rewrite Hm1 in *.
  assert (dt_day hs = 1%Z) as Hd1'.
  { rewrite Hd1. unfold days_in_month. simpl. repeat case_match; lia. }
  assert (dt_day he = 1%Z) as Hd2'.
  { rewrite Hd2, Hd1'. unfold days_in_month. simpl. repeat case_match; lia. }
  assert (hs = mk_datetime (1920 + year_start) 1 1) as ->.
  { destruct hs. simpl in *. by subst. }
  assert (he = mk_datetime (1920 + year_start + horizon_length) 1 1) as ->.
  { destruct he. simpl in *. by subst. }
  split_and!; [|done|done| | |].
  - unfold get_start_and_end_of_history. by rewrite Hnone.
  - rewrite datetime_le_iff. simpl. lia.
  - rewrite datetime_le_iff. simpl. lia.
  - intros idx' dict' start end_date.
    unfold get_start_and_end_of_history.
    destruct (dict' !! idx') as [s|]; simpl.
    + destruct (strptime s); simpl; [|done]. by intros [= _ <-].
    + by intros [= _ <-].
Qed.

Lemma default_history_holds_horizon_witness :
  get_start_and_end_of_history (λ _, Raise ValueError) "^GSPC"
    (<["^GDAXI" := "1987-12-30"]> ∅)
  = Ok (mk_datetime 1920 1 1, mk_datetime 2020 1 1)
  ∧ datetime_le (mk_datetime 1980 1 1) (mk_datetime 2020 1 1).
Proof.
  destruct (default_history_holds_horizon (λ _, Raise ValueError) "^GSPC"
              (<["^GDAXI" := "1987-12-30"]> ∅) 40 20 0 []
              (mk_datetime 1960 1 1) (mk_datetime 1980 1 1))
    as (Hhist & _ & _ & _ & Hend & _).
  - by apply lookup_insert_None.
  - reflexivity.
  - split; [exact Hhist|]. apply Hend. lia.
Defined.

(** ** The plans of create_investment_plan *)





(** ** The outcomes of a call *)











(** ** The first buy of the drawdown leg *)

Lemma trigger_rows_first (df : list PlanRow) thr i (trigger : PlanRow) :
  df !! i = Some trigger →
  num_ge (percent_drop trigger) thr = true →
  (∀ j (r : PlanRow), (j < i)%nat → df !! j = Some r →
     num_ge (percent_drop r) thr = false) →
  ∃ rest, trigger_rows df thr = i :: rest ∧ Forall (λ j, i < j)%nat rest.
Proof.
  intros Hi Hge Hfirst. unfold trigger_rows.
  pose proof (lookup_lt_Some _ _ _ Hi) as Hlt.
  replace (length df) with (i + S (length df - S i))%nat by lia.
  rewrite seq_app, filter_app. simpl. rewrite filter_cons_True.
  2:{ by rewrite Hi; simpl; rewrite Hge. }
  rewrite filter_none.
  2:{ apply Forall_forall. intros j Hj%elem_of_seq.
      destruct (df !! j) as [r|] eqn:Hr; simpl; [|done].
      rewrite (Hfirst j r) by (lia || done). done. }
  eexists. split; [done|].
  apply Forall_forall. intros j [_ Hj%elem_of_seq]%list_elem_of_filter. lia.
Qed.

Lemma execute_buy_earlier_rows m df j k :
  (k ≤ j)%nat → execute_buy m df j !! k = df !! k.
Proof.
  intros Hk.
  destruct (df !! j) as [trigger|] eqn:Hj;
    [|unfold execute_buy; by rewrite Hj].
  destruct (df !! S j) as [next|] eqn:Hn;
    [|unfold execute_buy; by rewrite Hj, Hn].
  rewrite (lookup_execute_buy m df j trigger next k Hj Hn).
  by rewrite decide_True by lia.
Qed.

(** The turns of the loop leave the rows up to the first of their
    trigger rows as they are. *)
Lemma drop_loop_earlier_rows mode w m triggers st k :
  Forall (λ j, k ≤ j)%nat triggers →
  (drop_loop mode w m triggers st).1 !! k = st.1 !! k.
Proof.
  intros Hk. rewrite Forall_forall in Hk.
  apply (drop_loop_ind (λ st', st'.1 !! k = st.1 !! k)); [done|].
  intros st' j Hj _ IH _. simpl. rewrite <-IH.
  apply execute_buy_earlier_rows. by apply Hk.
Qed.

(** X19: the first row whose percent drop reaches the threshold always
    leads to a buy on the row after it, if there is one (and, in the
    hybrid strategy, unless that row is a monthly buy): the waiting
    period never delays the first buy.  The share invested is the
    smaller of 1 and the drop times the multiplier, the amount is that
    share of the cash of the row, and no later turn of the loop changes
    them. *)
Theorem first_trigger_is_bought (df plan : list PlanRow) mode
    perc_drop_threshold waiting_days drop_multiplier m i
    (trigger next : PlanRow) :
  create_drop_threshold_investment_plan df mode perc_drop_threshold
    waiting_days drop_multiplier = Ok plan →
  positive_int drop_multiplier = Some m →
  df !! i = Some trigger →
  df !! S i = Some next →
  num_ge (percent_drop trigger) perc_drop_threshold = true →
  (∀ j (r : PlanRow), (j < i)%nat → df !! j = Some r →
     num_ge (percent_drop r) perc_drop_threshold = false) →
  ¬ (mode = "hybrid_strategy" ∧ buy next = true) →
  ∃ r' : PlanRow,
    plan !! S i = Some r'
    ∧ buy r' = true
    ∧ investment_percent r'
      = Qcmin 1 <$> num_mul (percent_drop trigger) (Some (Qc_of_Z m))
    ∧ investment_amount r' = num_mul (cash next) (investment_percent r')
    ∧ cash r' = num_sub (cash next) (investment_amount r').
Proof.
  intros Hplan Hm Hi Hn Hge Hfirst Hhybrid.
  apply create_drop_threshold_investment_plan_Ok in Hplan
    as (wz & mz & _ & Hm' & Hw & _ & _ & _ & _ & ->).
  rewrite Hm in Hm'. injection Hm' as <-.
  destruct (trigger_rows_first df perc_drop_threshold i trigger Hi Hge Hfirst)
    as (rest & -> & Hrest).
  unfold drop_loop. cbn [fold_left].
  rewrite drop_step_Execute.
  2:{ apply decide_trigger_Execute. simpl. split; [lia|]. split.
      - apply lookup_lt_Some in Hn. lia.
      - intros [Hmode Hb]. apply Hhybrid. split; [done|].
        rewrite Hn in Hb. simpl in Hb. by injection Hb. }
  change (fold_left (drop_step mode wz m) rest ?st)
    with (drop_loop mode wz m rest st).
  rewrite (drop_loop_earlier_rows mode wz m rest _ (S i)).
  2:{ eapply Forall_impl; [exact Hrest|]. simpl. lia. }
  simpl. rewrite (lookup_execute_buy m df i trigger next (S i) Hi Hn).
  rewrite decide_False, decide_True by lia.
  eexists. split; [done|]. simpl. done.
Qed.

Lemma first_trigger_is_bought_witness :
  match
    create_drop_threshold_investment_plan five_drops "markettiming_strategy"
      (Q2Qc (35 # 1000)) (PyInt 3) (PyInt 1)
  with
  | Ok plan =>
      buy <$> plan = [false; true; false; false; true]
      ∧ ∃ r' : PlanRow,
          plan !! 1%nat = Some r'
          ∧ buy r' = true
          ∧ num_Q (investment_percent r') = Some (1 # 2)%Q
          ∧ num_Q (investment_amount r') = Some (50 # 1)%Q
  | Raise _ => False
  end.
Proof.
  destruct (create_drop_threshold_investment_plan _ _ _ _ _)
    as [plan|e] eqn:E.
  - split.
    + pose proof E as E'. vm_compute in E'. by injection E' as <-.
    + destruct (five_drops !! 0%nat) as [trigger|] eqn:Ht;
        [|vm_compute in Ht; discriminate Ht].
      destruct (five_drops !! 1%nat) as [next|] eqn:Hn;
        [|vm_compute in Hn; discriminate Hn].
      destruct (first_trigger_is_bought five_drops plan _ _ _ _ 1 0
                  trigger next E eq_refl Ht Hn)
        as (r' & Hr' & Hb & Hp & Ha & _).
      * injection Ht as <-. vm_compute. reflexivity.
      * intros j r Hj. lia.
      * by intros [? _].
      * exists r'. split; [done|]. split; [done|].
        rewrite Ha, Hp. injection Ht as <-. injection Hn as <-.
        split; vm_compute; reflexivity.
  - vm_compute in E. discriminate E.
Defined.

(** ** Execution of the drawdown buys (C3) *)

Lemma trigger_rows_sorted df thr : StronglySorted lt (trigger_rows df thr).
Proof.
  unfold trigger_rows. generalize 0%nat at 1. generalize (length df) at 1.
  intros n. induction n as [|n IH]; intros a; [constructor|].
  cbn [seq]. rewrite filter_cons. case_decide.
  - constructor; [apply IH|].
    apply Forall_forall. intros j [_ Hj%elem_of_seq]%list_elem_of_filter. lia.
  - apply IH.
Qed.

Lemma leg_cells_buy (x y : option PlanRow) :
  leg_cells <$> x = leg_cells <$> y → buy <$> x = buy <$> y.
Proof.
  destruct x, y; simpl; try done. unfold leg_cells. by intros [= -> _ _].
Qed.

(** The turns that execute, told from the frame the loop starts on. *)
Lemma executed_triggers_iff mode w m (df : list PlanRow) tr st :
  (1 ≤ w)%Z →
  StronglySorted lt tr →
  Forall (λ i, i < length df)%nat tr →
  length st.1 = length df →
  (∀ i, i ∈ tr → buy <$> st.1 !! S i = buy <$> df !! S i) →
  ∀ i, i ∈ executed_triggers mode w m tr st
       ↔ i ∈ tr
         ∧ (S i < length df)%nat
         ∧ ¬ (mode = "hybrid_strategy" ∧ buy <$> df !! S i = Some true)
         ∧ (w ≤ Z.of_nat i - st.2)%Z
         ∧ ∀ j, j ∈ executed_triggers mode w m tr st → (j < i)%nat →
                (w ≤ Z.of_nat i - Z.of_nat j)%Z.
Proof.
  intros Hw. revert st.
  induction tr as [|k tr IH]; intros st Hsort Hlt Hlen Hbuy i.
  { simpl. split; [by intros ?%elem_of_nil|by intros [?%elem_of_nil _]]. }
  apply StronglySorted_inv in Hsort as [Hsort Hk].
  apply Forall_cons in Hlt as [Hkn Hlt].
  rewrite Forall_forall in Hk.
  cbn [executed_triggers].
  assert (decide_trigger mode w st.1 st.2 k = Execute
          ↔ (w ≤ Z.of_nat k - st.2)%Z ∧ (S k < length df)%nat
            ∧ ¬ (mode = "hybrid_strategy" ∧ buy <$> df !! S k = Some true))
    as Hexec.
  { rewrite decide_trigger_Execute, Hlen, (Hbuy k) by by left.
    split; intros (? & ? & ?); (split; [done|]); (split; [lia|done]). }
  destruct (decide_trigger mode w st.1 st.2 k) eqn:Hdec.
  - rewrite (drop_step_Ineligible _ _ _ _ _ Hdec).
    rewrite (IH st Hsort Hlt Hlen) by (intros; apply Hbuy; by right).
    rewrite elem_of_cons. split; [tauto|].
    intros ([->|Hi] & Hrest); [|tauto].
    assert (Ineligible = Execute) by (apply Hexec; tauto). done.
  - rewrite (drop_step_Suppressed _ _ _ _ _ Hdec).
    rewrite (IH st Hsort Hlt Hlen) by (intros; apply Hbuy; by right).
    rewrite elem_of_cons. split; [tauto|].
    intros ([->|Hi] & Hrest); [|tauto].
    assert (Suppressed = Execute) by (apply Hexec; tauto). done.
  - destruct (proj1 Hexec eq_refl) as (Hwait & Hnext & Hsupp).
    rewrite (drop_step_Execute _ _ _ _ _ Hdec).
    set (st' := (execute_buy m st.1 k, Z.of_nat k)).
    assert (∀ i, i ∈ executed_triggers mode w m tr st'
                 ↔ i ∈ tr
                   ∧ (S i < length df)%nat
                   ∧ ¬ (mode = "hybrid_strategy"
                        ∧ buy <$> df !! S i = Some true)
                   ∧ (w ≤ Z.of_nat i - Z.of_nat k)%Z
                   ∧ ∀ j, j ∈ executed_triggers mode w m tr st' →
                          (j < i)%nat → (w ≤ Z.of_nat i - Z.of_nat j)%Z)
      as IH'.
    { apply (IH st' Hsort Hlt).
      - simpl. by rewrite length_execute_buy.
      - intros j Hj. simpl. rewrite <-(Hbuy j) by by right.
        apply leg_cells_buy, execute_buy_other_rows.
        specialize (Hk j Hj). lia. }
    rewrite !elem_of_cons. split.
    + intros [->|Hi].
      * split; [by left|]. split; [done|]. split; [done|]. split; [done|].
        intros j Hj Hji. apply elem_of_cons in Hj as [->|Hj]; [lia|].
        apply IH' in Hj as [Hj _]. specialize (Hk j Hj). lia.
      * apply IH' in Hi as (Hi & Hn & Hs & Hwk & Hsp).
        split; [by right|]. split; [done|]. split; [done|]. split; [lia|].
        intros j Hj Hji. apply elem_of_cons in Hj as [->|Hj]; [done|].
        by apply Hsp.
    + intros ([->|Hi] & Hn & Hs & Hwi & Hsp); [by left|]. right.
      apply IH'. split; [done|]. split; [done|]. split; [done|].
      specialize (Hk i Hi). split.
      * apply (Hsp k); [apply elem_of_cons; by left|lia].
      * intros j Hj Hji. apply Hsp; [apply elem_of_cons; by right|done].
Qed.

Lemma less_all_snoc c l a : less_all c (l ++ [a]) = num_sub (less_all c l) a.
Proof. unfold less_all. by rewrite fold_left_app. Qed.

Lemma filter_snoc_le (ex : list nat) k t :
  filter (λ j, (S j ≤ t)%nat) (ex ++ [k])
  = filter (λ j, (S j ≤ t)%nat) ex ++ (if decide (S k ≤ t)%nat then [k] else []).
Proof.
  by rewrite filter_app.
Qed.

(** One executed buy more. *)
Lemma execute_buy_buys_accounted m df pl ex k :
  buys_accounted m df pl ex →
  Forall (λ j, j < k)%nat ex →
  (S k < length df)%nat →
  buys_accounted m df (execute_buy m pl k) (ex ++ [k]).
Proof.
  intros (Hlen & Hcap & Hcells & Hcash & Hrows) Hex Hk.
  rewrite Forall_forall in Hex.
  destruct (lookup_lt_is_Some_2 pl k) as [trigger' Hi]; [lia|].
  destruct (lookup_lt_is_Some_2 pl (S k)) as [next' Hn]; [lia|].
  destruct (lookup_lt_is_Some_2 df k) as [trigger0 Hi0]; [lia|].
  destruct (lookup_lt_is_Some_2 df (S k)) as [next0 Hn0]; [lia|].
  assert (percent_drop trigger' = percent_drop trigger0) as Hpd.
  { apply (f_equal (λ l, l !! k)) in Hcap.
    rewrite !list_lookup_fmap, Hi, Hi0 in Hcap. simpl in Hcap.
    injection Hcap as Hcap. by rewrite Hcap. }
  set (a := buy_amount m trigger' next').
  set (pl' := execute_buy m pl k).
  assert (∀ t, (t ≤ k)%nat → pl' !! t = pl !! t) as Hearly.
  { intros t Ht. by apply execute_buy_earlier_rows. }
  assert (∀ t (r : PlanRow), (S k ≤ t)%nat → pl' !! t = Some r →
            ∃ r_old : PlanRow,
              pl !! t = Some r_old ∧ cash r = num_sub (cash r_old) a)
    as Hlate.
  { intros t r Ht Hr. unfold pl' in Hr.
    rewrite (lookup_execute_buy m pl k trigger' next' t Hi Hn) in Hr.
    rewrite decide_False in Hr by lia. case_decide as Ht'.
    - subst t. injection Hr as <-. by exists next'.
    - destruct (pl !! t) as [r_old|]; simpl in Hr; [|done].
      injection Hr as <-. by exists r_old. }
  assert (pl' !! S k
          = Some (mk_plan_row next' true (buy_percent m trigger') a
                    (num_sub (cash next') a))) as Hnew.
  { unfold pl'.
    rewrite (lookup_execute_buy m pl k trigger' next' (S k) Hi Hn).
    rewrite decide_False by lia. by rewrite decide_True. }
  assert (amount_at pl' (S k) = a) as Ha.
  { unfold amount_at. by rewrite Hnew. }
  assert (∀ P : nat → Prop, ∀ HP : ∀ j, Decision (P j),
            (λ j, amount_at pl' (S j)) <$> filter P ex
            = (λ j, amount_at pl (S j)) <$> filter P ex) as Hsame.
  { intros P HP. apply Forall_fmap_ext_1, Forall_forall.
    intros j [_ Hj]%list_elem_of_filter. unfold amount_at.
    rewrite Hearly; [done|]. specialize (Hex j Hj). lia. }
  assert (∀ t, (k ≤ t)%nat → filter (λ j, (S j ≤ t)%nat) ex = ex) as Hall.
  { intros t Ht. apply filter_all, Forall_forall. intros j Hj.
    specialize (Hex j Hj). lia. }
  assert (cash next'
          = less_all (cash next0) ((λ j, amount_at pl (S j)) <$> ex))
    as Hbefore.
  { rewrite (Hcash (S k) next0 next' Hn0 Hn). by rewrite Hall by lia. }
  split; [by unfold pl'; rewrite length_execute_buy|].
  split; [by unfold pl'; rewrite capitalized_execute_buy|].
  split; [|split].
  - intros t Ht. unfold pl'. rewrite execute_buy_other_rows.
    + apply Hcells. intros i Hin. apply Ht, elem_of_app. by left.
    + apply Ht, elem_of_app. right. by left.
  - intros t r0 r Hr0 Hr. rewrite filter_snoc_le, fmap_app, Hsame.
    destruct (decide (S k ≤ t)%nat) as [Ht|Ht].
    + destruct (Hlate t r Ht Hr) as (r_old & Hold & ->).
      rewrite (Hcash t r0 r_old Hr0 Hold).
      rewrite fmap_cons, fmap_nil, Ha. by rewrite less_all_snoc.
    + rewrite fmap_nil, app_nil_r. rewrite Hearly in Hr by lia.
      by apply Hcash.
  - intros i trigger next [Hin|Hin%list_elem_of_singleton]%elem_of_app
      Htr Hnx percent cash_before.
    + specialize (Hex i Hin).
      unfold cash_before. rewrite filter_snoc_le, fmap_app, Hsame.
      rewrite decide_False by lia. rewrite fmap_nil, app_nil_r.
      rewrite Hearly by lia. by apply Hrows.
    + subst i. rewrite Hi0 in Htr. injection Htr as <-.
      rewrite Hn0 in Hnx. injection Hnx as <-.
      assert (cash_before = cash next') as Hcb.
      { unfold cash_before. rewrite filter_snoc_le, fmap_app, Hsame.
        rewrite decide_False by lia. rewrite fmap_nil, app_nil_r.
        rewrite Hall by lia. by rewrite Hbefore. }
      assert (buy_percent m trigger' = percent) as Hpc.
      { unfold buy_percent, percent. by rewrite Hpd. }
      eexists. split; [exact Hnew|]. simpl.
      unfold a, buy_amount. rewrite Hpc, Hcb. done.
Qed.

Lemma drop_loop_buys_accounted mode w m df tr st ex :
  StronglySorted lt tr →
  Forall (λ i, i < length df)%nat tr →
  (∀ j i, j ∈ ex → i ∈ tr → (j < i)%nat) →
  buys_accounted m df st.1 ex →
  buys_accounted m df (drop_loop mode w m tr st).1
    (ex ++ executed_triggers mode w m tr st).
Proof.
  revert st ex.
  induction tr as [|k tr IH]; intros st ex Hsort Hlt Hex Hinv.
  { simpl. by rewrite app_nil_r. }
  apply StronglySorted_inv in Hsort as [Hsort Hk].
  apply Forall_cons in Hlt as [Hkn Hlt].
  rewrite Forall_forall in Hk.
  unfold drop_loop. cbn [fold_left executed_triggers].
  change (fold_left (drop_step mode w m) tr ?s)
    with (drop_loop mode w m tr s).
  destruct (decide_trigger mode w st.1 st.2 k) eqn:Hdec.
  - rewrite (drop_step_Ineligible _ _ _ _ _ Hdec).
    apply IH; [done..| |done]. intros j i Hj Hi. apply Hex; [done|by right].
  - rewrite (drop_step_Suppressed _ _ _ _ _ Hdec).
    apply IH; [done..| |done]. intros j i Hj Hi. apply Hex; [done|by right].
  - rewrite (drop_step_Execute _ _ _ _ _ Hdec).
    replace (ex ++ k :: executed_triggers mode w m tr
                         (execute_buy m st.1 k, Z.of_nat k))
      with ((ex ++ [k]) ++ executed_triggers mode w m tr
                             (execute_buy m st.1 k, Z.of_nat k))
      by by rewrite <-app_assoc.
    apply IH; [done..| |].
    + intros j i [Hj|Hj%list_elem_of_singleton]%elem_of_app Hi.
      * apply Hex; [done|by right].
      * subst j. by apply Hk.
    + simpl. apply execute_buy_buys_accounted; [done| |].
      * apply Forall_forall. intros j Hj. apply Hex; [done|by left].
      * apply decide_trigger_Execute in Hdec as (_ & Hlast & _).
        destruct Hinv as (Hlen & _). rewrite Hlen in Hlast. lia.
Qed.

Lemma buys_accounted_start m df : buys_accounted m df df [].
Proof.
  split; [done|]. split; [done|]. split; [done|]. split.
  - intros t r0 r Hr0 Hr. rewrite Hr0 in Hr. by injection Hr as <-.
  - by intros i trigger next ?%elem_of_nil.
Qed.

(** C3: when the trigger at row [i] is eligible (the waiting window has
    elapsed, [i] is not the last row, the hybrid rule does not suppress
    it), the loop body records [i] as the last buy and rewrites the
    frame as follows.  Row [i+1] has buy = true, investment_percent =
    min(1, percent_drop(i) * drop_multiplier), investment_amount =
    cash(i+1) * investment_percent with the cash of before the buy, and
    that amount is taken off the cash of row [i+1] and of every later
    row; the rows up to [i] and the other columns of the later rows are
    untouched.  A trigger on the last row changes nothing.

    In the plan that [create_drop_threshold_investment_plan] returns
    the same holds of every eligible trigger.  The trigger rows that
    execute are the rows whose percent drop reaches the threshold, which
    are not the last row, which the hybrid rule does not suppress and
    which lie at least [waiting_days] after every executed trigger
    before them.  The row after each of them is a buy with the share
    min(1, percent_drop(i) * drop_multiplier) and the amount that this
    share makes of its cash, the cash being the one of the frame less
    the amounts of the buys executed before; the cash of every row of
    the plan is the cash of the frame less the amounts of all buys
    executed up to that row; every row that follows no executed trigger
    keeps its buy flag, share and amount; and the last row is never an
    executed trigger. *)
Theorem executed_buy_spec :
  (∀ mode w m df last_buy i (trigger next : PlanRow),
     df !! i = Some trigger →
     df !! S i = Some next →
     (w ≤ Z.of_nat i - last_buy)%Z →
     ¬ (mode = "hybrid_strategy" ∧ buy next = true) →
     let st' := drop_step mode w m (df, last_buy) i in
     let percent :=
       Qcmin 1 <$> num_mul (percent_drop trigger) (Some (Qc_of_Z m)) in
     let amount := num_mul (cash next) percent in
     st'.2 = Z.of_nat i
     ∧ length st'.1 = length df
     ∧ (∃ r : PlanRow,
          st'.1 !! S i = Some r
          ∧ buy r = true
          ∧ investment_percent r = percent
          ∧ investment_amount r = amount
          ∧ cash r = num_sub (cash next) amount)
     ∧ (∀ j (r : PlanRow), (S i < j)%nat → df !! j = Some r →
          ∃ r' : PlanRow,
            st'.1 !! j = Some r'
            ∧ cash r' = num_sub (cash r) amount
            ∧ buy r' = buy r
            ∧ investment_percent r' = investment_percent r
            ∧ investment_amount r' = investment_amount r)
     ∧ (∀ j, (j ≤ i)%nat → st'.1 !! j = df !! j)
     ∧ ∀ last_buy',
         drop_step mode w m (df, last_buy') (pred (length df))
         = (df, last_buy'))
  ∧ (∀ (df plan : list PlanRow) mode perc_drop_threshold waiting_days
       drop_multiplier w m,
       positive_int waiting_days = Some w →
       positive_int drop_multiplier = Some m →
       create_drop_threshold_investment_plan df mode perc_drop_threshold
         waiting_days drop_multiplier = Ok plan →
       let executed :=
         executed_triggers mode w m (trigger_rows df perc_drop_threshold)
           (df, (- w)%Z) in
       let bought := λ t,
         (λ j, amount_at plan (S j))
           <$> filter (λ j, (S j ≤ t)%nat) executed in
       (∀ i, i ∈ executed
             ↔ (∃ trigger next : PlanRow,
                  df !! i = Some trigger ∧ df !! S i = Some next
                  ∧ num_ge (percent_drop trigger) perc_drop_threshold = true
                  ∧ ¬ (mode = "hybrid_strategy" ∧ buy next = true))
               ∧ ∀ j, j ∈ executed → (j < i)%nat →
                      (w ≤ Z.of_nat i - Z.of_nat j)%Z)
       ∧ (∀ i (trigger next : PlanRow),
            i ∈ executed → df !! i = Some trigger → df !! S i = Some next →
            let percent :=
              Qcmin 1 <$> num_mul (percent_drop trigger)
                            (Some (Qc_of_Z m)) in
            let cash_before := less_all (cash next) (bought i) in
            ∃ r : PlanRow,
              plan !! S i = Some r
              ∧ buy r = true
              ∧ investment_percent r = percent
              ∧ investment_amount r = num_mul cash_before percent
              ∧ cash r = num_sub cash_before (num_mul cash_before percent))
       ∧ (∀ t (r0 r : PlanRow), df !! t = Some r0 → plan !! t = Some r →
            cash r = less_all (cash r0) (bought t))
       ∧ (∀ t, (∀ i, i ∈ executed → t ≠ S i) →
            leg_cells <$> plan !! t = leg_cells <$> df !! t)
       ∧ length plan = length df
       ∧ pred (length df) ∉ executed).
Proof.
  split.
  - intros mode w m df last_buy i trigger next Hi Hn Hw Hhyb st' percent
      amount.
    assert (decide_trigger mode w df last_buy i = Execute) as Hdec.
    { apply decide_trigger_Execute. split; [done|].
      pose proof (lookup_lt_Some _ _ _ Hn). split; [lia|].
      rewrite Hn. simpl. intros [? [= ?]]. by apply Hhyb. }
    assert (st' = (execute_buy m df i, Z.of_nat i)) as ->.
    { unfold st', drop_step. simpl. by rewrite Hdec. }
    simpl. split; [done|]. split; [apply length_execute_buy|].
    split; [|split; [|split]].
    + eexists. rewrite (lookup_execute_buy m df i trigger next) by done.
      rewrite decide_False by lia. rewrite decide_True by done.
      split; [done|]. done.
    + intros j r Hj Hr. eexists.
      rewrite (lookup_execute_buy m df i trigger next) by done.
      rewrite decide_False by lia. rewrite decide_False by lia.
      rewrite Hr. simpl. split; [done|]. done.
    + intros j Hj.
      rewrite (lookup_execute_buy m df i trigger next) by done.
      by rewrite decide_True by lia.
    + intros last_buy'. unfold drop_step. simpl.
      assert (decide_trigger mode w df last_buy' (pred (length df))
              = Ineligible) as ->; [|done].
      apply decide_trigger_Ineligible. by intros [_ ?].
  - intros df plan mode thr waiting_days drop_multiplier w m Hw Hm Hplan
      executed bought.
    apply create_drop_threshold_investment_plan_Ok in Hplan
      as (wz & mz & Hw' & Hm' & Hw1 & _ & _ & _ & _ & ->).
    rewrite Hw in Hw'. injection Hw' as <-.
    rewrite Hm in Hm'. injection Hm' as <-.
    pose proof (drop_loop_buys_accounted mode w m df (trigger_rows df thr)
                  (df, (- w)%Z) [] (trigger_rows_sorted df thr)
                  (trigger_rows_lt df thr)) as Hinv.
    destruct Hinv as (Hlen & Hcap & Hcells & Hcash & Hrows);
      [by intros j i ?%elem_of_nil|apply buys_accounted_start|].
    cbn [app] in Hcells, Hcash, Hrows. fold executed in Hcells, Hcash, Hrows.
    pose proof (executed_triggers_iff mode w m df (trigger_rows df thr)
                  (df, (- w)%Z) Hw1 (trigger_rows_sorted df thr)
                  (trigger_rows_lt df thr) eq_refl (λ _ _, eq_refl)) as Hiff.
    fold executed in Hiff. simpl in Hiff.
    split_and!; [|exact Hrows|exact Hcash|exact Hcells|exact Hlen|].
    + intros i. rewrite Hiff, elem_of_trigger_rows. split.
      * intros ((trigger & Hi & Hge) & Hn & Hs & _ & Hsp).
        destruct (lookup_lt_is_Some_2 df (S i) Hn) as [next Hnext].
        split; [|exact Hsp]. exists trigger, next. split_and!; try done.
        intros [Hmode Hb]. apply Hs. split; [done|].
        rewrite Hnext. simpl. by f_equal.
      * intros ((trigger & next & Hi & Hnext & Hge & Hs) & Hsp).
        split_and!; [by exists trigger| | |lia|exact Hsp].
        -- by eapply lookup_lt_Some.
        -- intros [Hmode Hb]. apply Hs. split; [done|].
           rewrite Hnext in Hb. simpl in Hb. by injection Hb.
    + intros Hin. apply Hiff in Hin as (_ & Hn & _). lia.
Qed.

Lemma executed_buy_spec_witness :
  match
    create_drop_threshold_investment_plan drops_after_calm
      "markettiming_strategy" (Q2Qc (35 # 1000)) (PyInt 2) (PyInt 1)
  with
  | Ok plan =>
      (λ r : PlanRow,
         (buy r, num_Q (investment_percent r), num_Q (investment_amount r),
          num_Q (cash r))) <$> plan
      = [ (false, Some (0 # 1)%Q, Some (0 # 1)%Q, Some (100 # 1)%Q);
          (false, Some (0 # 1)%Q, Some (0 # 1)%Q, Some (100 # 1)%Q);
          (true, Some (1 # 2)%Q, Some (50 # 1)%Q, Some (50 # 1)%Q);
          (false, Some (0 # 1)%Q, Some (0 # 1)%Q, Some (50 # 1)%Q);
          (true, Some (1 # 2)%Q, Some (25 # 1)%Q, Some (25 # 1)%Q) ]
      ∧ executed_triggers "markettiming_strategy" 2 1
          (trigger_rows drops_after_calm (Q2Qc (35 # 1000)))
          (drops_after_calm, (- (2))%Z)
        = [1; 3]%nat
      ∧ (∀ t (r0 r : PlanRow),
           drops_after_calm !! t = Some r0 → plan !! t = Some r →
           cash r
           = less_all (cash r0)
               ((λ j, amount_at plan (S j))
                  <$> filter (λ j, (S j ≤ t)%nat) [1; 3]%nat))
      ∧ ∀ t, t ≠ 2%nat → t ≠ 4%nat →
          leg_cells <$> plan !! t = leg_cells <$> drops_after_calm !! t
  | Raise _ => False
  end.
Proof.
  destruct (create_drop_threshold_investment_plan _ _ _ _ _)
    as [plan|e] eqn:E.
  - pose proof (proj2 executed_buy_spec drops_after_calm plan
                  "markettiming_strategy" (Q2Qc (35 # 1000)) (PyInt 2)
                  (PyInt 1) 2%Z 1%Z eq_refl eq_refl E) as H.
    cbv zeta in H. destruct H as (_ & _ & Hcash & Hcells & _).
    assert (executed_triggers "markettiming_strategy" 2 1
              (trigger_rows drops_after_calm (Q2Qc (35 # 1000)))
              (drops_after_calm, (- (2))%Z) = [1; 3]%nat) as Hex
      by (vm_compute; reflexivity).
    rewrite Hex in Hcash, Hcells.
    split; [|split; [exact Hex|split; [exact Hcash|]]].
    + pose proof E as E'. vm_compute in E'. by injection E' as <-.
    + intros t H1 H3. apply Hcells. intros i Hi.
      rewrite !elem_of_cons, elem_of_nil in Hi.
      destruct Hi as [->|[->|[]]]; done.
  - vm_compute in E. discriminate E.
Defined.
